(** * Rules engine of the chess application: codec, move generator,
      check detector, legality filter and state transition.

    Shallow embedding of [Source/chess/lib/utils.py] (encode, decode,
    initBoardVars), [Source/chess/lib/core.py] (the whole file) and
    [convertMoves] of [Source/chess/lib/__init__.py].

    Conventions.
    - Python ints are [Z]; a square [[x, y]] is a pair [Z * Z].
    - A piece [[x, y, ptype]] is a record; [ptype] is a Python value that is
      either a str or None, hence [option pystr] ([None] is Python's None:
      [makeMove] can store it through [promote]).
    - A Python str is the sequence of its code points ([pystr]); a literal
      between double quotes is the ASCII str with these characters.
    - A side is a [bool] ([false] is side 0, the one that moves first);
      [board[side]] is [pieces board side].
    - A raised exception is a value [Raise e] of the type [res]. *)

From Stdlib Require Import ZArith NArith List String Ascii Bool Lia DecimalString.
From Stdlib.Strings Require Import Byte.
Import ListNotations.

(** ** Python strings

    A str is a sequence of Unicode code points: [len] counts them and
    [data[i]] is the one-character str of the code point at [i]. *)

Inductive pystr : Set := PyStr (codes : list N).

Definition codepoints (s : pystr) : list N := let 'PyStr l := s in l.

(** Literals: an ASCII literal denotes the str of its characters; a str with
    other characters is written with its code points. *)
Definition pystr_of_bytes (l : list Byte.byte) : option pystr :=
  if forallb (fun b => (Byte.to_N b <? 128)%N) l
  then Some (PyStr (map Byte.to_N l))
  else None.

Definition bytes_of_pystr (s : pystr) : option (list Byte.byte) :=
  if forallb (fun c => (c <? 128)%N) (codepoints s)
  then Some (map (fun c => match Byte.of_N c with
                           | Some b => b
                           | None => Byte.x00
                           end)
                 (codepoints s))
  else None.

Declare Scope pystr_scope.
Delimit Scope pystr_scope with pystr.
Bind Scope pystr_scope with pystr.
String Notation pystr pystr_of_bytes bytes_of_pystr : pystr_scope.
Open Scope pystr_scope.
Open Scope list_scope.
Open Scope Z_scope.

(** [len(s)] *)
Definition len (s : pystr) : nat := List.length (codepoints s).

(** [a == b] for two strs. *)
Fixpoint codes_eqb (a b : list N) : bool :=
  match a, b with
  | [], [] => true
  | x :: a', y :: b' => N.eqb x y && codes_eqb a' b'
  | _, _ => false
  end.

Definition pystr_eqb (a b : pystr) : bool :=
  codes_eqb (codepoints a) (codepoints b).

(** [a + b] for two strs. *)
Definition pystr_app (a b : pystr) : pystr :=
  PyStr (codepoints a ++ codepoints b).

Notation "a ++ b" := (pystr_app a b) : pystr_scope.

(** ** Exceptions *)

Inductive exn : Type :=
| IndexError
| ValueError
| TypeError
| RecursionDepth.

Inductive res (A : Type) : Type :=
| Ok (a : A)
| Raise (e : exn).
Arguments Ok {A} a.
Arguments Raise {A} e.

Definition bind {A B : Type} (m : res A) (f : A -> res B) : res B :=
  match m with
  | Ok a => f a
  | Raise e => Raise e
  end.

Notation "'do' x <- m ; k" := (bind m (fun x => k))
  (at level 10, x pattern, m at level 100, k at level 200).

(** ** Squares, pieces, boards, flags *)

Definition pos : Type := (Z * Z)%type.

Definition pos_eqb (a b : pos) : bool :=
  (fst a =? fst b) && (snd a =? snd b).

Definition ptype : Type := option pystr.

Definition ptype_eqb (a b : ptype) : bool :=
  match a, b with
  | Some s, Some t => pystr_eqb s t
  | None, None => true
  | _, _ => false
  end.

Record piece : Type := mkPiece { px : Z; py : Z; pt : ptype }.

(** [piece[:2]] *)
Definition ppos (p : piece) : pos := (px p, py p).

Definition piece_eqb (a b : piece) : bool :=
  (px a =? px b) && (py a =? py b) && ptype_eqb (pt a) (pt b).

Record board : Type := mkBoard { side0 : list piece; side1 : list piece }.

(** [board[side]] *)
Definition pieces (b : board) (side : bool) : list piece :=
  if side then side1 b else side0 b.

(** [board[side] = l] *)
Definition setPieces (b : board) (side : bool) (l : list piece) : board :=
  if side then mkBoard (side0 b) l else mkBoard l (side1 b).

(** The four castling booleans, in the order of the list [flags[0]]. *)
Record castle : Type := mkCastle { c0 : bool; c1 : bool; c2 : bool; c3 : bool }.

(** [flags = [castling_info, en_passant_pos]]; either entry may be None. *)
Definition flags : Type := (option castle * option pos)%type.

Definition kP : ptype := Some "p".
Definition kN : ptype := Some "n".
Definition kB : ptype := Some "b".
Definition kR : ptype := Some "r".
Definition kQ : ptype := Some "q".
Definition kK : ptype := Some "k".

(** ** Notation codec ([utils.py]) *)

Definition LETTER : list pystr := [""; "a"; "b"; "c"; "d"; "e"; "f"; "g"; "h"].

(** [l[i]] for a Python list: negative indices count from the end. *)
Definition py_index {A : Type} (l : list A) (i : Z) : res A :=
  let n := Z.of_nat (List.length l) in
  let j := if i <? 0 then i + n else i in
  if (0 <=? j) && (j <? n)
  then match nth_error l (Z.to_nat j) with
       | Some a => Ok a
       | None => Raise IndexError
       end
  else Raise IndexError.

(** [l.index(s)] on a list of strings. *)
Fixpoint list_index (l : list pystr) (s : pystr) (i : Z) : res Z :=
  match l with
  | [] => Raise ValueError
  | h :: t => if pystr_eqb h s then Ok i else list_index t s (i + 1)
  end.

(** [str(n)] for an int: its decimal digits, in ASCII. *)
Definition str (n : Z) : pystr :=
  PyStr (map N_of_ascii
             (list_ascii_of_string (NilZero.string_of_int (Z.to_int n)))).

(** The decimal digits of the Unicode character database come in runs of
    ten consecutive code points, for the values 0 to 9.  [DIGIT_ZEROS] lists
    the first code point of every run (Unicode 14.0, the database of
    CPython 3.11): the ASCII digits, then the Arabic-Indic digits, and so
    on. *)
Definition DIGIT_ZEROS : list N :=
  [ 48; 1632; 1776; 1984; 2406; 2534; 2662; 2790; 2918; 3046; 3174; 3302;
    3430; 3558; 3664; 3792; 3872; 4160; 4240; 6112; 6160; 6470; 6608; 6784;
    6800; 6992; 7088; 7232; 7248; 42528; 43216; 43264; 43472; 43504; 43600;
    44016; 65296; 66720; 68912; 69734; 69872; 69942; 70096; 70384; 70736;
    70864; 71248; 71360; 71472; 71904; 72016; 72784; 73040; 73120; 92768;
    92864; 93008; 120782; 120792; 120802; 120812; 120822; 123200; 123632;
    125264; 130032 ]%N.

(** The value of the code point [c] as a decimal digit, if it is one. *)
Definition decimal (c : N) : option Z :=
  match find (fun z => (z <=? c) && (c <? z + 10))%N DIGIT_ZEROS with
  | Some z => Some (Z.of_N (c - z))
  | None => None
  end.

(** [int(c)] for the one-character str of the code point [c]: the value of
    a decimal digit, of any script; ValueError for every other character
    (a sign, a space or an underscore alone is no number). *)
Definition int_of_char (c : N) : res Z :=
  match decimal c with
  | Some d => Ok d
  | None => Raise ValueError
  end.

(** [data[i]] for a str and a literal index [i >= 0]: the code point of
    the one-character str obtained. *)
Definition char_at (data : pystr) (i : nat) : res N :=
  match nth_error (codepoints data) i with
  | Some c => Ok c
  | None => Raise IndexError
  end.

Definition encode (fro to : pos) (promote : option pystr) : res pystr :=
  do l1 <- py_index LETTER (fst fro);
  do l2 <- py_index LETTER (fst to);
  let data := (l1 ++ str (9 - snd fro) ++ l2 ++ str (9 - snd to))%pystr in
  match promote with
  | Some p => Ok (data ++ p)%pystr
  | None => Ok data
  end.

Definition decode (data : pystr) : res (pos * pos * option pystr) :=
  do d0 <- char_at data 0;
  do x1 <- list_index LETTER (PyStr [d0]) 0;
  do d1 <- char_at data 1;
  do r1 <- int_of_char d1;
  do d2 <- char_at data 2;
  do x2 <- list_index LETTER (PyStr [d2]) 0;
  do d3 <- char_at data 3;
  do r2 <- int_of_char d3;
  if Nat.eqb (len data) 5
  then do d4 <- char_at data 4;
       Ok ((x1, 9 - r1), (x2, 9 - r2), Some (PyStr [d4]))
  else Ok ((x1, 9 - r1), (x2, 9 - r2), None).

Definition initBoard : board :=
  mkBoard
    [ mkPiece 1 7 kP; mkPiece 2 7 kP; mkPiece 3 7 kP; mkPiece 4 7 kP;
      mkPiece 5 7 kP; mkPiece 6 7 kP; mkPiece 7 7 kP; mkPiece 8 7 kP;
      mkPiece 1 8 kR; mkPiece 2 8 kN; mkPiece 3 8 kB; mkPiece 4 8 kQ;
      mkPiece 5 8 kK; mkPiece 6 8 kB; mkPiece 7 8 kN; mkPiece 8 8 kR ]
    [ mkPiece 1 2 kP; mkPiece 2 2 kP; mkPiece 3 2 kP; mkPiece 4 2 kP;
      mkPiece 5 2 kP; mkPiece 6 2 kP; mkPiece 7 2 kP; mkPiece 8 2 kP;
      mkPiece 1 1 kR; mkPiece 2 1 kN; mkPiece 3 1 kB; mkPiece 4 1 kQ;
      mkPiece 5 1 kK; mkPiece 6 1 kB; mkPiece 7 1 kN; mkPiece 8 1 kR ].

Definition initFlags : flags := (Some (mkCastle true true true true), None).

Definition initBoardVars : bool * board * flags := (false, initBoard, initFlags).

(** ** Board queries ([core.py]) *)

(** [copy(board)]: a deep copy; values are immutable here. *)
Definition copy (b : board) : board := mkBoard (side0 b) (side1 b).

Definition at_pos (sq : pos) (p : piece) : bool := pos_eqb (ppos p) sq.

(** Returns [piece[2]] of the first piece of [side] on [sq]; Python's None
    both when there is no such piece and when that piece's type is None. *)
Definition getType (side : bool) (b : board) (sq : pos) : ptype :=
  match find (at_pos sq) (pieces b side) with
  | Some p => pt p
  | None => None
  end.

Definition isOccupied (side : bool) (b : board) (sq : pos) : bool :=
  match getType side b sq with
  | Some _ => true
  | None => false
  end.

Definition isEmpty (b : board) (poslist : list pos) : bool :=
  forallb (fun sq => negb (isOccupied false b sq) && negb (isOccupied true b sq))
          poslist.

(** ** Pseudo-legal generator, the part that needs no castling rights *)

(** [range(1, 8)] *)
Definition range_1_8 : list Z := [1; 2; 3; 4; 5; 6; 7].

(** [for i in range(1, 8): yield sq(i); if not isEmpty(board, sq(i)): break] *)
Fixpoint ray (b : board) (sq : Z -> pos) (idx : list Z) : list pos :=
  match idx with
  | [] => []
  | i :: rest => sq i :: (if isEmpty b [sq i] then ray b sq rest else [])
  end.

Definition bishopMoves (b : board) (x y : Z) : list pos :=
  ray b (fun i => (x + i, y + i)) range_1_8
  ++ ray b (fun i => (x + i, y - i)) range_1_8
  ++ ray b (fun i => (x - i, y + i)) range_1_8
  ++ ray b (fun i => (x - i, y - i)) range_1_8.

Definition rookMoves (b : board) (x y : Z) : list pos :=
  ray b (fun i => (x + i, y)) range_1_8
  ++ ray b (fun i => (x - i, y)) range_1_8
  ++ ray b (fun i => (x, y + i)) range_1_8
  ++ ray b (fun i => (x, y - i)) range_1_8.

Definition knightMoves (x y : Z) : list pos :=
  [ (x + 1, y + 2); (x + 1, y - 2); (x - 1, y + 2); (x - 1, y - 2);
    (x + 2, y + 1); (x + 2, y - 1); (x - 2, y + 1); (x - 2, y - 1) ].

Definition kingSteps (x y : Z) : list pos :=
  [ (x - 1, y - 1); (x, y - 1); (x + 1, y - 1); (x - 1, y);
    (x - 1, y + 1); (x, y + 1); (x + 1, y + 1); (x + 1, y) ].

(** [flags[1] == diag] *)
Definition enp_is (enp : option pos) (diag : pos) : bool :=
  match enp with
  | Some e => pos_eqb e diag
  | None => false
  end.

Definition pawnMoves (side : bool) (b : board) (x y : Z) (enp : option pos)
  : list pos :=
  if negb side then
    (if (y =? 7) && isEmpty b [(x, 6); (x, 5)] then [(x, 5)] else [])
    ++ (if isEmpty b [(x, y - 1)] then [(x, y - 1)] else [])
    ++ flat_map
         (fun diag =>
            if isOccupied true b diag || enp_is enp diag then [diag] else [])
         [(x + 1, y - 1); (x - 1, y - 1)]
  else
    (if (y =? 2) && isEmpty b [(x, 3); (x, 4)] then [(x, 4)] else [])
    ++ (if isEmpty b [(x, y + 1)] then [(x, y + 1)] else [])
    ++ flat_map
         (fun diag =>
            if isOccupied false b diag || enp_is enp diag then [diag] else [])
         [(x + 1, y + 1); (x - 1, y + 1)].

(** What [rawMoves(side, board, piece, flags)] yields when [flags[0]] is
    None: every branch of the generator but the castling block. *)
Definition rawMovesBase (side : bool) (b : board) (p : piece) (enp : option pos)
  : list pos :=
  let x := px p in
  let y := py p in
  if ptype_eqb (pt p) kP then pawnMoves side b x y enp
  else if ptype_eqb (pt p) kN then knightMoves x y
  else if ptype_eqb (pt p) kB then bishopMoves b x y
  else if ptype_eqb (pt p) kR then rookMoves b x y
  else if ptype_eqb (pt p) kQ then bishopMoves b x y ++ rookMoves b x y
  else if ptype_eqb (pt p) kK then kingSteps x y
  else [].

(** ** Check detector *)

Definition is_king (p : piece) : bool := ptype_eqb (pt p) kK.

(** [sq in <generator>] *)
Definition pos_in (sq : pos) (l : list pos) : bool := existsb (pos_eqb sq) l.

(** The call [rawMoves(not side, board, opp_piece)] takes the default
    [flags=[None, None]], so it is [rawMovesBase] with no en-passant square
    (see [rawMoves_default] below).  The result is Python's None when the
    side has no king. *)
Definition isChecked (side : bool) (b : board) : option bool :=
  match find is_king (pieces b side) with
  | Some k =>
      Some (existsb
              (fun opp => pos_in (ppos k) (rawMovesBase (negb side) b opp None))
              (pieces b (negb side)))
  | None => None
  end.

(** ** Applying a move *)

Definition UP (side : bool) : Z := if side then 8 else 1.
Definition DOWN (side : bool) : Z := if side then 1 else 8.
Definition side_int (side : bool) : Z := if side then 1 else 0.

(** Drops the first piece standing on [sq] (the capture loop). *)
Fixpoint removeAt (sq : pos) (l : list piece) : list piece :=
  match l with
  | [] => []
  | p :: rest => if at_pos sq p then rest else p :: removeAt sq rest
  end.

(** [l.remove(x)]: drops the first element equal to [x], ValueError if none. *)
Fixpoint list_remove (x : piece) (l : list piece) : res (list piece) :=
  match l with
  | [] => Raise ValueError
  | p :: rest =>
      if piece_eqb p x then Ok rest
      else do r <- list_remove x rest; Ok (p :: r)
  end.

(** [piece[:2] = to] on the first piece standing on [fro]. *)
Fixpoint relocate (fro to : pos) (l : list piece) : list piece :=
  match l with
  | [] => []
  | p :: rest =>
      if at_pos fro p then mkPiece (fst to) (snd to) (pt p) :: rest
      else p :: relocate fro to rest
  end.

(** [ALLOWENP], computed on the board as it is before the move. *)
Definition ALLOWENP (side : bool) (b : board) (fro to : pos) : bool :=
  (snd fro =? 4 + side_int side) && negb (fst to =? fst fro) && isEmpty b [to].

(** The first loop: the opposing piece standing on [to], if any, is removed. *)
Definition capture (side : bool) (b : board) (to : pos) : board :=
  setPieces b (negb side) (removeAt to (pieces b (negb side))).

(** [piece[:2] = to] for the first piece of [side] standing on [fro]. *)
Definition slide (side : bool) (b : board) (fro to : pos) : board :=
  setPieces b side (relocate fro to (pieces b side)).

(** [if to[1] == UP: board[side].remove(piece);
    board[side].append([to[0], UP, promote])] for the pawn [piece], which
    stands on [to] by now. *)
Definition promotion (side : bool) (b : board) (to : pos) (t : ptype)
           (promote : ptype) : res board :=
  if snd to =? UP side then
    do l <- list_remove (mkPiece (fst to) (snd to) t) (pieces b side);
    Ok (setPieces b side (l ++ [mkPiece (fst to) (UP side) promote]))
  else Ok b.

(** [if ALLOWENP: board[not side].remove([to[0], fro[1], "p"])] *)
Definition enPassant (side : bool) (b : board) (fro to : pos) (allow : bool)
  : res board :=
  if allow then
    do l <- list_remove (mkPiece (fst to) (snd fro) kP) (pieces b (negb side));
    Ok (setPieces b (negb side) l)
  else Ok b.

(** The body of [move]; [again] stands for [move] in its two recursive
    calls, which take the default [promote="p"]. *)
Definition moveWith (again : bool -> board -> pos -> pos -> ptype -> res board)
           (side : bool) (b : board) (fro to : pos) (promote : ptype)
  : res board :=
  let allow := ALLOWENP side b fro to in
  let b := capture side b to in
  match find (at_pos fro) (pieces b side) with
  | None => Ok b
  | Some p =>
      let b := slide side b fro to in
      do b <-
        (if ptype_eqb (pt p) kK then
           if fst fro - fst to =? 2 then
             again side b (1, DOWN side) (4, DOWN side) kP
           else if fst to - fst fro =? 2 then
             again side b (8, DOWN side) (6, DOWN side) kP
           else Ok b
         else Ok b);
      if ptype_eqb (pt p) kP then
        do b <- promotion side b to (pt p) promote;
        enPassant side b fro to allow
      else Ok b
  end.

(** [move] with the nesting of its recursive calls bounded by [depth]. *)
Fixpoint moveN (depth : nat) : bool -> board -> pos -> pos -> ptype -> res board :=
  match depth with
  | O => moveWith (fun _ _ _ _ _ => Raise RecursionDepth)
  | S d => moveWith (moveN d)
  end.

(** The source's [move]: two nested calls are the most it can make (a king
    step of two files calls it for [8, DOWN] -> [6, DOWN], which for a king
    found there calls it for [1, DOWN] -> [4, DOWN]; see [move_depth]). *)
Definition move (side : bool) (b : board) (fro to : pos) (promote : ptype)
  : res board :=
  moveN 2 side b fro to promote.

(** [not isChecked(side, move(side, copy(board), fro, to))]; the inner call
    takes [move]'s default [promote="p"]. *)
Definition moveTest (side : bool) (b : board) (fro to : pos) : res bool :=
  do nb <- move side (copy b) fro to kP;
  match isChecked side nb with
  | Some true => Ok false
  | _ => Ok true
  end.

(** ** Generators

    A Python generator is modelled by what it yields, in order, and by the
    exception that ended it, if any. *)

Definition gen (A : Type) : Type := (list A * option exn)%type.

Definition gen_done {A : Type} (l : list A) : gen A := (l, None).

(** Runs [g1], then [g2] unless [g1] raised. *)
Definition gen_seq {A : Type} (g1 g2 : gen A) : gen A :=
  match snd g1 with
  | Some e => g1
  | None => (fst g1 ++ fst g2, snd g2)
  end.

(** [x in g]: true at the first equal item, else whatever ended [g]. *)
Definition gen_in (sq : pos) (g : gen pos) : res bool :=
  if pos_in sq (fst g) then Ok true
  else match snd g with
       | Some e => Raise e
       | None => Ok false
       end.

(** ** Pseudo-legal generator *)

(** [if flag and isEmpty(...): if moveTest(...): yield dest] *)
Definition castleTry (flag empty : bool) (test : res bool) (dest : pos)
  : gen pos :=
  if flag && empty then
    match test with
    | Ok true => gen_done [dest]
    | Ok false => gen_done []
    | Raise e => ([], Some e)
    end
  else gen_done [].

(** The block guarded by [flags[0] is not None and not isChecked(side, board)]. *)
Definition castlingMoves (side : bool) (b : board) (rights : option castle)
  : gen pos :=
  match rights with
  | None => gen_done []
  | Some c =>
      match isChecked side b with
      | Some true => gen_done []
      | _ =>
          gen_seq
            (castleTry (c0 c) (isEmpty b [(2, 8); (3, 8); (4, 8)])
                       (moveTest false b (5, 8) (4, 8)) (3, 8))
            (gen_seq
               (castleTry (c1 c) (isEmpty b [(6, 8); (7, 8)])
                          (moveTest false b (5, 8) (6, 8)) (7, 8))
               (gen_seq
                  (castleTry (c2 c) (isEmpty b [(2, 1); (3, 1); (4, 1)])
                             (moveTest true b (5, 1) (4, 1)) (3, 1))
                  (castleTry (c3 c) (isEmpty b [(6, 1); (7, 1)])
                             (moveTest true b (5, 1) (6, 1)) (7, 1))))
      end
  end.

Definition rawMoves (side : bool) (b : board) (p : piece) (fl : flags)
  : gen pos :=
  gen_seq
    (if ptype_eqb (pt p) kK then castlingMoves side b (fst fl) else gen_done [])
    (gen_done (rawMovesBase side b p (snd fl))).

(** ** Legality filter *)

Definition in_bounds (sq : pos) : bool :=
  (0 <? fst sq) && (fst sq <? 9) && (0 <? snd sq) && (snd sq <? 9).

(** The loop body of [availableMoves] over the candidates [dests]; [ending]
    is how the candidate generator ended. *)
Fixpoint availableLoop (side : bool) (b : board) (fro : pos)
         (dests : list pos) (ending : option exn) : gen pos :=
  match dests with
  | [] => ([], ending)
  | dest :: rest =>
      if in_bounds dest && negb (isOccupied side b dest) then
        match moveTest side b fro dest with
        | Raise e => ([], Some e)
        | Ok true =>
            let g := availableLoop side b fro rest ending in
            (dest :: fst g, snd g)
        | Ok false => availableLoop side b fro rest ending
        end
      else availableLoop side b fro rest ending
  end.

Definition availableMoves (side : bool) (b : board) (p : piece) (fl : flags)
  : gen pos :=
  let g := rawMoves side b p fl in
  availableLoop side b (ppos p) (fst g) (snd g).

(** [for piece in ps: for pos in availableMoves(...): yield [piece[:2], pos]] *)
Fixpoint legalLoop (side : bool) (b : board) (fl : flags) (ps : list piece)
  : gen (pos * pos) :=
  match ps with
  | [] => gen_done []
  | p :: rest =>
      let g := availableMoves side b p fl in
      gen_seq (map (fun d => (ppos p, d)) (fst g), snd g)
              (legalLoop side b fl rest)
  end.

Definition legalMoves (side : bool) (b : board) (fl : flags) : gen (pos * pos) :=
  legalLoop side b fl (pieces b side).

(** [for _ in legalMoves(...): return False] then [return True]. *)
Definition isEnd (side : bool) (b : board) (fl : flags) : res bool :=
  match legalMoves side b fl with
  | (_ :: _, _) => Ok false
  | ([], Some e) => Raise e
  | ([], None) => Ok true
  end.

(** Falls off the end, returning None, when a test fails. *)
Definition isValidMove (side : bool) (b : board) (fl : flags) (fro to : pos)
  : res (option bool) :=
  if in_bounds to && negb (isOccupied side b to) then
    let p := mkPiece (fst fro) (snd fro) (getType side b fro) in
    do found <- gen_in to (rawMoves side b p fl);
    if found then do r <- moveTest side b fro to; Ok (Some r)
    else Ok None
  else Ok None.

(** ** State transition *)

(** [x in board[side]] for a literal piece [x]. *)
Definition has_piece (b : board) (side : bool) (x : piece) : bool :=
  existsb (piece_eqb x) (pieces b side).

Definition updateFlags (side : bool) (b : board) (fro to : pos) (fl : flags)
  : res flags :=
  match fst fl with
  | None => Raise TypeError
  | Some c =>
      let k0 := has_piece b false (mkPiece 5 8 kK) in
      let k1 := has_piece b true (mkPiece 5 1 kK) in
      let castle0 :=
        if negb k0 || negb (has_piece b false (mkPiece 1 8 kR))
        then false else c0 c in
      let castle1 :=
        if negb k0 || negb (has_piece b false (mkPiece 8 8 kR))
        then false else c1 c in
      let castle2 :=
        if negb k1 || negb (has_piece b true (mkPiece 1 1 kR))
        then false else c2 c in
      let castle3 :=
        if negb k1 || negb (has_piece b true (mkPiece 8 1 kR))
        then false else c3 c in
      let enP :=
        if ptype_eqb (getType side b to) kP then
          if snd fro - snd to =? 2 then Some (fst to, 6)
          else if snd to - snd fro =? 2 then Some (fst to, 3)
          else None
        else None in
      Ok (Some (mkCastle castle0 castle1 castle2 castle3), enP)
  end.

Definition state : Type := (bool * board * flags)%type.

Definition makeMove (side : bool) (b : board) (fro to : pos) (fl : flags)
           (promote : ptype) : res state :=
  do newboard <- move side (copy b) fro to promote;
  do newflags <- updateFlags side newboard fro to fl;
  Ok (negb side, newboard, newflags).

(** [makeMove] called without [promote]: the default is ["q"]. *)
Definition makeMove_default (side : bool) (b : board) (fro to : pos)
           (fl : flags) : res state :=
  makeMove side b fro to fl kQ.

(** ** Replay ([lib/__init__.py]) *)

Fixpoint replay (st : state) (moves : list pystr) : res state :=
  match moves with
  | [] => Ok st
  | m :: rest =>
      do d <- decode m;
      let '(fro, to, promote) := d in
      let '(side, b, fl) := st in
      do st' <- makeMove side b fro to fl promote;
      replay st' rest
  end.

Definition convertMoves (moves : list pystr) : res state :=
  replay initBoardVars moves.

(** ** Predicates used by the statements *)

(** The promotion kinds of the notation: none, q, r, b, n. *)
Definition promotion_kind (p : option pystr) : Prop :=
  p = None \/ p = Some "q" \/ p = Some "r" \/ p = Some "b" \/ p = Some "n".


(** [side] has no king on the board. *)
Definition kingless (b : board) (side : bool) : Prop :=
  forall p, In p (pieces b side) -> pt p <> kK.


(** [flags[0][i]] *)
Definition castleFlag (i : nat) (c : castle) : bool :=
  match i with
  | 0%nat => c0 c
  | 1%nat => c1 c
  | 2%nat => c2 c
  | 3%nat => c3 c
  | _ => false
  end.

(** The right number [i] of a state's flags; no rights when [flags[0]] is
    None. *)
Definition right (i : nat) (fl : flags) : bool :=
  match fst fl with
  | Some c => castleFlag i c
  | None => false
  end.

(** The side, the king and the rook that the right number [i] is about. *)
Definition rightSide (i : nat) : bool := (2 <=? i)%nat.

Definition homeKing (i : nat) : piece :=
  if rightSide i then mkPiece 5 1 kK else mkPiece 5 8 kK.

Definition homeRook (i : nat) : piece :=
  match i with
  | 0%nat => mkPiece 1 8 kR
  | 1%nat => mkPiece 8 8 kR
  | 2%nat => mkPiece 1 1 kR
  | _ => mkPiece 8 1 kR
  end.

(** A game advanced by [makeMove] only, with any arguments. *)
Inductive plays : state -> state -> Prop :=
| plays_here (st : state) : plays st st
| plays_move (side : bool) (b : board) (fl : flags) (fro to : pos)
             (promote : ptype) (st' st'' : state) :
    makeMove side b fro to fl promote = Ok st' ->
    plays st' st'' ->
    plays (side, b, fl) st''.

(** The stored move number [length pre] of [moves] decodes but is not a
    legal move, according to [isValidMove], in the position that replaying
    the moves before it gives. *)
Definition illegal_at (moves pre : list pystr) : Prop :=
  exists m post side b fl fro to promote,
    moves = pre ++ m :: post
    /\ replay initBoardVars pre = Ok (side, b, fl)
    /\ decode m = Ok (fro, to, promote)
    /\ isValidMove side b fl fro to <> Ok (Some true).

(** Replay fails visibly on [moves] whenever one of them is illegal. *)
Definition replay_rejects (moves : list pystr) : Prop :=
  (exists pre, illegal_at moves pre) -> exists e, convertMoves moves = Raise e.

(** Replay stops at the stored move number [length pre] with the exception
    [e]: it does not decode, or [makeMove] raises on it. *)
Definition breaks_at (moves pre : list pystr) (e : exn) : Prop :=
  exists m post side b fl,
    moves = pre ++ m :: post
    /\ replay initBoardVars pre = Ok (side, b, fl)
    /\ (decode m = Raise e
        \/ exists fro to promote,
             decode m = Ok (fro, to, promote)
             /\ makeMove side b fro to fl promote = Raise e).

(** The castling candidate of the right number [i], the squares that must be
    empty for it, the square the king passes through, and the home square
    of the king. *)
Definition castleDest (i : nat) : pos :=
  match i with
  | 0%nat => (3, 8)
  | 1%nat => (7, 8)
  | 2%nat => (3, 1)
  | _ => (7, 1)
  end.

Definition castleBetween (i : nat) : list pos :=
  match i with
  | 0%nat => [(2, 8); (3, 8); (4, 8)]
  | 1%nat => [(6, 8); (7, 8)]
  | 2%nat => [(2, 1); (3, 1); (4, 1)]
  | _ => [(6, 1); (7, 1)]
  end.

Definition castlePass (i : nat) : pos :=
  match i with
  | 0%nat => (4, 8)
  | 1%nat => (6, 8)
  | 2%nat => (4, 1)
  | _ => (6, 1)
  end.

Definition kingHome (i : nat) : pos := if rightSide i then (5, 1) else (5, 8).

(** ** The position invariant *)

(** The number of pieces of a list standing on [sq]. *)
Definition countAt (sq : pos) (l : list piece) : nat :=
  List.length (filter (at_pos sq) l).

(** The number of pieces on [sq], both sides together. *)
Definition occupancy (b : board) (sq : pos) : nat :=
  (countAt sq (pieces b false) + countAt sq (pieces b true))%nat.

Definition kingsIn (l : list piece) : nat := List.length (filter is_king l).

(** The number of kings of [side]. *)
Definition kings (b : board) (side : bool) : nat := kingsIn (pieces b side).

(** Every piece carries a piece type (none is Python's None). *)
Definition typed (b : board) : Prop :=
  forall s p, In p (pieces b s) -> pt p <> None.

(** At most one piece on any square, one king a side, every piece typed. *)
Definition wf_board (b : board) : Prop :=
  (forall sq, (occupancy b sq <= 1)%nat)
  /\ kings b false = 1%nat /\ kings b true = 1%nat
  /\ typed b.

(** A castling flag that is set finds its king and its rook at home. *)
Definition rights_sound (b : board) (fl : flags) : Prop :=
  forall i, (i < 4)%nat -> right i fl = true ->
            In (homeKing i) (pieces b (rightSide i))
            /\ In (homeRook i) (pieces b (rightSide i)).

(** The invariant of a game state: the board is well formed, the rights are
    present and sound, and the side that has just moved is not in check. *)
Definition Inv (st : state) : Prop :=
  let '(side, b, fl) := st in
  wf_board b /\ fst fl <> None /\ rights_sound b fl
  /\ isChecked (negb side) b = Some false.

(** The promotion type handed to [makeMove] matters only when a pawn
    reaches its last rank; then it is a piece type other than the king's. *)
Definition promotion_allowed (side : bool) (b : board) (fro to : pos)
           (promote : ptype) : Prop :=
  getType side b fro = kP -> snd to = UP side ->
  promote <> None /\ promote <> kK.

(** States reached from the initial one by moves that [isValidMove] accepts
    in their position and [makeMove] then applies. *)
Inductive reachable : state -> Prop :=
| reach_init : reachable initBoardVars
| reach_move (side : bool) (b : board) (fl : flags) (fro to : pos)
             (promote : ptype) (st' : state) :
    reachable (side, b, fl) ->
    isValidMove side b fl fro to = Ok (Some true) ->
    promotion_allowed side b fro to promote ->
    makeMove side b fro to fl promote = Ok st' ->
    reachable st'.

(** The same without the condition on the promotion type: states reached
    from the initial one by moves that [isValidMove] accepts in their
    position and [makeMove] then applies with any [promote]. *)
Inductive validated : state -> Prop :=
| valid_init : validated initBoardVars
| valid_move (side : bool) (b : board) (fl : flags) (fro to : pos)
             (promote : ptype) (st' : state) :
    validated (side, b, fl) ->
    isValidMove side b fl fro to = Ok (Some true) ->
    makeMove side b fro to fl promote = Ok st' ->
    validated st'.

(** A game played from [st] as the online game loop does: every move is
    applied by [makeMove], with the promotion type that comes with it, only
    when [isValidMove] has accepted it; nothing is returned once a move is
    not accepted. *)
Fixpoint playWith (st : state) (moves : list (pos * pos * ptype))
  : option state :=
  match moves with
  | [] => Some st
  | (fro, to, promote) :: rest =>
      let '(side, b, fl) := st in
      match isValidMove side b fl fro to with
      | Ok (Some true) =>
          match makeMove side b fro to fl promote with
          | Ok st' => playWith st' rest
          | Raise _ => None
          end
      | _ => None
      end
  end.

(** h4 a6 h5 a5 h6 a4 hxg7 a3, after which the pawn of side 0 on g7 takes
    the rook on h8 and is promoted to a king. *)
Definition kingPromotionGame : list (pos * pos * ptype) :=
  [ ((8, 7), (8, 5), None); ((1, 2), (1, 3), None);
    ((8, 5), (8, 4), None); ((1, 3), (1, 4), None);
    ((8, 4), (8, 3), None); ((1, 4), (1, 5), None);
    ((8, 3), (7, 2), None); ((1, 5), (1, 6), None);
    ((7, 2), (8, 1), kK) ].

(** h4 Nf6 h5 a6 h6 a5 hxg7 a4, after which the pawn of side 0 goes to g8
    with no promotion type at all; then a3, Rxh7, b6, Rxh8, b5, and the
    rook of side 0 steps onto g8, which [isOccupied] finds free. *)
Definition untypedPromotionGame : list (pos * pos * ptype) :=
  [ ((8, 7), (8, 5), None); ((7, 1), (6, 3), None);
    ((8, 5), (8, 4), None); ((1, 2), (1, 3), None);
    ((8, 4), (8, 3), None); ((1, 3), (1, 4), None);
    ((8, 3), (7, 2), None); ((1, 4), (1, 5), None);
    ((7, 2), (7, 1), None); ((1, 5), (1, 6), None);
    ((8, 8), (8, 2), None); ((2, 2), (2, 3), None);
    ((8, 2), (8, 1), None); ((2, 3), (2, 4), None);
    ((8, 1), (7, 1), None) ].

(** The relocation step of [move]: capture on [to], then the first piece of
    [side] on [fro] goes to [to]. *)
Definition shift (side : bool) (b : board) (fro to : pos) : board :=
  slide side (capture side b to) fro to.

(** No piece of either side stands on [sq]. *)
Definition vacant (b : board) (sq : pos) : Prop :=
  forall s p, In p (pieces b s) -> ppos p <> sq.

(** The square between the home rook of the right [i] and its castling
    destination, when there is one. *)
Definition rookPath (i : nat) : list pos :=
  match i with
  | 0%nat => [(2, 8)]
  | 2%nat => [(2, 1)]
  | _ => []
  end.

(** A king of [side] stands on the castling destination of a right of the
    other side, whose rook is at home with a free path to it. *)
Definition rook_setup (i : nat) (side : bool) (b : board) : Prop :=
  In (mkPiece (fst (castleDest i)) (snd (castleDest i)) kK) (pieces b side)
  /\ kings b side = 1%nat
  /\ In (homeRook i) (pieces b (negb side))
  /\ forall sq, In sq (rookPath i) -> vacant b sq.

(** The state after the first move e2e4 of side 0. *)
Definition afterE4 : state :=
  Eval vm_compute in
    match makeMove false initBoard (5, 7) (5, 5) initFlags None with
    | Ok st => st
    | Raise _ => initBoardVars
    end.

(** * Further functions of the library

    The remaining pure functions of [Source/chess/lib/utils.py] (undo,
    updateTimer) and of [Source/chess/lib/__init__.py] (getPromote,
    showClock, showAvailMoves), with [getChoice] of
    [Source/chess/lib/gui.py], which [getPromote] calls.  What these
    functions draw on the window is kept only where a statement needs it:
    as the list of calls made. *)

(** ** Move history ([utils.py]) *)

(** [n in range(num)] for ints. *)
Definition in_range (n num : Z) : bool := (0 <=? n) && (n <? num).

(** [l[:stop]]: a negative [stop] counts from the end, and what falls
    outside the list is clipped. *)
Definition slice_to {A : Type} (l : list A) (stop : Z) : list A :=
  let n := Z.of_nat (List.length l) in
  let s := if stop <? 0 then Z.max (stop + n) 0 else Z.min stop n in
  firstn (Z.to_nat s) l.

(** [undo(moves, num=1)] *)
Definition undo {A : Type} (moves : list A) (num : Z) : list A :=
  if in_range (Z.of_nat (List.length moves)) num then moves
  else slice_to moves (- num).

(** ** Clocks ([utils.py], [lib/__init__.py]) *)

(** [l[i] = a] for a Python list. *)
Definition py_store {A : Type} (l : list A) (i : Z) (a : A) : res (list A) :=
  let n := Z.of_nat (List.length l) in
  let j := if i <? 0 then i + n else i in
  if (0 <=? j) && (j <? n)
  then Ok (firstn (Z.to_nat j) l ++ a :: skipn (S (Z.to_nat j)) l)
  else Raise IndexError.

(** [l[i] += d] *)
Definition py_add_at (l : list Z) (i : Z) (d : Z) : res (list Z) :=
  do v <- py_index l i; py_store l i (v + d).

(** [updateTimer(side, mode, timer)]; [timer] is None or a list of ints,
    indexed by the side. *)
Definition updateTimer (side : bool) (mode : Z) (timer : option (list Z))
  : res (option (list Z)) :=
  match timer with
  | None => Ok None
  | Some t =>
      if negb (mode =? -1) then
        do ret <- py_add_at t (side_int side) (mode * 1000);
        Ok (Some ret)
      else Ok (Some t)
  end.

(** The calls that [showClock] makes on the window. *)
Inductive guiCall : Type :=
| DisplayUpdate
| ShowTimeOver (side : bool)
| PutClock (timer : list Z).

(** [showClock(win, side, mode, timer, start_time, timedelta)]; [now] is
    what [getTime()] returns.  The result is the returned timer with the
    calls made on the window. *)
Definition showClock (now : Z) (side : bool) (mode : Z)
           (timer : option (list Z)) (start_time timedelta : Z)
  : res (option (list Z) * list guiCall) :=
  match timer with
  | None => Ok (None, [DisplayUpdate])
  | Some t =>
      let elapsed := now - (start_time + timedelta) in
      if mode =? -1 then
        do ret <- py_add_at t (side_int side) elapsed;
        do v <- py_index ret (side_int side);
        do ret <- (if 3600000 <=? v
                   then py_store ret (side_int side) 3599000
                   else Ok ret);
        Ok (Some ret, [PutClock ret])
      else
        do ret <- py_add_at t (side_int side) (- elapsed);
        do v <- py_index ret (side_int side);
        if v <? 0 then Ok (None, [ShowTimeOver side])
        else Ok (Some ret, [PutClock ret])
  end.

(** ** Promotion dialog ([gui.py], [lib/__init__.py]) *)

(** The events that [pygame.event.get()] delivers; only a pressed mouse
    button, with [event.pos], is looked at. *)
Inductive event : Type :=
| MouseButtonDown (x y : Z)
| OtherEvent.

(** [getChoice(win, side)] run on the events delivered so far: the piece
    type returned, or nothing while the loop is still waiting. *)
Fixpoint getChoice (events : list event) : option pystr :=
  match events with
  | [] => None
  | MouseButtonDown x y :: rest =>
      if (0 <? y) && (y <? 50) then
        if (250 <? x) && (x <? 300) then Some "q"
        else if (300 <? x) && (x <? 350) then Some "b"
        else if (350 <? x) && (x <? 400) then Some "r"
        else if (400 <? x) && (x <? 450) then Some "n"
        else getChoice rest
      else getChoice rest
  | OtherEvent :: rest => getChoice rest
  end.

(** [getPromote(win, side, board, fro, to, single)]: the value returned (a
    piece type or Python's None), or nothing while [getChoice] waits. *)
Definition getPromote (events : list event) (side : bool) (b : board)
           (fro to : pos) (single : bool) : option ptype :=
  if ptype_eqb (getType side b fro) kP
     && ((negb side && (snd to =? 1)) || (side && (snd to =? 8)))
  then
    if single then Some kQ
    else match getChoice events with
         | Some c => Some (Some c)
         | None => None
         end
  else Some None.

(** ** Destination markers ([lib/__init__.py]) *)

(** [showAvailMoves(win, side, board, pos, flags, flip)]: the rectangles
    [(x, y, 10, 10)] drawn, in order, and the exception that ended the
    loop, if any. *)
Definition showAvailMoves (side : bool) (b : board) (sq : pos) (fl : flags)
           (flip : bool) : gen (Z * Z * Z * Z) :=
  let p := mkPiece (fst sq) (snd sq) (getType side b sq) in
  let g := availableMoves side b p fl in
  (map (fun i =>
          (if flip then 470 - fst i * 50 else fst i * 50 + 20,
           if flip then 470 - snd i * 50 else snd i * 50 + 20,
           10, 10))
       (fst g),
   snd g).

(** ** Predicates used by the further statements *)




(** The en-passant square of a state, when there is one, lies behind a pawn
    of the side that has just moved, which stands on the rank
    [4 + side] of the side to move. *)
Definition enp_sound (st : state) : Prop :=
  let '(side, b, fl) := st in
  forall sq, snd fl = Some sq ->
             snd sq = (if side then 6 else 3)
             /\ In (mkPiece (fst sq) (4 + side_int side) kP)
                   (pieces b (negb side)).

(** No two pieces of [side] stand on the same square. *)
Definition own_distinct (b : board) (side : bool) : Prop :=
  forall sq, (countAt sq (pieces b side) <= 1)%nat.

(** The board after the first move e2e4 of side 0. *)
Definition afterE4_board : board := Eval vm_compute in snd (fst afterE4).

(** A game played from [st] as the game loops do: a move is applied by
    [makeMove], with its default promotion type, only when [isValidMove]
    has accepted it; nothing is returned once a move is not accepted. *)
Fixpoint play (st : state) (moves : list (pos * pos)) : option state :=
  match moves with
  | [] => Some st
  | (fro, to) :: rest =>
      let '(side, b, fl) := st in
      match isValidMove side b fl fro to with
      | Ok (Some true) =>
          match makeMove_default side b fro to fl with
          | Ok st' => play st' rest
          | Raise _ => None
          end
      | _ => None
      end
  end.

(** The state after e2e4 e7e5 g1f3 g8f6 f1c4 f8c5, and the state after
    side 0 has then castled on the king's wing. *)
Definition castleReady : state :=
  Eval vm_compute in
    match play initBoardVars
               [((5, 7), (5, 5)); ((5, 2), (5, 4)); ((7, 8), (6, 6));
                ((7, 1), (6, 3)); ((6, 8), (3, 5)); ((6, 1), (3, 4))] with
    | Some st => st
    | None => initBoardVars
    end.

Definition castled : state :=
  Eval vm_compute in
    match play castleReady [((5, 8), (7, 8))] with
    | Some st => st
    | None => initBoardVars
    end.

(** The direction in which the pawns of [side] advance. *)
Definition forward (side : bool) : Z := if side then 1 else -1.

(** What a move from [fro] to [to] leaves behind: no piece of [side] on
    [fro], no piece of the other side on [to], and a piece of type [t] of
    [side] on [to], the only one of [side] there. *)
Definition moved (side : bool) (fro to : pos) (t : ptype) (b : board) : Prop :=
  countAt fro (pieces b side) = 0%nat
  /\ countAt to (pieces b (negb side)) = 0%nat
  /\ In (mkPiece (fst to) (snd to) t) (pieces b side)
  /\ (countAt to (pieces b side) <= 1)%nat.

(** The state after e2e4 a7a6 e4e5 d7d5, in which side 0 can capture en
    passant on d6, and the state after that capture. *)
Definition enpReady : state :=
  Eval vm_compute in
    match play initBoardVars
               [((5, 7), (5, 5)); ((1, 2), (1, 3)); ((5, 5), (5, 4));
                ((4, 2), (4, 4))] with
    | Some st => st
    | None => initBoardVars
    end.

Definition enpTaken : state :=
  Eval vm_compute in
    match play enpReady [((5, 4), (4, 3))] with
    | Some st => st
    | None => initBoardVars
    end.

(** Every piece of the board stands on one of the 64 squares. *)
Definition on_board (b : board) : Prop :=
  forall s p, In p (pieces b s) -> in_bounds (ppos p) = true.

(** The state after e2e4 d7d5, in which side 0 can capture on d5, and the
    state after that capture. *)
Definition captureReady : state :=
  Eval vm_compute in
    match play initBoardVars [((5, 7), (5, 5)); ((4, 2), (4, 4))] with
    | Some st => st
    | None => initBoardVars
    end.

Definition captured : state :=
  Eval vm_compute in
    match play captureReady [((5, 5), (4, 4))] with
    | Some st => st
    | None => initBoardVars
    end.

(** ** Move strings *)

(** The code point of a file letter, a to h. *)
Definition file_letter (c : N) : Prop := (97 <= c <= 104)%N.

(** A str that starts with a file letter, a decimal digit of any script, a
    file letter and a decimal digit. *)
Definition move_string (s : pystr) : Prop :=
  exists a d a2 d2 rest,
    codepoints s = a :: d :: a2 :: d2 :: rest
    /\ file_letter a /\ decimal d <> None
    /\ file_letter a2 /\ decimal d2 <> None.

(** The ASCII digit with the value of the decimal digit [c]; [c] itself
    when it is no digit. *)
Definition ascii_digit (c : N) : N :=
  match decimal c with
  | Some r => (48 + Z.to_N r)%N
  | None => c
  end.

(** The str with its second and fourth characters written as ASCII
    digits. *)
Definition ascii_ranks (s : pystr) : pystr :=
  match codepoints s with
  | a :: d :: a2 :: d2 :: rest =>
      PyStr (a :: ascii_digit d :: a2 :: ascii_digit d2 :: rest)
  | _ => s
  end.

(** The move e3e4 with its first rank written as the Arabic-Indic digit
    three (U+0663). *)
Definition e3e4_arabic : pystr := PyStr [101; 1635; 101; 52]%N.

(** The move e7e8q with its first rank written as the Arabic-Indic digit
    seven (U+0667). *)
Definition e7e8q_arabic : pystr := PyStr [101; 1639; 101; 56; 113]%N.

(** The state at the end of [kingPromotionGame]. *)
Definition twoKings : state :=
  Eval vm_compute in
    match playWith initBoardVars kingPromotionGame with
    | Some st => st
    | None => initBoardVars
    end.

(** * Theorems *)

(** ** Equality tests *)

Lemma pos_eqb_eq (a b : pos) : pos_eqb a b = true <-> a = b.
Proof.
  destruct a as [a1 a2], b as [b1 b2]; unfold pos_eqb; simpl.
  rewrite andb_true_iff, !Z.eqb_eq. split.
  - intros [-> ->]; reflexivity.
  - intros H; inversion H; auto.
Qed.

Lemma pos_eqb_refl (a : pos) : pos_eqb a a = true.
Proof. apply pos_eqb_eq; reflexivity. Qed.

Lemma pos_eqb_neq (a b : pos) : pos_eqb a b = false <-> a <> b.
Proof.
  rewrite <- pos_eqb_eq. destruct (pos_eqb a b); split; congruence.
Qed.

Lemma pos_eqb_sym (a b : pos) : pos_eqb a b = pos_eqb b a.
Proof.
  unfold pos_eqb. rewrite (Z.eqb_sym (fst a)), (Z.eqb_sym (snd a)). reflexivity.
Qed.

Lemma codes_eqb_eq (a b : list N) : codes_eqb a b = true <-> a = b.
Proof.
  revert b. induction a as [|x a IH]; intros [|y b]; simpl;
    try (split; congruence).
  rewrite andb_true_iff, N.eqb_eq, IH. split.
  - intros [-> ->]; reflexivity.
  - intros H; inversion H; auto.
Qed.

Lemma pystr_eqb_eq (a b : pystr) : pystr_eqb a b = true <-> a = b.
Proof.
  destruct a as [a], b as [b]. unfold pystr_eqb. cbn [codepoints].
  rewrite codes_eqb_eq. split; congruence.
Qed.

Lemma ptype_eqb_eq (a b : ptype) : ptype_eqb a b = true <-> a = b.
Proof.
  destruct a as [s|], b as [t|]; simpl; try (split; congruence).
  rewrite pystr_eqb_eq. split; congruence.
Qed.

Lemma ptype_eqb_refl (a : ptype) : ptype_eqb a a = true.
Proof. apply ptype_eqb_eq; reflexivity. Qed.

Lemma ptype_eqb_neq (a b : ptype) : ptype_eqb a b = false <-> a <> b.
Proof.
  rewrite <- ptype_eqb_eq. destruct (ptype_eqb a b); split; congruence.
Qed.

Lemma piece_eqb_eq (a b : piece) : piece_eqb a b = true <-> a = b.
Proof.
  destruct a as [ax ay at_], b as [bx by_ bt]; unfold piece_eqb; simpl.
  rewrite !andb_true_iff, !Z.eqb_eq, ptype_eqb_eq. split.
  - intros [[-> ->] ->]; reflexivity.
  - intros H; inversion H; auto.
Qed.

Lemma pos_in_In (sq : pos) (l : list pos) : pos_in sq l = true <-> In sq l.
Proof.
  unfold pos_in. rewrite existsb_exists. split.
  - intros (x & Hx & E). apply pos_eqb_eq in E. subst; assumption.
  - intros H. exists sq. split; [assumption | apply pos_eqb_refl].
Qed.

Lemma at_pos_true (sq : pos) (p : piece) : at_pos sq p = true <-> ppos p = sq.
Proof. apply pos_eqb_eq. Qed.

(** ** Boards *)

Lemma copy_id (b : board) : copy b = b.
Proof. destruct b; reflexivity. Qed.

Lemma pieces_set_same (b : board) (s : bool) (l : list piece) :
  pieces (setPieces b s l) s = l.
Proof. destruct s; reflexivity. Qed.

Lemma pieces_set_other (b : board) (s : bool) (l : list piece) :
  pieces (setPieces b s l) (negb s) = pieces b (negb s).
Proof. destruct s; reflexivity. Qed.

Lemma pieces_set_negb (b : board) (s : bool) (l : list piece) :
  pieces (setPieces b (negb s) l) s = pieces b s.
Proof. destruct s; reflexivity. Qed.

Lemma setPieces_pieces (b : board) (s : bool) : setPieces b s (pieces b s) = b.
Proof. destruct b, s; reflexivity. Qed.

(** A board is determined by its two piece lists. *)
Lemma board_ext (b b' : board) :
  (forall s, pieces b s = pieces b' s) -> b = b'.
Proof.
  intros H. destruct b as [x y], b' as [x' y'].
  pose proof (H false) as H0. pose proof (H true) as H1. simpl in *.
  congruence.
Qed.

(** ** List surgery used by [move] *)

Lemma removeAt_In (sq : pos) (l : list piece) (p : piece) :
  In p (removeAt sq l) -> In p l.
Proof.
  induction l as [|q l IH]; simpl; [tauto|].
  destruct (at_pos sq q); simpl; intuition.
Qed.

Lemma list_remove_In (x : piece) (l r : list piece) (p : piece) :
  list_remove x l = Ok r -> In p r -> In p l.
Proof.
  revert r. induction l as [|q l IH]; simpl; intros r H; [discriminate|].
  destruct (piece_eqb q x).
  - inversion H; subst. auto.
  - destruct (list_remove x l) as [r'|e]; simpl in H; [|discriminate].
    inversion H; subst. simpl. intros [->|Hp]; [auto|]. right. eauto.
Qed.

Lemma list_remove_present (x : piece) (l : list piece) :
  In x l -> exists r, list_remove x l = Ok r.
Proof.
  induction l as [|q l IH]; simpl; [tauto|].
  intros H. destruct (piece_eqb q x) eqn:E; [eauto|].
  destruct H as [->|H].
  - rewrite (proj2 (piece_eqb_eq x x) eq_refl) in E. discriminate.
  - destruct (IH H) as [r ->]. simpl. eauto.
Qed.

Lemma list_remove_absent (x : piece) (l : list piece) :
  ~ In x l -> list_remove x l = Raise ValueError.
Proof.
  induction l as [|q l IH]; simpl; [reflexivity|].
  intros H. destruct (piece_eqb q x) eqn:E.
  - apply piece_eqb_eq in E. subst. tauto.
  - rewrite IH by tauto. reflexivity.
Qed.

Lemma relocate_In (fro to : pos) (l : list piece) (p : piece) :
  In p (relocate fro to l) ->
  In p l \/ exists q, In q l /\ ppos q = fro
                      /\ p = mkPiece (fst to) (snd to) (pt q).
Proof.
  induction l as [|q l IH]; simpl; [tauto|].
  destruct (at_pos fro q) eqn:E; simpl.
  - intros [<-|H]; [|auto]. right. exists q.
    apply at_pos_true in E. auto.
  - intros [<-|H]; [auto|]. destruct (IH H) as [H'|(q' & H1 & H2 & H3)]; [auto|].
    right. exists q'. auto.
Qed.

Lemma find_at_pos_Some (sq : pos) (l : list piece) (p : piece) :
  find (at_pos sq) l = Some p -> In p l /\ ppos p = sq.
Proof.
  intros H. apply find_some in H. destruct H as [H1 H2].
  apply at_pos_true in H2. auto.
Qed.

Lemma find_at_pos_None (sq : pos) (l : list piece) :
  find (at_pos sq) l = None <-> forall p, In p l -> ppos p <> sq.
Proof.
  split.
  - intros H p Hp E. apply (find_none _ _ H) in Hp.
    apply at_pos_true in E. congruence.
  - intros H. induction l as [|q l IH]; simpl; [reflexivity|].
    destruct (at_pos sq q) eqn:E.
    + apply at_pos_true in E. exfalso. apply (H q); simpl; auto.
    + apply IH. intros p Hp. apply H. simpl; auto.
Qed.

(** ** Notation codec *)

Ltac split_1_8 x :=
  let H := fresh in
  assert (H : x = 1 \/ x = 2 \/ x = 3 \/ x = 4 \/ x = 5 \/ x = 6 \/ x = 7 \/ x = 8)
    by lia;
  destruct H as [H|[H|[H|[H|[H|[H|[H|H]]]]]]]; subst x.

Lemma letter_roundtrip (x : Z) :
  1 <= x <= 8 ->
  exists c, py_index LETTER x = Ok (PyStr [c])
            /\ list_index LETTER (PyStr [c]) 0 = Ok x.
Proof.
  intros Hx. split_1_8 x; eexists; split; reflexivity.
Qed.

Lemma digit_roundtrip (y : Z) :
  1 <= y <= 8 ->
  exists c, str (9 - y) = PyStr [c] /\ int_of_char c = Ok (9 - y).
Proof.
  intros Hy. split_1_8 y; eexists; split; reflexivity.
Qed.

Lemma decode_chars (a d a2 d2 : N) (rest : list N) :
  decode (PyStr (a :: d :: a2 :: d2 :: rest)) =
  do x1 <- list_index LETTER (PyStr [a]) 0;
  do r1 <- int_of_char d;
  do x2 <- list_index LETTER (PyStr [a2]) 0;
  do r2 <- int_of_char d2;
  Ok ((x1, 9 - r1), (x2, 9 - r2),
      match rest with
      | [c] => Some (PyStr [c])
      | _ => None
      end).
Proof.
  unfold decode, char_at, len. cbn [codepoints nth_error bind].
  destruct (list_index LETTER (PyStr [a]) 0); [|reflexivity].
  destruct (int_of_char d); [|reflexivity].
  destruct (list_index LETTER (PyStr [a2]) 0); [|reflexivity].
  destruct (int_of_char d2); [|reflexivity].
  cbn [bind].
  destruct rest as [|c [|c' rest]]; reflexivity.
Qed.

(** C1: for every origin and destination with both coordinates in [1,8] and
    every promotion kind among none, q, r, b, n, [encode] returns a string
    and [decode] of that string returns exactly the origin, the destination
    and the promotion kind. *)
Theorem decode_encode (fro to : pos) (p : option pystr) :
  1 <= fst fro <= 8 -> 1 <= snd fro <= 8 ->
  1 <= fst to <= 8 -> 1 <= snd to <= 8 ->
  promotion_kind p ->
  exists s, encode fro to p = Ok s /\ decode s = Ok (fro, to, p).
Proof.
  destruct fro as [fx fy], to as [tx ty]; simpl.
  intros Hfx Hfy Htx Hty Hp.
  destruct (letter_roundtrip fx Hfx) as (a & Ha & Ha').
  destruct (digit_roundtrip fy Hfy) as (d & Hd & Hd').
  destruct (letter_roundtrip tx Htx) as (a2 & Ha2 & Ha2').
  destruct (digit_roundtrip ty Hty) as (d2 & Hd2 & Hd2').
  unfold encode; simpl fst; simpl snd.
  rewrite Ha, Ha2, Hd, Hd2; simpl.
  assert (E : forall r1 r2 : Z, r1 = 9 - fy -> r2 = 9 - ty ->
            (fx, 9 - r1, (tx, 9 - r2)) = (fx, fy, (tx, ty))).
  { intros; repeat f_equal; lia. }
  destruct Hp as [->|[->|[->|[->| ->]]]]; eexists; (split; [reflexivity|]);
    unfold pystr_app; cbn [codepoints app]; rewrite decode_chars, Ha', Hd', Ha2', Hd2';
    cbn [bind]; rewrite (E _ _ eq_refl eq_refl); reflexivity.
Qed.

Lemma decode_encode_witness :
  exists s, encode (5, 2) (5, 1) (Some "q") = Ok s
            /\ decode s = Ok ((5, 2), (5, 1), Some "q").
Proof.
  apply (decode_encode (5, 2) (5, 1) (Some "q")); simpl; try lia.
  right; left; reflexivity.
Defined.

(** ** Check detector *)

(** The default [flags=[None, None]] of [rawMoves] selects [rawMovesBase]:
    the castling block is skipped and nothing is raised. *)
Lemma rawMoves_default (side : bool) (b : board) (p : piece) :
  rawMoves side b p (None, None) = (rawMovesBase side b p None, None).
Proof.
  unfold rawMoves, castlingMoves, gen_seq, gen_done; simpl.
  destruct (ptype_eqb (pt p) kK); reflexivity.
Qed.

Lemma rawMovesBase_king (side : bool) (b : board) (x y : Z) (enp : option pos) :
  rawMovesBase side b (mkPiece x y kK) enp = kingSteps x y.
Proof. reflexivity. Qed.

(** C3: when [side] has a king, [isChecked] returns a boolean, and it is
    True exactly when the square of that king (the first one in
    [board[side]]) is among the candidates that [rawMoves] yields for some
    opposing piece under the default flags [[None, None]]; under those
    flags the castling block yields nothing, so a king's candidates are its
    eight neighbouring squares only. *)
Theorem isChecked_iff_attacked (side : bool) (b : board) (k : piece) :
  find is_king (pieces b side) = Some k ->
  (isChecked side b = Some true <->
   exists opp, In opp (pieces b (negb side))
               /\ In (ppos k) (fst (rawMoves (negb side) b opp (None, None))))
  /\ (isChecked side b = Some true \/ isChecked side b = Some false)
  /\ (forall s x y,
        castlingMoves s b None = ([], None)
        /\ rawMoves s b (mkPiece x y kK) (None, None) = (kingSteps x y, None)).
Proof.
  intros Hk. unfold isChecked. rewrite Hk. split; [|split].
  - split.
    + intros H. inversion H as [H']. apply existsb_exists in H'.
      destruct H' as (opp & Hin & Hat). exists opp. split; [assumption|].
      rewrite rawMoves_default. simpl. apply pos_in_In. assumption.
    + intros (opp & Hin & Hat). f_equal. apply existsb_exists.
      exists opp. split; [assumption|].
      rewrite rawMoves_default in Hat. simpl in Hat. apply pos_in_In. assumption.
  - destruct (existsb _ _); auto.
  - intros s x y. split; [reflexivity|]. rewrite rawMoves_default. reflexivity.
Qed.

Lemma isChecked_iff_attacked_witness :
  (isChecked false initBoard = Some true <->
   exists opp, In opp (pieces initBoard (negb false))
               /\ In (ppos (mkPiece 5 8 kK))
                     (fst (rawMoves (negb false) initBoard opp (None, None))))
  /\ (isChecked false initBoard = Some true
      \/ isChecked false initBoard = Some false)
  /\ (forall s x y,
        castlingMoves s initBoard None = ([], None)
        /\ rawMoves s initBoard (mkPiece x y kK) (None, None)
           = (kingSteps x y, None)).
Proof.
  apply (isChecked_iff_attacked false initBoard (mkPiece 5 8 kK)).
  reflexivity.
Defined.

(** ** A side without a king *)

Lemma find_is_king_None (l : list piece) :
  (forall p, In p l -> pt p <> kK) -> find is_king l = None.
Proof.
  intros H. induction l as [|q l IH]; simpl; [reflexivity|].
  unfold is_king at 1. destruct (ptype_eqb (pt q) kK) eqn:E.
  - apply ptype_eqb_eq in E. exfalso. apply (H q); simpl; auto.
  - apply IH. intros p Hp. apply H. simpl; auto.
Qed.

Lemma capture_same (side : bool) (b : board) (to : pos) :
  pieces (capture side b to) side = pieces b side.
Proof. apply pieces_set_negb. Qed.

Lemma capture_other (side : bool) (b : board) (to : pos) :
  pieces (capture side b to) (negb side) = removeAt to (pieces b (negb side)).
Proof. apply pieces_set_same. Qed.

Lemma slide_same (side : bool) (b : board) (fro to : pos) :
  pieces (slide side b fro to) side = relocate fro to (pieces b side).
Proof. apply pieces_set_same. Qed.

Lemma slide_other (side : bool) (b : board) (fro to : pos) :
  pieces (slide side b fro to) (negb side) = pieces b (negb side).
Proof. apply pieces_set_other. Qed.

Lemma slide_kingless (side : bool) (b : board) (fro to : pos) :
  kingless b side -> kingless (slide side b fro to) side.
Proof.
  intros H p Hp. rewrite slide_same in Hp. apply relocate_In in Hp.
  destruct Hp as [Hp|(q & Hq & _ & ->)]; [auto | simpl; auto].
Qed.

Lemma promotion_kingless (side : bool) (b b' : board) (to : pos)
      (t promote : ptype) :
  promote <> kK -> kingless b side ->
  promotion side b to t promote = Ok b' -> kingless b' side.
Proof.
  intros Hpr H. unfold promotion. destruct (snd to =? UP side).
  - destruct (list_remove _ _) as [l|e] eqn:Hl; cbn [bind]; [|discriminate].
    intros E; inversion E; subst; clear E. intros p Hp.
    rewrite pieces_set_same in Hp. apply in_app_or in Hp.
    destruct Hp as [Hp|[<-|[]]]; [|assumption].
    apply H. eapply list_remove_In; eauto.
  - intros E; inversion E; subst. assumption.
Qed.

Lemma enPassant_same (side : bool) (b b' : board) (fro to : pos) (allow : bool) :
  enPassant side b fro to allow = Ok b' -> pieces b' side = pieces b side.
Proof.
  unfold enPassant. destruct allow.
  - destruct (list_remove _ _) as [l|e]; cbn [bind]; [|discriminate].
    intros E; inversion E; subst. apply pieces_set_negb.
  - intros E; inversion E; subst. reflexivity.
Qed.

(** [move] for a piece that is not a king: no recursive call. *)
Lemma moveWith_not_king
      (again : bool -> board -> pos -> pos -> ptype -> res board)
      (side : bool) (b : board) (fro to : pos) (promote : ptype) (q : piece) :
  find (at_pos fro) (pieces b side) = Some q -> pt q <> kK ->
  moveWith again side b fro to promote
  = if ptype_eqb (pt q) kP then
      do b1 <- promotion side (slide side (capture side b to) fro to)
                         to (pt q) promote;
      enPassant side b1 fro to (ALLOWENP side b fro to)
    else Ok (slide side (capture side b to) fro to).
Proof.
  intros Hq Hk. unfold moveWith. rewrite capture_same, Hq.
  apply ptype_eqb_neq in Hk. rewrite Hk. reflexivity.
Qed.

Lemma moveWith_absent
      (again : bool -> board -> pos -> pos -> ptype -> res board)
      (side : bool) (b : board) (fro to : pos) (promote : ptype) :
  find (at_pos fro) (pieces b side) = None ->
  moveWith again side b fro to promote = Ok (capture side b to).
Proof.
  intros Hq. unfold moveWith. rewrite capture_same, Hq. reflexivity.
Qed.

Lemma move_not_king (side : bool) (b : board) (fro to : pos) (promote : ptype)
      (q : piece) :
  find (at_pos fro) (pieces b side) = Some q -> pt q <> kK ->
  move side b fro to promote
  = if ptype_eqb (pt q) kP then
      do b1 <- promotion side (slide side (capture side b to) fro to)
                         to (pt q) promote;
      enPassant side b1 fro to (ALLOWENP side b fro to)
    else Ok (slide side (capture side b to) fro to).
Proof. apply moveWith_not_king. Qed.

Lemma move_absent (side : bool) (b : board) (fro to : pos) (promote : ptype) :
  find (at_pos fro) (pieces b side) = None ->
  move side b fro to promote = Ok (capture side b to).
Proof. apply moveWith_absent. Qed.

(** [move] called with a promotion type other than ["k"] leaves a side that
    has no king without one. *)
Lemma moveN_no_king (depth : nat) (side : bool) (b b' : board) (fro to : pos)
      (promote : ptype) :
  promote <> kK -> kingless b side ->
  moveN depth side b fro to promote = Ok b' -> kingless b' side.
Proof.
  intros Hpr Hnk.
  assert (Hc : kingless (capture side b to) side).
  { intros p Hp. rewrite capture_same in Hp. auto. }
  assert (E : forall again, moveWith again side b fro to promote =
              match find (at_pos fro) (pieces (capture side b to) side) with
              | None => Ok (capture side b to)
              | Some p =>
                  if ptype_eqb (pt p) kP then
                    do b1 <- promotion side (slide side (capture side b to) fro to)
                                       to (pt p) promote;
                    enPassant side b1 fro to (ALLOWENP side b fro to)
                  else Ok (slide side (capture side b to) fro to)
              end).
  { intros again. unfold moveWith.
    destruct (find (at_pos fro) (pieces (capture side b to) side))
      as [q|] eqn:Hf; try reflexivity.
    destruct (find_at_pos_Some _ _ _ Hf) as [Hq _].
    pose proof (Hc q Hq) as Hqk. apply ptype_eqb_neq in Hqk.
    rewrite Hqk. reflexivity. }
  assert (E' : moveN depth side b fro to promote =
               moveWith (fun _ _ _ _ _ => Raise RecursionDepth)
                        side b fro to promote).
  { destruct depth; simpl; [reflexivity|]. rewrite !E. reflexivity. }
  rewrite E'. clear E'.
  rewrite E. clear E.
  destruct (find (at_pos fro) (pieces (capture side b to) side)) as [q|].
  - destruct (ptype_eqb (pt q) kP).
    + destruct (promotion _ _ _ _ _) as [b1|e] eqn:Hp; cbn [bind];
        [|discriminate].
      intros He p Hin. rewrite (enPassant_same _ _ _ _ _ _ He) in Hin.
      revert p Hin.
      apply (promotion_kingless side _ b1 to (pt q) promote Hpr
               (slide_kingless side _ fro to Hc) Hp).
    + intros E; inversion E; subst. apply slide_kingless. assumption.
  - intros E; inversion E; subst. assumption.
Qed.

(** C10: when [side] has no king on the board, [isChecked] returns None
    rather than a boolean or an error, and [moveTest], which negates it,
    returns True for every hypothetical move that [move] carries out (when
    [move] itself raises, so does [moveTest]). *)
Theorem isChecked_kingless (side : bool) (b : board) :
  kingless b side ->
  isChecked side b = None
  /\ forall fro to,
       match move side (copy b) fro to kP with
       | Ok _ => moveTest side b fro to = Ok true
       | Raise e => moveTest side b fro to = Raise e
       end.
Proof.
  intros Hnk. split.
  - unfold isChecked. rewrite find_is_king_None by assumption. reflexivity.
  - intros fro to. unfold moveTest.
    destruct (move side (copy b) fro to kP) as [nb|e] eqn:Hm; cbn [bind];
      [|reflexivity].
    unfold isChecked. rewrite find_is_king_None; [reflexivity|].
    unfold move in Hm. rewrite copy_id in Hm.
    eapply moveN_no_king; eauto. discriminate.
Qed.

Lemma isChecked_kingless_witness :
  isChecked false (mkBoard [mkPiece 1 7 kP] [mkPiece 5 1 kK]) = None
  /\ forall fro to,
       match move false (copy (mkBoard [mkPiece 1 7 kP] [mkPiece 5 1 kK]))
                  fro to kP with
       | Ok _ => moveTest false (mkBoard [mkPiece 1 7 kP] [mkPiece 5 1 kK])
                          fro to = Ok true
       | Raise e => moveTest false (mkBoard [mkPiece 1 7 kP] [mkPiece 5 1 kK])
                             fro to = Raise e
       end.
Proof.
  apply (isChecked_kingless false (mkBoard [mkPiece 1 7 kP] [mkPiece 5 1 kK])).
  simpl. intros p [<-|[]]. discriminate.
Defined.

(** ** The depth of [move] *)

Lemma has_piece_In (b : board) (side : bool) (x : piece) :
  has_piece b side x = true <-> In x (pieces b side).
Proof.
  unfold has_piece. rewrite existsb_exists. split.
  - intros (y & Hy & E). apply piece_eqb_eq in E. subst; assumption.
  - intros H. exists x. split; [assumption | apply piece_eqb_eq; reflexivity].
Qed.

Lemma DOWN_not_UP (side : bool) : (DOWN side =? UP side) = false.
Proof. destruct side; reflexivity. Qed.

Lemma DOWN_not_fourth (side : bool) : (DOWN side =? 4 + side_int side) = false.
Proof. destruct side; reflexivity. Qed.

Lemma relocate_absent (fro to : pos) (l : list piece) :
  find (at_pos fro) l = None -> relocate fro to l = l.
Proof.
  induction l as [|q l IH]; simpl; [reflexivity|].
  destruct (at_pos fro q); [discriminate|]. intros H. rewrite IH; auto.
Qed.

Lemma slide_absent (side : bool) (b : board) (fro to : pos) :
  find (at_pos fro) (pieces b side) = None -> slide side b fro to = b.
Proof.
  intros H. unfold slide. rewrite relocate_absent by assumption.
  apply setPieces_pieces.
Qed.

(** A piece that leaves from the rank [DOWN] and stays on it is neither
    promoted nor taken for an en-passant capture. *)
Lemma pawn_stage_on_DOWN (side : bool) (b0 b : board) (x x' : Z) (t promote : ptype) :
  (do b1 <- promotion side b (x', DOWN side) t promote;
   enPassant side b1 (x, DOWN side) (x', DOWN side)
             (ALLOWENP side b0 (x, DOWN side) (x', DOWN side))) = Ok b.
Proof.
  unfold promotion, ALLOWENP, enPassant; simpl.
  rewrite DOWN_not_UP, DOWN_not_fourth. reflexivity.
Qed.

(** The rook's hop from the a-file: no further call, at any depth. *)
Lemma moveN_hop_a (depth : nat) (side : bool) (b : board) (promote : ptype) :
  moveN depth side b (1, DOWN side) (4, DOWN side) promote
  = Ok (slide side (capture side b (4, DOWN side)) (1, DOWN side) (4, DOWN side)).
Proof.
  assert (E : forall again,
    moveWith again side b (1, DOWN side) (4, DOWN side) promote
    = Ok (slide side (capture side b (4, DOWN side))
                (1, DOWN side) (4, DOWN side))).
  { intros again. unfold moveWith. cbn [fst snd].
    destruct (find _ _) as [q|] eqn:Hf;
      [|rewrite slide_absent by assumption; reflexivity].
    change (1 - 4 =? 2) with false. change (4 - 1 =? 2) with false.
    destruct (ptype_eqb (pt q) kK); cbn [bind];
      destruct (ptype_eqb (pt q) kP); try reflexivity;
      apply pawn_stage_on_DOWN. }
  destruct depth; simpl; apply E.
Qed.

(** The rook's hop from the h-file: when the piece found on [8, DOWN] is a
    king, the a-file hop follows. *)
Lemma moveN_hop_h (depth : nat) (side : bool) (b : board) (promote : ptype) :
  moveN (S depth) side b (8, DOWN side) (6, DOWN side) promote
  = let b1 := slide side (capture side b (6, DOWN side))
                    (8, DOWN side) (6, DOWN side) in
    match find (at_pos (8, DOWN side))
               (pieces (capture side b (6, DOWN side)) side) with
    | Some q =>
        if ptype_eqb (pt q) kK
        then Ok (slide side (capture side b1 (4, DOWN side))
                       (1, DOWN side) (4, DOWN side))
        else Ok b1
    | None => Ok b1
    end.
Proof.
  cbn zeta. cbn [moveN]. unfold moveWith at 1. cbn [fst snd].
  destruct (find _ _) as [q|] eqn:Hf;
    [|rewrite slide_absent by assumption; reflexivity].
  change (8 - 6 =? 2) with true. cbn iota.
  destruct (ptype_eqb (pt q) kK) eqn:Hk.
  - rewrite moveN_hop_a. cbn [bind].
    apply ptype_eqb_eq in Hk. rewrite Hk. reflexivity.
  - cbn [bind]. destruct (ptype_eqb (pt q) kP); [|reflexivity].
    apply pawn_stage_on_DOWN.
Qed.

(** The nested call of [move], for the rook, always returns. *)
Lemma moveN_hop_ok (depth : nat) (side : bool) (b : board) (x x' : Z) :
  (x = 1 /\ x' = 4) \/ (x = 8 /\ x' = 6) ->
  exists b', moveN (S depth) side b (x, DOWN side) (x', DOWN side) kP = Ok b'.
Proof.
  intros [[-> ->]|[-> ->]].
  - rewrite moveN_hop_a. eauto.
  - rewrite moveN_hop_h. cbn zeta.
    destruct (find _ _) as [q|]; [destruct (ptype_eqb (pt q) kK)|]; eauto.
Qed.

Lemma list_remove_raises (x : piece) (l : list piece) (e : exn) :
  list_remove x l = Raise e -> e = ValueError.
Proof.
  induction l as [|q l IH]; simpl.
  - intros H; inversion H; reflexivity.
  - destruct (piece_eqb q x); [discriminate|].
    destruct (list_remove x l) as [r|e']; cbn [bind]; [discriminate|].
    intros H; inversion H; subst. apply IH. reflexivity.
Qed.

Lemma promotion_raises (side : bool) (b : board) (to : pos) (t promote : ptype)
      (e : exn) :
  promotion side b to t promote = Raise e -> e = ValueError.
Proof.
  unfold promotion. destruct (snd to =? UP side); [|discriminate].
  destruct (list_remove _ _) as [l|e'] eqn:Hl; cbn [bind]; [discriminate|].
  intros H; inversion H; subst. eapply list_remove_raises; eauto.
Qed.

Lemma enPassant_raises (side : bool) (b : board) (fro to : pos) (allow : bool)
      (e : exn) :
  enPassant side b fro to allow = Raise e -> e = ValueError.
Proof.
  unfold enPassant. destruct allow; [|discriminate].
  destruct (list_remove _ _) as [l|e'] eqn:Hl; cbn [bind]; [discriminate|].
  intros H; inversion H; subst. eapply list_remove_raises; eauto.
Qed.

(** [moveWith] consults [again] on the two rook hops only. *)
Lemma moveWith_ext
      (again again' : bool -> board -> pos -> pos -> ptype -> res board)
      (side : bool) (b : board) (fro to : pos) (promote : ptype) :
  (forall b0, again side b0 (1, DOWN side) (4, DOWN side) kP
              = again' side b0 (1, DOWN side) (4, DOWN side) kP) ->
  (forall b0, again side b0 (8, DOWN side) (6, DOWN side) kP
              = again' side b0 (8, DOWN side) (6, DOWN side) kP) ->
  moveWith again side b fro to promote = moveWith again' side b fro to promote.
Proof.
  intros Ha Hh. unfold moveWith. rewrite Ha, Hh. reflexivity.
Qed.

Lemma pawn_stage_raises (side : bool) (b0 bb : board) (fro to : pos)
      (t promote : ptype) (e : exn) :
  (do b1 <- promotion side bb to t promote;
   enPassant side b1 fro to (ALLOWENP side b0 fro to)) = Raise e ->
  e = ValueError.
Proof.
  destruct (promotion _ _ _ _ _) as [b1|e'] eqn:Hp; cbn [bind].
  - apply enPassant_raises.
  - intros H; inversion H; subst. eapply promotion_raises; eauto.
Qed.

(** Two nested calls are enough: more depth changes nothing, and the only
    exception [move] can raise is the ValueError of [list.remove]. *)
Lemma move_depth (k : nat) (side : bool) (b : board) (fro to : pos)
      (promote : ptype) :
  moveN (2 + k) side b fro to promote = move side b fro to promote
  /\ forall e, move side b fro to promote = Raise e -> e = ValueError.
Proof.
  unfold move. split.
  - change (moveN (2 + k)) with (moveWith (moveN (S k))).
    change (moveN 2) with (moveWith (moveN 1)).
    apply moveWith_ext; intros b0.
    + rewrite !moveN_hop_a. reflexivity.
    + rewrite !moveN_hop_h. reflexivity.
  - intros e. change (moveN 2) with (moveWith (moveN 1)).
    unfold moveWith.
    destruct (find _ _) as [q|]; [|discriminate].
    assert (Hpawn : forall bb : board,
      (if ptype_eqb (pt q) kP
       then do b1 <- promotion side bb to (pt q) promote;
            enPassant side b1 fro to (ALLOWENP side b fro to)
       else Ok bb) = Raise e -> e = ValueError).
    { intros bb. destruct (ptype_eqb (pt q) kP); [|discriminate].
      apply pawn_stage_raises. }
    destruct (ptype_eqb (pt q) kK); [|cbn [bind]; apply Hpawn].
    destruct (fst fro - fst to =? 2).
    + rewrite moveN_hop_a. cbn [bind]. apply Hpawn.
    + destruct (fst to - fst fro =? 2); [|cbn [bind]; apply Hpawn].
      destruct (moveN_hop_ok 0 side (slide side (capture side b to) fro to) 8 6)
        as [b' ->]; [right; split; reflexivity|].
      cbn [bind]. apply Hpawn.
Qed.

(** ** The initial position *)

Lemma pos_pair_dec (a b : pos * pos) : {a = b} + {a <> b}.
Proof. repeat decide equality. Defined.

(** C8: from the initial state (standard position, side 0 to move, the four
    castling flags True, no en-passant square) [legalMoves] for side 0 ends
    without an exception after yielding exactly 20 pairs [origin,
    destination], all distinct. *)
Theorem initial_position_20_moves :
  initBoardVars = (false, initBoard, (Some (mkCastle true true true true), None))
  /\ exists l, legalMoves false initBoard initFlags = (l, None)
               /\ List.length l = 20%nat /\ NoDup l.
Proof.
  split; [reflexivity|].
  eexists. split; [vm_compute; reflexivity|]. split; [reflexivity|].
  match goal with
  | |- NoDup ?l =>
      replace l with (nodup pos_pair_dec l) by (vm_compute; reflexivity)
  end.
  apply NoDup_nodup.
Qed.

(** ** Castling flags *)

Lemma updateFlags_flag (i : nat) (side : bool) (b : board) (fro to : pos)
      (fl fl' : flags) :
  (i < 4)%nat ->
  updateFlags side b fro to fl = Ok fl' ->
  right i fl' = right i fl && has_piece b (rightSide i) (homeKing i)
                && has_piece b (rightSide i) (homeRook i).
Proof.
  intros Hi. unfold updateFlags, right.
  destruct (fst fl) as [c|]; [|discriminate].
  intros H; inversion H; subst; clear H. cbn [fst].
  destruct c as [f0 f1 f2 f3].
  destruct i as [|[|[|[|i]]]]; [| | | |lia]; cbn;
    repeat match goal with
           | |- context [existsb ?f ?l] => destruct (existsb f l)
           end; cbn; rewrite ?andb_true_r, ?andb_false_r; reflexivity.
Qed.

Lemma makeMove_flag (i : nat) (side : bool) (b b' : board) (fro to : pos)
      (fl fl' : flags) (promote : ptype) (side' : bool) :
  (i < 4)%nat ->
  makeMove side b fro to fl promote = Ok (side', b', fl') ->
  right i fl' = right i fl && has_piece b' (rightSide i) (homeKing i)
                && has_piece b' (rightSide i) (homeRook i).
Proof.
  intros Hi. unfold makeMove.
  destruct (move side (copy b) fro to promote) as [nb|e]; cbn [bind];
    [|discriminate].
  destruct (updateFlags side nb fro to fl) as [nf|e] eqn:Hu; cbn [bind];
    [|discriminate].
  intros H; inversion H; subst. eapply updateFlags_flag; eauto.
Qed.

(** C5: [updateFlags] never turns a castling flag from False to True; after
    any [makeMove] a flag is True only if it was True before and the king
    and the rook it is about stand on their home squares on the new board,
    so it is False from the first transition that finds one of them away;
    and in a game advanced by [makeMove] only, starting from the initial
    state or from any other, a flag that is False stays False in every later
    state. *)
Theorem castling_flag_stays_false (i : nat) :
  (i < 4)%nat ->
  (forall side b fro to fl fl',
      updateFlags side b fro to fl = Ok fl' ->
      right i fl = false -> right i fl' = false)
  /\ (forall side b fro to fl promote side' b' fl',
         makeMove side b fro to fl promote = Ok (side', b', fl') ->
         right i fl' = true ->
         right i fl = true
         /\ In (homeKing i) (pieces b' (rightSide i))
         /\ In (homeRook i) (pieces b' (rightSide i)))
  /\ (forall st st',
         plays st st' -> right i (snd st) = false -> right i (snd st') = false)
  /\ (forall st st',
         plays initBoardVars st -> plays st st' ->
         right i (snd st) = false -> right i (snd st') = false).
Proof.
  intros Hi.
  assert (Hplays : forall st st',
             plays st st' -> right i (snd st) = false ->
             right i (snd st') = false).
  { intros st st' H. induction H as [st|side b fl fro to promote st' st'' Hm _ IH].
    - auto.
    - intros Hf. apply IH. destruct st' as [[s' b'] fl']. cbn [snd] in *.
      rewrite (makeMove_flag i _ _ _ _ _ _ _ _ _ Hi Hm), Hf. reflexivity. }
  split; [|split; [|split]].
  - intros side b fro to fl fl' Hu Hf.
    rewrite (updateFlags_flag i _ _ _ _ _ _ Hi Hu), Hf. reflexivity.
  - intros side b fro to fl promote side' b' fl' Hm Ht.
    rewrite (makeMove_flag i _ _ _ _ _ _ _ _ _ Hi Hm) in Ht.
    apply andb_true_iff in Ht. destruct Ht as [Ht Hr].
    apply andb_true_iff in Ht. destruct Ht as [Ht Hk].
    rewrite has_piece_In in Hk, Hr. auto.
  - exact Hplays.
  - intros st st' _. apply Hplays.
Qed.

Lemma castling_flag_stays_false_witness :
  (forall side b fro to fl fl',
      updateFlags side b fro to fl = Ok fl' ->
      right 0 fl = false -> right 0 fl' = false)
  /\ (forall side b fro to fl promote side' b' fl',
         makeMove side b fro to fl promote = Ok (side', b', fl') ->
         right 0 fl' = true ->
         right 0 fl = true
         /\ In (homeKing 0) (pieces b' (rightSide 0))
         /\ In (homeRook 0) (pieces b' (rightSide 0)))
  /\ (forall st st',
         plays st st' -> right 0 (snd st) = false -> right 0 (snd st') = false)
  /\ (forall st st',
         plays initBoardVars st -> plays st st' ->
         right 0 (snd st) = false -> right 0 (snd st') = false).
Proof.
  apply (castling_flag_stays_false 0). lia.
Defined.

(** ** Promotion *)

Lemma removeAt_not_at (sq : pos) (l : list piece) :
  (forall p, In p l -> ppos p <> sq) -> removeAt sq l = l.
Proof.
  intros H. induction l as [|q l IH]; simpl; [reflexivity|].
  destruct (at_pos sq q) eqn:E.
  - apply at_pos_true in E. exfalso. apply (H q); simpl; auto.
  - rewrite IH; [reflexivity|]. intros p Hp. apply H. simpl; auto.
Qed.


Lemma relocate_present (fro to : pos) (l : list piece) (q : piece) :
  find (at_pos fro) l = Some q ->
  In (mkPiece (fst to) (snd to) (pt q)) (relocate fro to l).
Proof.
  induction l as [|p l IH]; simpl; [discriminate|].
  destruct (at_pos fro p).
  - intros H; inversion H; subst. simpl; auto.
  - intros H. simpl. auto.
Qed.


Lemma getType_find (side : bool) (b : board) (sq : pos) (s : pystr) :
  getType side b sq = Some s ->
  exists q, find (at_pos sq) (pieces b side) = Some q /\ pt q = Some s.
Proof.
  unfold getType. destruct (find _ _) as [q|]; [|discriminate]. eauto.
Qed.


(** ** Replay *)

Lemma move_king_ok (side : bool) (b : board) (fro to : pos) (promote : ptype)
      (q : piece) :
  find (at_pos fro) (pieces b side) = Some q -> pt q = kK ->
  exists b', move side b fro to promote = Ok b'.
Proof.
  intros Hq Hk. unfold move. change (moveN 2) with (moveWith (moveN 1)).
  unfold moveWith. rewrite capture_same, Hq, Hk.
  change (ptype_eqb kK kK) with true. change (ptype_eqb kK kP) with false.
  cbn iota. destruct (fst fro - fst to =? 2).
  - rewrite moveN_hop_a. cbn [bind]. eauto.
  - destruct (fst to - fst fro =? 2); [|cbn [bind]; eauto].
    destruct (moveN_hop_ok 0 side (slide side (capture side b to) fro to) 8 6)
      as [b' ->]; [right; split; reflexivity|].
    cbn [bind]. eauto.
Qed.

(** The one way [move] raises: a pawn leaves the rank [4 + side] for another
    file and an empty square, and no opposing pawn stands beside its origin
    on the destination file. *)
Lemma move_raises_iff (side : bool) (b : board) (fro to : pos) (promote : ptype)
      (e : exn) :
  move side b fro to promote = Raise e <->
  e = ValueError
  /\ getType side b fro = kP
  /\ ALLOWENP side b fro to = true
  /\ ~ In (mkPiece (fst to) (snd fro) kP) (removeAt to (pieces b (negb side))).
Proof.
  unfold getType.
  destruct (find (at_pos fro) (pieces b side)) as [q|] eqn:Hq.
  2:{ rewrite move_absent by assumption. split; [discriminate|].
      intros (_ & H & _). discriminate. }
  destruct (ptype_eqb (pt q) kK) eqn:Hk.
  { apply ptype_eqb_eq in Hk.
    destruct (move_king_ok side b fro to promote q Hq Hk) as [b' ->].
    split; [discriminate|]. intros (_ & H & _). rewrite Hk in H. discriminate. }
  apply ptype_eqb_neq in Hk.
  rewrite (move_not_king side b fro to promote q Hq Hk).
  destruct (ptype_eqb (pt q) kP) eqn:Hp.
  2:{ split; [discriminate|]. intros (_ & H & _).
      apply ptype_eqb_neq in Hp. congruence. }
  apply ptype_eqb_eq in Hp.
  unfold promotion.
  assert (Hb1 : exists b1,
    (if snd to =? UP side
     then do l <- list_remove (mkPiece (fst to) (snd to) (pt q))
                     (pieces (slide side (capture side b to) fro to) side);
          Ok (setPieces (slide side (capture side b to) fro to) side
                (l ++ [mkPiece (fst to) (UP side) promote]))
     else Ok (slide side (capture side b to) fro to)) = Ok b1
    /\ pieces b1 (negb side) = removeAt to (pieces b (negb side))).
  { destruct (snd to =? UP side).
    - rewrite slide_same, capture_same.
      destruct (list_remove_present _ _ (relocate_present fro to _ q Hq))
        as [l ->].
      cbn [bind]. eexists. split; [reflexivity|].
      rewrite pieces_set_other, slide_other, capture_other. reflexivity.
    - eexists. split; [reflexivity|].
      rewrite slide_other, capture_other. reflexivity. }
  destruct Hb1 as (b1 & -> & Hopp). cbn [bind].
  unfold enPassant. destruct (ALLOWENP side b fro to).
  2:{ split; [discriminate|]. intros (_ & _ & H & _). discriminate. }
  rewrite Hopp. split.
  - destruct (list_remove _ _) as [l|e'] eqn:Hl; cbn [bind]; [discriminate|].
    intros H; inversion H; subst. split; [eapply list_remove_raises; eauto|].
    split; [assumption|]. split; [reflexivity|].
    intros Hin. destruct (list_remove_present _ _ Hin) as [r Hr]. congruence.
  - intros (-> & _ & _ & Hout). rewrite (list_remove_absent _ _ Hout).
    reflexivity.
Qed.

Lemma makeMove_rights (side : bool) (b : board) (fro to : pos) (fl : flags)
      (promote : ptype) (st : state) :
  makeMove side b fro to fl promote = Ok st -> fst (snd st) <> None.
Proof.
  unfold makeMove. destruct (move _ _ _ _ _) as [nb|e]; cbn [bind]; [|discriminate].
  unfold updateFlags. destruct (fst fl); cbn [bind]; [|discriminate].
  intros H; inversion H; subst. cbn. discriminate.
Qed.

Lemma makeMove_raises_iff (side : bool) (b : board) (fro to : pos) (fl : flags)
      (promote : ptype) (e : exn) :
  fst fl <> None ->
  (makeMove side b fro to fl promote = Raise e <->
   move side b fro to promote = Raise e).
Proof.
  intros Hfl. unfold makeMove. rewrite copy_id.
  destruct (move _ _ _ _ _) as [nb|e']; cbn [bind];
    [|split; intros H; inversion H; reflexivity].
  unfold updateFlags. destruct (fst fl); [|congruence]. cbn [bind].
  split; discriminate.
Qed.

Lemma replay_rights (moves : list pystr) (st st' : state) :
  fst (snd st) <> None -> replay st moves = Ok st' -> fst (snd st') <> None.
Proof.
  revert st. induction moves as [|m rest IH]; intros st Hst; simpl.
  - intros H; inversion H; subst. assumption.
  - destruct (decode m) as [[[fro to] promote]|e]; cbn [bind]; [|discriminate].
    destruct st as [[side b] fl].
    destruct (makeMove side b fro to fl promote) as [st1|e] eqn:Hm;
      cbn [bind]; [|discriminate].
    apply IH. eapply makeMove_rights; eauto.
Qed.

Lemma replay_app (st : state) (pre post : list pystr) :
  replay st (pre ++ post) = do st' <- replay st pre; replay st' post.
Proof.
  revert st. induction pre as [|m pre IH]; intros st; simpl; [reflexivity|].
  destruct (decode m) as [[[fro to] promote]|e]; cbn [bind]; [|reflexivity].
  destruct st as [[side b] fl].
  destruct (makeMove side b fro to fl promote) as [st1|e]; cbn [bind];
    [apply IH | reflexivity].
Qed.

Lemma replay_raises (st : state) (moves : list pystr) (e : exn) :
  replay st moves = Raise e <->
  exists pre m post side b fl,
    moves = pre ++ m :: post
    /\ replay st pre = Ok (side, b, fl)
    /\ (decode m = Raise e
        \/ exists fro to promote,
             decode m = Ok (fro, to, promote)
             /\ makeMove side b fro to fl promote = Raise e).
Proof.
  split.
  - revert st. induction moves as [|m rest IH]; intros st; simpl; [discriminate|].
    destruct st as [[side b] fl].
    destruct (decode m) as [[[fro to] promote]|e'] eqn:Hd; cbn [bind].
    + destruct (makeMove side b fro to fl promote) as [st1|e'] eqn:Hm;
        cbn [bind].
      * intros H. destruct (IH st1 H) as (pre & m' & post & s' & b' & fl' & E & Hr & Hb).
        exists (m :: pre), m', post, s', b', fl'. split; [simpl; congruence|].
        split; [|exact Hb]. simpl. rewrite Hd. cbn [bind]. rewrite Hm. exact Hr.
      * intros H; inversion H; subst.
        exists [], m, rest, side, b, fl. split; [reflexivity|].
        split; [reflexivity|]. right. exists fro, to, promote. auto.
    + intros H; inversion H; subst.
      exists [], m, rest, side, b, fl. split; [reflexivity|].
      split; [reflexivity|]. left. assumption.
  - intros (pre & m & post & side & b & fl & -> & Hr & Hb).
    rewrite replay_app, Hr. cbn [bind]. simpl.
    destruct Hb as [->|(fro & to & promote & -> & Hm)]; cbn [bind];
      [reflexivity|].
    rewrite Hm. reflexivity.
Qed.

Lemma char_at_raises (data : pystr) (i : nat) (e : exn) :
  char_at data i = Raise e -> e = IndexError.
Proof.
  unfold char_at. destruct (nth_error (codepoints data) i); [discriminate|].
  intros H; inversion H; reflexivity.
Qed.

Lemma list_index_raises (l : list pystr) (s : pystr) (i : Z) (e : exn) :
  list_index l s i = Raise e -> e = ValueError.
Proof.
  revert i. induction l as [|h t IH]; simpl; intros i.
  - intros H; inversion H; reflexivity.
  - destruct (pystr_eqb h s); [discriminate|apply IH].
Qed.

Lemma int_of_char_raises (c : N) (e : exn) :
  int_of_char c = Raise e -> e = ValueError.
Proof.
  unfold int_of_char. destruct (decimal c); [discriminate|].
  intros H; inversion H; reflexivity.
Qed.

Lemma decode_raises (data : pystr) (e : exn) :
  decode data = Raise e -> e = IndexError \/ e = ValueError.
Proof.
  unfold decode.
  repeat match goal with
  | |- bind (char_at ?d ?i) _ = _ -> _ =>
      let H := fresh in
      destruct (char_at d i) eqn:H; cbn [bind];
      [|intros H'; inversion H'; subst; left; eapply char_at_raises; eauto]
  | |- bind (list_index ?l ?s ?i) _ = _ -> _ =>
      let H := fresh in
      destruct (list_index l s i) eqn:H; cbn [bind];
      [|intros H'; inversion H'; subst; right; eapply list_index_raises; eauto]
  | |- bind (int_of_char ?c) _ = _ -> _ =>
      let H := fresh in
      destruct (int_of_char c) eqn:H; cbn [bind];
      [|intros H'; inversion H'; subst; right; eapply int_of_char_raises; eauto]
  end.
  destruct (Nat.eqb _ _); [|discriminate].
  destruct (char_at data 4) eqn:Hlast; cbn [bind]; [discriminate|].
  intros H'; inversion H'; subst. left. eapply char_at_raises; eauto.
Qed.

(** C9, as the code has it.  [convertMoves] never consults the legality
    filter.  It raises exactly when some stored move, reached after the
    moves before it were applied, fails to decode (IndexError for fewer than
    four characters, ValueError for a file letter outside a..h or a rank that
    is not a digit) or makes [makeMove] raise, which happens only for a pawn
    that leaves the rank [4 + side] for another file and an empty square with
    no opposing pawn beside its origin (ValueError of [list.remove]).  In
    every other case, legal moves or not, it returns a state. *)
Theorem replay_fails_iff_raises (moves : list pystr) :
  (forall e, convertMoves moves = Raise e <-> exists pre, breaks_at moves pre e)
  /\ (forall e, convertMoves moves = Raise e ->
                e = IndexError \/ e = ValueError)
  /\ (forall pre m post side b fl fro to promote e,
         moves = pre ++ m :: post ->
         replay initBoardVars pre = Ok (side, b, fl) ->
         decode m = Ok (fro, to, promote) ->
         (makeMove side b fro to fl promote = Raise e <->
          e = ValueError
          /\ getType side b fro = kP
          /\ ALLOWENP side b fro to = true
          /\ ~ In (mkPiece (fst to) (snd fro) kP)
                  (removeAt to (pieces b (negb side)))))
  /\ ((exists st, convertMoves moves = Ok st)
      \/ exists e pre, breaks_at moves pre e).
Proof.
  assert (H1 : forall e,
             convertMoves moves = Raise e <-> exists pre, breaks_at moves pre e).
  { intros e. unfold convertMoves, breaks_at. rewrite replay_raises.
    split.
    - intros (pre & m & post & side & b & fl & H). exists pre, m, post, side, b, fl.
      exact H.
    - intros (pre & m & post & side & b & fl & H). exists pre, m, post, side, b, fl.
      exact H. }
  assert (H3 : forall pre side b fl fro to promote e,
             replay initBoardVars pre = Ok (side, b, fl) ->
             (makeMove side b fro to fl promote = Raise e <->
              e = ValueError
              /\ getType side b fro = kP
              /\ ALLOWENP side b fro to = true
              /\ ~ In (mkPiece (fst to) (snd fro) kP)
                      (removeAt to (pieces b (negb side))))).
  { intros pre side b fl fro to promote e Hr.
    rewrite makeMove_raises_iff.
    - apply move_raises_iff.
    - apply (replay_rights pre initBoardVars (side, b, fl)); [|exact Hr].
      cbn. discriminate. }
  split; [exact H1|]. split; [|split].
  - intros e He. apply H1 in He.
    destruct He as (pre & m & post & side & b & fl & _ & Hr & [Hd|Hm]).
    + eapply decode_raises; eauto.
    + destruct Hm as (fro & to & promote & _ & Hm).
      apply (H3 pre) in Hm; [|exact Hr]. right. tauto.
  - intros pre m post side b fl fro to promote e _ Hr _. apply (H3 pre). exact Hr.
  - destruct (convertMoves moves) as [st|e] eqn:Hc; [left; eauto|].
    right. exists e. apply H1. reflexivity.
Qed.

(** C9 as stated fails: the single stored move e2e5, a three-square pawn
    advance that [isValidMove] does not accept in the initial position, is
    replayed without any error. *)
Lemma replay_accepts_illegal_move : ~ replay_rejects ["e2e5"].
Proof.
  unfold replay_rejects. intros H.
  assert (Hill : exists pre, illegal_at ["e2e5"] pre).
  { exists []. exists "e2e5", [], false, initBoard, initFlags, (5, 7), (5, 4), None.
    split; [reflexivity|]. split; [reflexivity|]. split; [reflexivity|].
    vm_compute. discriminate. }
  destruct (H Hill) as [e He]. vm_compute in He. discriminate.
Qed.

(** ** Castling candidates *)

(** The king's one-step test of the castling block cannot raise: its origin
    is on the rank 8 or 1, never on the rank [4 + side]. *)
Lemma moveTest_home (i : nat) (b : board) :
  (i < 4)%nat ->
  exists r, moveTest (rightSide i) b (kingHome i) (castlePass i) = Ok r.
Proof.
  intros Hi. unfold moveTest.
  destruct (move _ _ _ _ _) as [nb|e] eqn:Hm; cbn [bind].
  - destruct (isChecked _ nb) as [[|]|]; eauto.
  - exfalso. apply move_raises_iff in Hm. destruct Hm as (_ & _ & Ha & _).
    unfold ALLOWENP in Ha.
    destruct i as [|[|[|[|i]]]]; [| | | |lia]; cbn in Ha; discriminate.
Qed.

Lemma castleTry_yields (flag empty : bool) (r : bool) (dest : pos) :
  castleTry flag empty (Ok r) dest
  = (if flag && empty && r then [dest] else [], None).
Proof.
  unfold castleTry. destruct (flag && empty); [|reflexivity].
  destruct r; reflexivity.
Qed.

(** The castling block written out: one optional candidate per right. *)
Lemma castlingMoves_eq (side : bool) (b : board) (c : castle) :
  isChecked side b <> Some true ->
  exists r0 r1 r2 r3,
    moveTest false b (5, 8) (4, 8) = Ok r0
    /\ moveTest false b (5, 8) (6, 8) = Ok r1
    /\ moveTest true b (5, 1) (4, 1) = Ok r2
    /\ moveTest true b (5, 1) (6, 1) = Ok r3
    /\ castlingMoves side b (Some c)
       = ((if c0 c && isEmpty b [(2, 8); (3, 8); (4, 8)] && r0
           then [(3, 8)] else [])
          ++ (if c1 c && isEmpty b [(6, 8); (7, 8)] && r1
              then [(7, 8)] else [])
          ++ (if c2 c && isEmpty b [(2, 1); (3, 1); (4, 1)] && r2
              then [(3, 1)] else [])
          ++ (if c3 c && isEmpty b [(6, 1); (7, 1)] && r3
              then [(7, 1)] else []), None).
Proof.
  intros Hc.
  destruct (moveTest_home 0 b) as [r0 H0]; [lia|].
  destruct (moveTest_home 1 b) as [r1 H1]; [lia|].
  destruct (moveTest_home 2 b) as [r2 H2]; [lia|].
  destruct (moveTest_home 3 b) as [r3 H3]; [lia|].
  cbn in H0, H1, H2, H3.
  exists r0, r1, r2, r3. repeat (split; [assumption|]).
  unfold castlingMoves.
  destruct (isChecked side b) as [[|]|]; [congruence| |];
    rewrite H0, H1, H2, H3, !castleTry_yields;
    unfold gen_seq; cbn [fst snd]; reflexivity.
Qed.

Lemma castlingMoves_checked (side : bool) (b : board) (rights : option castle) :
  isChecked side b = Some true -> castlingMoves side b rights = ([], None).
Proof.
  intros H. unfold castlingMoves. destruct rights; [|reflexivity].
  rewrite H. reflexivity.
Qed.

Lemma castlingMoves_no_raise (side : bool) (b : board) (rights : option castle) :
  snd (castlingMoves side b rights) = None.
Proof.
  destruct rights as [c|]; [|reflexivity].
  destruct (isChecked side b) as [[|]|] eqn:Hc.
  - rewrite castlingMoves_checked by assumption. reflexivity.
  - destruct (castlingMoves_eq side b c) as (r0 & r1 & r2 & r3 & _ & _ & _ & _ & ->);
      [congruence | reflexivity].
  - destruct (castlingMoves_eq side b c) as (r0 & r1 & r2 & r3 & _ & _ & _ & _ & ->);
      [congruence | reflexivity].
Qed.

(** [rawMoves] never raises, and yields the castling candidates first. *)
Lemma rawMoves_eq (side : bool) (b : board) (p : piece) (fl : flags) :
  rawMoves side b p fl
  = ((if ptype_eqb (pt p) kK then fst (castlingMoves side b (fst fl)) else [])
     ++ rawMovesBase side b p (snd fl), None).
Proof.
  unfold rawMoves, gen_seq, gen_done.
  destruct (ptype_eqb (pt p) kK); [|reflexivity].
  rewrite castlingMoves_no_raise. reflexivity.
Qed.

(** A square is yielded by the castling block exactly when it is the
    destination of a right whose conditions all hold. *)
Lemma castlingMoves_In (side : bool) (b : board) (fl : flags) (dest : pos) :
  In dest (fst (castlingMoves side b (fst fl))) <->
  exists i, (i < 4)%nat
            /\ dest = castleDest i
            /\ fst fl <> None
            /\ right i fl = true
            /\ isEmpty b (castleBetween i) = true
            /\ isChecked side b <> Some true
            /\ moveTest (rightSide i) b (kingHome i) (castlePass i)
               = Ok true.
Proof.
  unfold right. destruct (fst fl) as [c|].
  2:{ cbn. split; [tauto|]. intros (i & _ & _ & H & _). congruence. }
  destruct (isChecked side b) as [[|]|] eqn:Hc.
  { rewrite castlingMoves_checked by assumption. cbn. split; [tauto|].
    intros (i & _ & _ & _ & _ & _ & H & _). congruence. }
  all: destruct (castlingMoves_eq side b c)
    as (r0 & r1 & r2 & r3 & H0 & H1 & H2 & H3 & ->); [congruence|].
  all: cbn [fst]; rewrite !in_app_iff; split.
  all: try (intros [H|[H|[H|H]]];
    [exists 0%nat | exists 1%nat | exists 2%nat | exists 3%nat];
    cbn [castleDest castleBetween castlePass kingHome rightSide castleFlag
         Nat.leb];
    match type of H with
    | In _ (if ?c then _ else _) =>
        destruct c eqn:E; [|destruct H];
        destruct H as [<-|[]];
        apply andb_true_iff in E; destruct E as [E Er];
        apply andb_true_iff in E; destruct E as [Ef Ee]; subst
    end;
    repeat split; try lia; try assumption; try discriminate).
  all: intros (i & Hi & -> & _ & Hf & He & _ & Hm).
  all: destruct i as [|[|[|[|i]]]]; [| | | |lia];
    cbn [castleDest castleBetween castlePass kingHome rightSide castleFlag
         Nat.leb] in *;
    rewrite Hf, He; cbn [andb].
  all: try (rewrite H0 in Hm; inversion Hm; subst; left; simpl; auto; fail).
  all: try (rewrite H1 in Hm; inversion Hm; subst; right; left; simpl; auto; fail).
  all: try (rewrite H2 in Hm; inversion Hm; subst; right; right; left;
            simpl; auto; fail).
  all: try (rewrite H3 in Hm; inversion Hm; subst; right; right; right;
            simpl; auto; fail).
Qed.


(** The castling block does not look at the side: when the moves of side 1's
    king are generated, the candidates of side 0's rights are yielded too. *)
Lemma castling_block_ignores_side :
  In (7, 8)
     (fst (rawMoves true
             (mkBoard [mkPiece 5 8 kK; mkPiece 8 8 kR] [mkPiece 5 1 kK])
             (mkPiece 5 1 kK)
             (Some (mkCastle false true false false), None))).
Proof. vm_compute. auto. Qed.

(** ** Legality filter *)

Lemma availableLoop_sound (side : bool) (b : board) (fro : pos)
      (dests : list pos) (ending : option exn) (dest : pos) :
  In dest (fst (availableLoop side b fro dests ending)) ->
  In dest dests
  /\ in_bounds dest = true
  /\ isOccupied side b dest = false
  /\ moveTest side b fro dest = Ok true.
Proof.
  induction dests as [|d rest IH]; simpl; [tauto|].
  destruct (in_bounds d && negb (isOccupied side b d)) eqn:Hg.
  - destruct (moveTest side b fro d) as [[|]|e] eqn:Hm; cbn [fst].
    + intros [<-|H].
      * apply andb_true_iff in Hg. destruct Hg as [Hb Ho].
        apply negb_true_iff in Ho. auto.
      * destruct (IH H) as (H1 & H2); auto.
    + intros H. destruct (IH H) as (H1 & H2); auto.
    + intros [].
  - intros H. destruct (IH H) as (H1 & H2); auto.
Qed.

Lemma in_bounds_iff (sq : pos) :
  in_bounds sq = true <-> 1 <= fst sq <= 8 /\ 1 <= snd sq <= 8.
Proof.
  unfold in_bounds. rewrite !andb_true_iff, !Z.ltb_lt. lia.
Qed.

Lemma moveTest_true (side : bool) (b : board) (fro to : pos) :
  moveTest side b fro to = Ok true <->
  exists nb, move side (copy b) fro to kP = Ok nb
             /\ isChecked side nb <> Some true.
Proof.
  unfold moveTest. destruct (move _ _ _ _ _) as [nb|e]; cbn [bind].
  - split.
    + intros H. exists nb. split; [reflexivity|].
      destruct (isChecked side nb) as [[|]|]; congruence.
    + intros (nb' & E & H). inversion E; subst.
      destruct (isChecked side nb') as [[|]|]; congruence.
  - split; [discriminate|]. intros (nb & E & _). discriminate.
Qed.



(** ** Counting pieces *)

Lemma countAt_cons (sq : pos) (p : piece) (l : list piece) :
  countAt sq (p :: l)
  = ((if at_pos sq p then 1 else 0) + countAt sq l)%nat.
Proof. unfold countAt; simpl. destruct (at_pos sq p); reflexivity. Qed.

Lemma countAt_app (sq : pos) (l l' : list piece) :
  countAt sq (l ++ l') = (countAt sq l + countAt sq l')%nat.
Proof. unfold countAt. rewrite filter_app, length_app. reflexivity. Qed.

Lemma countAt_zero (sq : pos) (l : list piece) :
  countAt sq l = 0%nat <-> forall p, In p l -> ppos p <> sq.
Proof.
  induction l as [|q l IH]; [simpl; split; [intros _ p []|reflexivity]|].
  rewrite countAt_cons. destruct (at_pos sq q) eqn:E.
  - split; [discriminate|]. intros H. apply at_pos_true in E.
    exfalso. apply (H q); simpl; auto.
  - simpl. rewrite IH. split.
    + intros H p [<-|Hp]; [|auto]. intros Hq. apply at_pos_true in Hq. congruence.
    + intros H p Hp. apply H. simpl; auto.
Qed.

Lemma countAt_pos_In (sq : pos) (l : list piece) (p : piece) :
  In p l -> ppos p = sq -> (1 <= countAt sq l)%nat.
Proof.
  intros Hp Hs. destruct (countAt sq l) eqn:E; [|lia].
  rewrite countAt_zero in E. exfalso. eapply E; eauto.
Qed.

Lemma countAt_removeAt_le (sq sq' : pos) (l : list piece) :
  (countAt sq' (removeAt sq l) <= countAt sq' l)%nat.
Proof.
  induction l as [|q l IH]; simpl; [lia|].
  destruct (at_pos sq q); rewrite !countAt_cons; [lia|].
  destruct (at_pos sq' q); lia.
Qed.

Lemma countAt_removeAt_same (sq : pos) (l : list piece) :
  countAt sq (removeAt sq l) = pred (countAt sq l).
Proof.
  induction l as [|q l IH]; simpl; [reflexivity|].
  destruct (at_pos sq q) eqn:E; rewrite !countAt_cons, ?E; simpl; auto.
Qed.

Lemma countAt_list_remove_le (x : piece) (l r : list piece) (sq : pos) :
  list_remove x l = Ok r -> (countAt sq r <= countAt sq l)%nat.
Proof.
  revert r. induction l as [|q l IH]; simpl; intros r; [discriminate|].
  destruct (piece_eqb q x).
  - intros H; inversion H; subst. rewrite countAt_cons. lia.
  - destruct (list_remove x l) as [r'|e]; cbn [bind]; [|discriminate].
    intros H; inversion H; subst. rewrite !countAt_cons.
    specialize (IH r' eq_refl). lia.
Qed.

Lemma at_pos_mk (sq to : pos) (t : ptype) :
  at_pos sq (mkPiece (fst to) (snd to) t) = pos_eqb to sq.
Proof. unfold at_pos, ppos; simpl. destruct to; reflexivity. Qed.

Lemma countAt_relocate (fro to sq : pos) (l : list piece) (q : piece) :
  find (at_pos fro) l = Some q ->
  (countAt sq (relocate fro to l) + (if pos_eqb fro sq then 1 else 0)
   = countAt sq l + (if pos_eqb to sq then 1 else 0))%nat.
Proof.
  induction l as [|p l IH]; simpl; [discriminate|].
  destruct (at_pos fro p) eqn:E.
  - intros _. rewrite !countAt_cons, at_pos_mk.
    apply at_pos_true in E.
    assert (Ep : at_pos sq p = pos_eqb fro sq) by (unfold at_pos; rewrite E; reflexivity).
    rewrite Ep. destruct (pos_eqb to sq), (pos_eqb fro sq); lia.
  - intros H. rewrite !countAt_cons. specialize (IH H). lia.
Qed.

Lemma kingsIn_cons (p : piece) (l : list piece) :
  kingsIn (p :: l) = ((if is_king p then 1 else 0) + kingsIn l)%nat.
Proof. unfold kingsIn; simpl. destruct (is_king p); reflexivity. Qed.

Lemma kingsIn_app (l l' : list piece) :
  kingsIn (l ++ l') = (kingsIn l + kingsIn l')%nat.
Proof. unfold kingsIn. rewrite filter_app, length_app. reflexivity. Qed.

Lemma kingsIn_relocate (fro to : pos) (l : list piece) :
  kingsIn (relocate fro to l) = kingsIn l.
Proof.
  induction l as [|p l IH]; simpl; [reflexivity|].
  destruct (at_pos fro p); rewrite !kingsIn_cons; [reflexivity|].
  rewrite IH. reflexivity.
Qed.

Lemma kingsIn_removeAt (sq : pos) (l : list piece) :
  (forall k, In k l -> ppos k = sq -> pt k <> kK) ->
  kingsIn (removeAt sq l) = kingsIn l.
Proof.
  induction l as [|p l IH]; simpl; [reflexivity|]. intros H.
  destruct (at_pos sq p) eqn:E; rewrite !kingsIn_cons.
  - apply at_pos_true in E. unfold is_king.
    rewrite (proj2 (ptype_eqb_neq _ _) (H p (or_introl eq_refl) E)).
    reflexivity.
  - rewrite IH; [reflexivity|]. intros k Hk. apply H. simpl; auto.
Qed.

Lemma kingsIn_list_remove (x : piece) (l r : list piece) :
  pt x <> kK -> list_remove x l = Ok r -> kingsIn r = kingsIn l.
Proof.
  intros Hx. revert r. induction l as [|q l IH]; simpl; intros r; [discriminate|].
  destruct (piece_eqb q x) eqn:E.
  - intros H; inversion H; subst. rewrite kingsIn_cons.
    apply piece_eqb_eq in E. subst q. unfold is_king.
    rewrite (proj2 (ptype_eqb_neq _ _) Hx). reflexivity.
  - destruct (list_remove x l) as [r'|e]; cbn [bind]; [|discriminate].
    intros H; inversion H; subst. rewrite !kingsIn_cons, (IH r' eq_refl).
    reflexivity.
Qed.

Lemma find_is_king_Some (l : list piece) (k : piece) :
  find is_king l = Some k -> In k l /\ pt k = kK.
Proof.
  intros H. apply find_some in H. destruct H as [H1 H2].
  apply ptype_eqb_eq in H2. auto.
Qed.

Lemma kingsIn_pos_find (l : list piece) :
  (1 <= kingsIn l)%nat -> exists k, find is_king l = Some k.
Proof.
  induction l as [|p l IH]; simpl; [unfold kingsIn; simpl; lia|].
  rewrite kingsIn_cons. destruct (is_king p); [eauto|]. simpl. exact IH.
Qed.

Lemma kingsIn_In (l : list piece) (k : piece) :
  In k l -> pt k = kK -> (1 <= kingsIn l)%nat.
Proof.
  induction l as [|p l IH]; simpl; [tauto|]. rewrite kingsIn_cons.
  intros [->|H] Hk.
  - unfold is_king. rewrite Hk. simpl. lia.
  - specialize (IH H Hk). lia.
Qed.

(** With one king in a list, any two kings found in it are the same. *)
Lemma king_unique (l : list piece) (k k' : piece) :
  kingsIn l = 1%nat -> In k l -> In k' l -> pt k = kK -> pt k' = kK -> k = k'.
Proof.
  induction l as [|p l IH]; simpl; [tauto|]. rewrite kingsIn_cons.
  intros Hc Hk Hk' Ht Ht'.
  destruct (is_king p) eqn:Ep.
  - assert (Hz : kingsIn l = 0%nat) by lia.
    assert (Hno : forall x, In x l -> pt x = kK -> False).
    { intros x Hx Hxt. pose proof (kingsIn_In l x Hx Hxt). lia. }
    destruct Hk as [<-|Hk]; [|exfalso; eauto].
    destruct Hk' as [<-|Hk']; [reflexivity|exfalso; eauto].
  - unfold is_king in Ep. apply ptype_eqb_neq in Ep.
    destruct Hk as [<-|Hk]; [congruence|].
    destruct Hk' as [<-|Hk']; [congruence|].
    apply IH; auto.
Qed.

(** ** The relocation step *)

Lemma shift_opp (side : bool) (b : board) (fro to : pos) :
  pieces (shift side b fro to) (negb side) = removeAt to (pieces b (negb side)).
Proof. unfold shift. rewrite slide_other, capture_other. reflexivity. Qed.

Lemma shift_own (side : bool) (b : board) (fro to : pos) :
  pieces (shift side b fro to) side = relocate fro to (pieces b side).
Proof. unfold shift. rewrite slide_same, capture_same. reflexivity. Qed.

Lemma In_removeAt_keep (sq : pos) (l : list piece) (x : piece) :
  In x l -> ppos x <> sq -> In x (removeAt sq l).
Proof.
  induction l as [|p l IH]; simpl; [tauto|].
  intros [->|H] Hx.
  - destruct (at_pos sq x) eqn:E; [apply at_pos_true in E; congruence|].
    simpl; auto.
  - destruct (at_pos sq p); [assumption|]. simpl; auto.
Qed.

Lemma In_relocate_keep (fro to : pos) (l : list piece) (x : piece) :
  In x l -> ppos x <> fro -> In x (relocate fro to l).
Proof.
  induction l as [|p l IH]; simpl; [tauto|].
  intros [->|H] Hx.
  - destruct (at_pos fro x) eqn:E; [apply at_pos_true in E; congruence|].
    simpl; auto.
  - destruct (at_pos fro p); simpl; auto.
Qed.

Lemma countAt_occupancy (side : bool) (b : board) (sq : pos) :
  occupancy b sq
  = (countAt sq (pieces b side) + countAt sq (pieces b (negb side)))%nat.
Proof. unfold occupancy. destruct side; simpl; lia. Qed.

(** The relocation step keeps at most one piece a square when no piece of
    the mover stands on [to]. *)
Lemma shift_occupancy (side : bool) (b : board) (fro to : pos) :
  (forall sq, (occupancy b sq <= 1)%nat) ->
  countAt to (pieces b side) = 0%nat ->
  forall sq, (occupancy (shift side b fro to) sq <= 1)%nat.
Proof.
  intros Hocc Hto sq.
  rewrite (countAt_occupancy side), shift_own, shift_opp.
  pose proof (Hocc sq) as Hsq. rewrite (countAt_occupancy side) in Hsq.
  pose proof (countAt_removeAt_le to sq (pieces b (negb side))) as Hle.
  destruct (find (at_pos fro) (pieces b side)) as [q|] eqn:Hf.
  2:{ rewrite relocate_absent by assumption. lia. }
  pose proof (countAt_relocate fro to sq _ q Hf) as Hrel.
  destruct (pos_eqb to sq) eqn:Et.
  - apply pos_eqb_eq in Et. subst sq.
    rewrite countAt_removeAt_same. rewrite Hto in *.
    destruct (pos_eqb fro to); lia.
  - destruct (pos_eqb fro sq); lia.
Qed.

Lemma shift_kings_own (side : bool) (b : board) (fro to : pos) :
  kings (shift side b fro to) side = kings b side.
Proof. unfold kings. rewrite shift_own. apply kingsIn_relocate. Qed.

Lemma shift_kings_opp (side : bool) (b : board) (fro to : pos) :
  (forall k, In k (pieces b (negb side)) -> ppos k = to -> pt k <> kK) ->
  kings (shift side b fro to) (negb side) = kings b (negb side).
Proof. intros H. unfold kings. rewrite shift_opp. apply kingsIn_removeAt, H. Qed.

Lemma typed_pieces (b : board) (side : bool) :
  typed b <->
  (forall p, In p (pieces b side) -> pt p <> None)
  /\ (forall p, In p (pieces b (negb side)) -> pt p <> None).
Proof.
  unfold typed. split.
  - intros H. split; intros p; apply H.
  - intros [H1 H2] s p. destruct side, s; simpl in *; auto.
Qed.

Lemma shift_typed (side : bool) (b : board) (fro to : pos) :
  typed b -> typed (shift side b fro to).
Proof.
  intros H. apply (typed_pieces _ side). apply (typed_pieces _ side) in H.
  destruct H as [H1 H2]. rewrite shift_own, shift_opp. split.
  - intros p Hp. apply relocate_In in Hp.
    destruct Hp as [Hp|(q & Hq & _ & ->)]; [auto | simpl; auto].
  - intros p Hp. apply H2. eapply removeAt_In; eauto.
Qed.

Lemma kings_side (side : bool) (b : board) :
  kings b false = 1%nat /\ kings b true = 1%nat <->
  kings b side = 1%nat /\ kings b (negb side) = 1%nat.
Proof. destruct side; simpl; tauto. Qed.

(** The relocation step keeps a board well formed when no piece of the
    mover stands on [to] and no opposing king does. *)
Lemma shift_wf (side : bool) (b : board) (fro to : pos) :
  wf_board b ->
  countAt to (pieces b side) = 0%nat ->
  (forall k, In k (pieces b (negb side)) -> ppos k = to -> pt k <> kK) ->
  wf_board (shift side b fro to).
Proof.
  intros (Hocc & Hk0 & Hk1 & Ht) Hto Hnk.
  assert (Hk : kings b side = 1%nat /\ kings b (negb side) = 1%nat)
    by (apply kings_side; auto).
  split; [apply shift_occupancy; assumption|].
  assert (Hk' : kings (shift side b fro to) false = 1%nat
                /\ kings (shift side b fro to) true = 1%nat).
  { apply (kings_side side).
    rewrite shift_kings_own, shift_kings_opp by assumption. exact Hk. }
  destruct Hk' as [Hk0' Hk1'].
  repeat split; try assumption. apply shift_typed; assumption.
Qed.

(** ** Promotion *)





(** [move] has its own default, ["p"]: called without [promote], as
    [moveTest] and the castling calls do, it leaves a pawn on the last
    rank. [makeMove] always passes its own [promote]. *)
Lemma move_default_keeps_pawn :
  move false (mkBoard [mkPiece 1 2 kP] []) (1, 2) (1, 1) kP
  = Ok (mkBoard [mkPiece 1 1 kP] []).
Proof. reflexivity. Qed.

(** ** Occupancy tests on a typed board *)

Lemma countAt_zero_find (sq : pos) (l : list piece) :
  countAt sq l = 0%nat <-> find (at_pos sq) l = None.
Proof. rewrite countAt_zero, find_at_pos_None. tauto. Qed.

Lemma isOccupied_false_count (s : bool) (b : board) (sq : pos) :
  typed b -> isOccupied s b sq = false -> countAt sq (pieces b s) = 0%nat.
Proof.
  intros Ht. unfold isOccupied, getType.
  destruct (find (at_pos sq) (pieces b s)) as [p|] eqn:Hf.
  - destruct (find_at_pos_Some _ _ _ Hf) as [Hp _].
    pose proof (Ht s p Hp). destruct (pt p); [discriminate|congruence].
  - intros _. apply countAt_zero_find. assumption.
Qed.

Lemma isOccupied_true_In (s : bool) (b : board) (sq : pos) (p : piece) :
  typed b -> In p (pieces b s) -> ppos p = sq -> isOccupied s b sq = true.
Proof.
  intros Ht Hp Hs. unfold isOccupied, getType.
  destruct (find (at_pos sq) (pieces b s)) as [q|] eqn:Hf.
  - destruct (find_at_pos_Some _ _ _ Hf) as [Hq _].
    pose proof (Ht s q Hq). destruct (pt q); [reflexivity|congruence].
  - rewrite find_at_pos_None in Hf. exfalso. eapply Hf; eauto.
Qed.

Lemma isEmpty_In (b : board) (l : list pos) (sq : pos) :
  isEmpty b l = true -> In sq l ->
  isOccupied false b sq = false /\ isOccupied true b sq = false.
Proof.
  unfold isEmpty. rewrite forallb_forall. intros H Hin.
  specialize (H sq Hin). apply andb_true_iff in H. destruct H as [H0 H1].
  apply negb_true_iff in H0, H1. auto.
Qed.

Lemma isEmpty_no_piece (b : board) (l : list pos) (sq : pos) (s : bool) :
  typed b -> isEmpty b l = true -> In sq l ->
  countAt sq (pieces b s) = 0%nat.
Proof.
  intros Ht He Hin. destruct (isEmpty_In b l sq He Hin) as [H0 H1].
  destruct s; apply isOccupied_false_count; assumption.
Qed.

Lemma isEmpty_single (b : board) (sq : pos) :
  isEmpty b [sq] = negb (isOccupied false b sq) && negb (isOccupied true b sq).
Proof. unfold isEmpty; simpl. rewrite andb_true_r. reflexivity. Qed.

(** ** What a valid move is *)

Lemma piece_eta (q : piece) (sq : pos) :
  ppos q = sq -> mkPiece (fst sq) (snd sq) (pt q) = q.
Proof. intros <-. destruct q; reflexivity. Qed.

Lemma rawMovesBase_untyped (side : bool) (b : board) (x y : Z) (enp : option pos) :
  rawMovesBase side b (mkPiece x y None) enp = [].
Proof. reflexivity. Qed.

Lemma isValidMove_true (side : bool) (b : board) (fl : flags) (fro to : pos) :
  isValidMove side b fl fro to = Ok (Some true) ->
  in_bounds to = true
  /\ isOccupied side b to = false
  /\ moveTest side b fro to = Ok true
  /\ exists q, find (at_pos fro) (pieces b side) = Some q
               /\ pt q <> None
               /\ In to (fst (rawMoves side b q fl)).
Proof.
  unfold isValidMove.
  destruct (in_bounds to && negb (isOccupied side b to)) eqn:Hg; [|discriminate].
  apply andb_true_iff in Hg. destruct Hg as [Hb Ho]. apply negb_true_iff in Ho.
  unfold gen_in. rewrite rawMoves_eq. cbn [fst snd].
  destruct (pos_in to _) eqn:Hin; cbn [bind]; [|discriminate].
  destruct (moveTest side b fro to) as [r|e] eqn:Hm; cbn [bind]; [|discriminate].
  intros H. inversion H; subst r. repeat (split; [assumption|]).
  split; [reflexivity|].
  apply pos_in_In in Hin. unfold getType in Hin.
  destruct (find (at_pos fro) (pieces b side)) as [q|] eqn:Hf.
  - exists q. destruct (find_at_pos_Some _ _ _ Hf) as [_ Hq].
    rewrite (piece_eta q fro Hq) in Hin. split; [reflexivity|].
    split; [|rewrite rawMoves_eq; exact Hin].
    intros Hn. destruct q as [qx qy qt]. simpl in Hn. subst qt.
    simpl in Hin. destruct Hin.
  - simpl in Hin. destruct Hin.
Qed.

(** ** Promotion and en passant on a well-formed board *)

Lemma countAt_list_remove (x : piece) (l r : list piece) (sq : pos) :
  list_remove x l = Ok r ->
  (countAt sq r + (if at_pos sq x then 1 else 0) = countAt sq l)%nat.
Proof.
  revert r. induction l as [|q l IH]; simpl; intros r; [discriminate|].
  destruct (piece_eqb q x) eqn:E.
  - intros H; inversion H; subst. apply piece_eqb_eq in E. subst q.
    rewrite countAt_cons. lia.
  - destruct (list_remove x l) as [r'|e]; cbn [bind]; [|discriminate].
    intros H; inversion H; subst. rewrite !countAt_cons.
    specialize (IH r' eq_refl). lia.
Qed.

Lemma wf_board_side (side : bool) (b : board) :
  wf_board b <->
  (forall sq, (occupancy b sq <= 1)%nat)
  /\ kings b side = 1%nat /\ kings b (negb side) = 1%nat
  /\ (forall p, In p (pieces b side) -> pt p <> None)
  /\ (forall p, In p (pieces b (negb side)) -> pt p <> None).
Proof.
  unfold wf_board. rewrite (typed_pieces b side).
  pose proof (kings_side side b). tauto.
Qed.

Lemma pawn_not_king (x y : Z) : pt (mkPiece x y kP) <> kK.
Proof. simpl. discriminate. Qed.

Lemma promotion_wf (side : bool) (b b1 : board) (to : pos) (promote : ptype) :
  wf_board b -> promote <> None -> promote <> kK ->
  promotion side b to kP promote = Ok b1 ->
  wf_board b1
  /\ pieces b1 (negb side) = pieces b (negb side)
  /\ (snd to <> UP side -> b1 = b).
Proof.
  intros Hwf Hn Hk. unfold promotion.
  destruct (snd to =? UP side) eqn:Eu.
  2:{ intros H; inversion H; subst. split; [assumption|].
      split; [reflexivity|]. reflexivity. }
  apply Z.eqb_eq in Eu.
  destruct (list_remove _ _) as [l|e] eqn:Hl; cbn [bind]; [|discriminate].
  intros H; inversion H; subst; clear H.
  split; [|split; [apply pieces_set_other | congruence]].
  apply (wf_board_side side) in Hwf.
  destruct Hwf as (Hocc & Hk1 & Hk2 & Ht1 & Ht2).
  apply (wf_board_side side).
  unfold kings. rewrite pieces_set_same, pieces_set_other.
  split; [|split; [|split; [|split]]].
  - intros sq. rewrite (countAt_occupancy side), pieces_set_same, pieces_set_other.
    rewrite countAt_app, countAt_cons.
    pose proof (countAt_list_remove _ _ _ sq Hl) as Hc.
    rewrite at_pos_mk in Hc.
    assert (Ea : at_pos sq (mkPiece (fst to) (UP side) promote) = pos_eqb to sq).
    { rewrite <- Eu. apply at_pos_mk. }
    rewrite Ea. specialize (Hocc sq). rewrite (countAt_occupancy side) in Hocc.
    change (countAt sq []) with 0%nat. lia.
  - rewrite kingsIn_app, kingsIn_cons.
    rewrite (kingsIn_list_remove _ _ _ (pawn_not_king _ _) Hl).
    unfold is_king; simpl pt. rewrite (proj2 (ptype_eqb_neq _ _) Hk).
    unfold kings in Hk1. change (kingsIn []) with 0%nat. simpl. lia.
  - exact Hk2.
  - intros p Hp. apply in_app_or in Hp. destruct Hp as [Hp|[<-|[]]].
    + apply Ht1. eapply list_remove_In; eauto.
    + simpl. assumption.
  - exact Ht2.
Qed.

Lemma enPassant_wf (side : bool) (b b' : board) (fro to : pos) (allow : bool) :
  wf_board b -> enPassant side b fro to allow = Ok b' ->
  wf_board b' /\ pieces b' side = pieces b side.
Proof.
  intros Hwf. unfold enPassant. destruct allow.
  2:{ intros H; inversion H; subst. auto. }
  destruct (list_remove _ _) as [l|e] eqn:Hl; cbn [bind]; [|discriminate].
  intros H; inversion H; subst; clear H.
  split; [|apply pieces_set_negb].
  apply (wf_board_side side) in Hwf.
  destruct Hwf as (Hocc & Hk1 & Hk2 & Ht1 & Ht2).
  apply (wf_board_side side).
  unfold kings. rewrite pieces_set_same, pieces_set_negb.
  split; [|split; [|split; [|split]]].
  - intros sq. rewrite (countAt_occupancy side), pieces_set_same, pieces_set_negb.
    specialize (Hocc sq). rewrite (countAt_occupancy side) in Hocc.
    pose proof (countAt_list_remove_le _ _ _ sq Hl). lia.
  - exact Hk1.
  - rewrite (kingsIn_list_remove _ _ _ (pawn_not_king _ _) Hl). exact Hk2.
  - exact Ht1.
  - intros p Hp. apply Ht2. eapply list_remove_In; eauto.
Qed.

(** ** A king that is not in check cannot be captured *)

Lemma negb_negb_pieces (b : board) (side : bool) :
  pieces b (negb (negb side)) = pieces b side.
Proof. rewrite negb_involutive. reflexivity. Qed.

Lemma rawMovesBase_enp (side : bool) (b : board) (q : piece) (enp : option pos)
      (to : pos) :
  In to (rawMovesBase side b q enp) ->
  isOccupied (negb side) b to = true ->
  In to (rawMovesBase side b q None).
Proof.
  unfold rawMovesBase. destruct (ptype_eqb (pt q) kP); [|tauto].
  unfold pawnMoves. intros H Hocc.
  destruct side; cbn [negb] in *; rewrite !in_app_iff in *;
    (destruct H as [H|[H|H]]; [auto | auto |]);
    right; right; simpl in *; rewrite !in_app_iff in *;
    repeat match type of H with
    | _ \/ _ => destruct H as [H|H]
    | In _ (if ?c then _ else _) => destruct c eqn:?; [|destruct H]
    | In _ [_] => destruct H as [H|[]]; subst
    | In _ [] => destruct H
    end;
    rewrite ?Hocc; simpl; auto.
Qed.

Lemma target_not_king (side : bool) (b : board) (q : piece) (to : pos) :
  kings b (negb side) = 1%nat ->
  isChecked (negb side) b = Some false ->
  In q (pieces b side) ->
  In to (rawMovesBase side b q None) ->
  forall k, In k (pieces b (negb side)) -> ppos k = to -> pt k <> kK.
Proof.
  intros Hk Hc Hq Hin k Hkin Hpos Hkk.
  unfold isChecked in Hc.
  destruct (find is_king (pieces b (negb side))) as [k0|] eqn:Hf; [|discriminate].
  destruct (find_is_king_Some _ _ Hf) as [Hk0 Hk0k].
  assert (k0 = k) by (apply (king_unique (pieces b (negb side))); auto).
  subst k0. inversion Hc as [He]. clear Hc.
  rewrite negb_involutive in He.
  assert (Hex : existsb (fun opp => pos_in (ppos k) (rawMovesBase side b opp None))
                        (pieces b side) = true).
  { apply existsb_exists. exists q. split; [assumption|].
    apply pos_in_In. rewrite Hpos. assumption. }
  congruence.
Qed.

(** ** Check detection looks at occupancy only *)

Lemma isEmpty_ext (b1 b2 : board) (l : list pos) :
  (forall s sq, isOccupied s b1 sq = isOccupied s b2 sq) ->
  isEmpty b1 l = isEmpty b2 l.
Proof.
  intros H. unfold isEmpty. induction l as [|sq l IH]; simpl; [reflexivity|].
  rewrite !H, IH. reflexivity.
Qed.

Lemma existsb_ext_local {A : Type} (f g : A -> bool) (l : list A) :
  (forall a, f a = g a) -> existsb f l = existsb g l.
Proof.
  intros H. induction l as [|a l IH]; simpl; [reflexivity|].
  rewrite H, IH. reflexivity.
Qed.

Lemma ray_ext (b1 b2 : board) (f : Z -> pos) (idx : list Z) :
  (forall s sq, isOccupied s b1 sq = isOccupied s b2 sq) ->
  ray b1 f idx = ray b2 f idx.
Proof.
  intros H. induction idx as [|i rest IH]; cbn [ray]; [reflexivity|].
  rewrite (isEmpty_ext b1 b2 _ H), IH. reflexivity.
Qed.

Lemma rawMovesBase_ext (b1 b2 : board) (s : bool) (p : piece) (enp : option pos) :
  (forall s sq, isOccupied s b1 sq = isOccupied s b2 sq) ->
  rawMovesBase s b1 p enp = rawMovesBase s b2 p enp.
Proof.
  intros H. unfold rawMovesBase, pawnMoves, bishopMoves, rookMoves. cbv zeta.
  rewrite !(isEmpty_ext b1 b2 _ H).
  rewrite !(ray_ext b1 b2 _ _ H).
  destruct (ptype_eqb (pt p) kP); [|reflexivity].
  destruct s; cbn [negb]; simpl flat_map; rewrite !H; reflexivity.
Qed.

Lemma find_app_last_false {A : Type} (f : A -> bool) (l : list A) (x : A) :
  f x = false -> find f (l ++ [x]) = find f l.
Proof.
  intros Hx. induction l as [|a l IH]; simpl; [rewrite Hx; reflexivity|].
  destruct (f a); auto.
Qed.

Lemma isOccupied_app_last (side s : bool) (b : board) (l : list piece)
      (x1 x2 : piece) (sq : pos) :
  ppos x1 = ppos x2 -> pt x1 <> None -> pt x2 <> None ->
  isOccupied s (setPieces b side (l ++ [x1])) sq
  = isOccupied s (setPieces b side (l ++ [x2])) sq.
Proof.
  intros Hp H1 H2. unfold isOccupied, getType.
  destruct (Bool.eqb s side) eqn:Es.
  - apply Bool.eqb_prop in Es. subst s. rewrite !pieces_set_same.
    induction l as [|a l IH]; simpl.
    + unfold at_pos. rewrite Hp. destruct (pos_eqb (ppos x2) sq); [|reflexivity].
      destruct (pt x1), (pt x2); congruence.
    + destruct (at_pos sq a); auto.
  - assert (s = negb side) by (destruct s, side; simpl in *; congruence).
    subst s. rewrite !pieces_set_other. reflexivity.
Qed.

(** The promotion type does not matter for the mover's own check test. *)
Lemma isChecked_promoted (side : bool) (b : board) (l : list piece)
      (x1 x2 : piece) :
  ppos x1 = ppos x2 ->
  pt x1 <> None -> pt x2 <> None -> pt x1 <> kK -> pt x2 <> kK ->
  isChecked side (setPieces b side (l ++ [x1]))
  = isChecked side (setPieces b side (l ++ [x2])).
Proof.
  intros Hp H1 H2 Hk1 Hk2. unfold isChecked.
  rewrite !pieces_set_same, !pieces_set_other.
  rewrite !find_app_last_false
    by (unfold is_king; apply ptype_eqb_neq; assumption).
  destruct (find is_king l) as [k|]; [|reflexivity].
  f_equal. apply existsb_ext_local. intros opp.
  rewrite (rawMovesBase_ext _ (setPieces b side (l ++ [x2]))); [reflexivity|].
  intros s sq. apply isOccupied_app_last; assumption.
Qed.

(** ** A king's move *)

Lemma move_king_cases (side : bool) (b : board) (fro to : pos) (promote : ptype)
      (q : piece) :
  find (at_pos fro) (pieces b side) = Some q -> pt q = kK ->
  move side b fro to promote
  = Ok (let b1 := shift side b fro to in
        if fst fro - fst to =? 2 then
          shift side b1 (1, DOWN side) (4, DOWN side)
        else if fst to - fst fro =? 2 then
          match find (at_pos (8, DOWN side)) (pieces b1 side) with
          | Some r =>
              if ptype_eqb (pt r) kK
              then shift side (shift side b1 (8, DOWN side) (6, DOWN side))
                         (1, DOWN side) (4, DOWN side)
              else shift side b1 (8, DOWN side) (6, DOWN side)
          | None => shift side b1 (8, DOWN side) (6, DOWN side)
          end
        else b1).
Proof.
  intros Hq Hk. unfold move. change (moveN 2) with (moveWith (moveN 1)).
  unfold moveWith. rewrite capture_same, Hq, Hk.
  change (ptype_eqb kK kK) with true. change (ptype_eqb kK kP) with false.
  cbv zeta. cbn iota. fold (shift side b fro to).
  destruct (fst fro - fst to =? 2).
  - rewrite moveN_hop_a. reflexivity.
  - destruct (fst to - fst fro =? 2); [|reflexivity].
    rewrite moveN_hop_h. cbv zeta. rewrite capture_same.
    destruct (find (at_pos (8, DOWN side)) _) as [r|];
      [destruct (ptype_eqb (pt r) kK)|]; reflexivity.
Qed.

(** ** The home rook attacks the other side's castling destination *)

Lemma vacant_isEmpty (b : board) (sq : pos) : vacant b sq -> isEmpty b [sq] = true.
Proof.
  intros H. rewrite isEmpty_single. unfold isOccupied, getType.
  assert (E : forall s, find (at_pos sq) (pieces b s) = None).
  { intros s. apply find_at_pos_None. intros p. apply H. }
  rewrite !E. reflexivity.
Qed.

Lemma shift_vacant (side : bool) (b : board) (fro to sq : pos) :
  vacant b sq -> sq <> to -> vacant (shift side b fro to) sq.
Proof.
  intros H Hne s p Hp.
  assert (Hs : s = side \/ s = negb side) by (destruct s, side; auto).
  destruct Hs as [-> | ->].
  - rewrite shift_own in Hp. apply relocate_In in Hp.
    destruct Hp as [Hp|(q & _ & _ & ->)]; [eapply H; eauto|].
    unfold ppos; simpl. destruct to; simpl. congruence.
  - rewrite shift_opp in Hp. eapply H. eapply removeAt_In; eauto.
Qed.

Lemma rook_setup_shift (i : nat) (side : bool) (b : board) (fro to : pos) :
  rook_setup i side b ->
  castleDest i <> fro -> ppos (homeRook i) <> to ->
  (forall sq, In sq (rookPath i) -> sq <> to) ->
  rook_setup i side (shift side b fro to).
Proof.
  intros (Hk & Hn & Hr & Hv) H1 H2 H3. unfold rook_setup.
  rewrite shift_kings_own, shift_own, shift_opp.
  split; [|split; [assumption|split]].
  - apply In_relocate_keep; [assumption|].
    unfold ppos; simpl. destruct (castleDest i); assumption.
  - apply In_removeAt_keep; assumption.
  - intros sq Hsq. apply shift_vacant; auto.
Qed.

Lemma rook_setup_checked (i : nat) (side : bool) (b : board) :
  (i < 4)%nat -> rightSide i = negb side ->
  rook_setup i side b -> isChecked side b = Some true.
Proof.
  intros Hi Hs (Hk & Hn & Hr & Hv). unfold isChecked.
  destruct (kingsIn_pos_find (pieces b side)) as [k Hf];
    [unfold kings in Hn; lia|].
  rewrite Hf. destruct (find_is_king_Some _ _ Hf) as [Hkin Hkk].
  assert (Ek : k = mkPiece (fst (castleDest i)) (snd (castleDest i)) kK)
    by (apply (king_unique (pieces b side)); auto).
  subst k. f_equal. apply existsb_exists. exists (homeRook i).
  split; [assumption|]. apply pos_in_In. rewrite <- Hs.
  destruct i as [|[|[|[|i]]]]; [| | | |lia];
    cbn [homeRook castleDest rightSide Nat.leb fst snd ppos px py];
    unfold rawMovesBase; cbn [pt px py];
    change (ptype_eqb kR kP) with false; change (ptype_eqb kR kN) with false;
    change (ptype_eqb kR kB) with false; change (ptype_eqb kR kR) with true;
    cbv iota zeta; unfold rookMoves, range_1_8; cbn [ray];
    rewrite !in_app_iff.
  - left. change (1 + 1) with 2. change (1 + 2) with 3.
    rewrite (vacant_isEmpty b (2, 8)) by (apply Hv; simpl; auto).
    simpl; auto.
  - right; left. change (8 - 1) with 7. simpl; auto.
  - left. change (1 + 1) with 2. change (1 + 2) with 3.
    rewrite (vacant_isEmpty b (2, 1)) by (apply Hv; simpl; auto).
    simpl; auto.
  - right; left. change (8 - 1) with 7. simpl; auto.
Qed.

(** A king that lands on the castling destination of the other side's right
    is in check from that right's rook, whatever rook hop came with it. *)
Lemma cross_side_castle_checked (i : nat) (side : bool) (b nb : board)
      (fro : pos) (q : piece) (promote : ptype) :
  (i < 4)%nat -> rightSide i = negb side ->
  typed b -> kings b side = 1%nat ->
  find (at_pos fro) (pieces b side) = Some q -> pt q = kK ->
  In (homeRook i) (pieces b (negb side)) ->
  isEmpty b (castleBetween i) = true ->
  move side b fro (castleDest i) promote = Ok nb ->
  isChecked side nb = Some true.
Proof.
  intros Hi Hs Ht Hk Hq Hqk Hr He Hm.
  rewrite (move_king_cases side b fro (castleDest i) promote q Hq Hqk) in Hm.
  inversion Hm; subst nb; clear Hm.
  assert (H1 : rook_setup i side (shift side b fro (castleDest i))).
  { unfold rook_setup. rewrite shift_kings_own, shift_own, shift_opp.
    split; [|split; [assumption|split]].
    - rewrite <- Hqk. apply relocate_present. assumption.
    - apply In_removeAt_keep; [assumption|].
      destruct i as [|[|[|[|i]]]]; [| | | |lia]; cbn; discriminate.
    - intros sq Hsq. apply shift_vacant.
      + intros s p Hp. apply countAt_zero with (l := pieces b s); [|assumption].
        apply (isEmpty_no_piece b (castleBetween i)); try assumption.
        destruct i as [|[|[|[|i]]]]; simpl in Hsq |- *; tauto.
      + destruct i as [|[|[|[|i]]]]; simpl in Hsq; try tauto;
          destruct Hsq as [<-|[]]; cbn; discriminate. }
  assert (Hhop : forall b0 x x',
             rook_setup i side b0 -> (x' = 4 \/ x' = 6) ->
             rook_setup i side (shift side b0 (x, DOWN side) (x', DOWN side))).
  { intros b0 x x' H0 Hx'. apply rook_setup_shift; [assumption| | |].
    - destruct side, i as [|[|[|[|i]]]]; cbn in Hs |- *; try discriminate;
        try lia; intros E; inversion E.
    - destruct side, i as [|[|[|[|i]]]]; cbn in Hs |- *; try discriminate;
        try lia; intros E; inversion E; lia.
    - intros sq Hsq.
      destruct side, i as [|[|[|[|i]]]]; cbn in Hs, Hsq |- *;
        try discriminate; try lia; try tauto;
        destruct Hsq as [<-|[]]; intros E; inversion E; lia. }
  apply (rook_setup_checked i); try assumption.
  cbv zeta.
  destruct (fst fro - fst (castleDest i) =? 2); [apply Hhop; auto|].
  destruct (fst (castleDest i) - fst fro =? 2); [|assumption].
  destruct (find (at_pos (8, DOWN side)) _) as [r|];
    [destruct (ptype_eqb (pt r) kK)|];
    repeat apply Hhop; auto.
Qed.

(** ** One legal move keeps the invariant *)

Lemma setPieces_comm (b : board) (s : bool) (l l' : list piece) :
  setPieces (setPieces b s l) (negb s) l'
  = setPieces (setPieces b (negb s) l') s l.
Proof. destruct s; reflexivity. Qed.

Lemma no_king_at_target (side : bool) (b : board) (q : piece)
      (enp : option pos) (to : pos) :
  typed b -> kings b (negb side) = 1%nat ->
  isChecked (negb side) b = Some false ->
  In q (pieces b side) ->
  In to (rawMovesBase side b q enp) ->
  forall k, In k (pieces b (negb side)) -> ppos k = to -> pt k <> kK.
Proof.
  intros Ht Hk Hc Hq Hin k Hkin Hpos.
  apply (target_not_king side b q to); try assumption.
  apply (rawMovesBase_enp side b q enp); [assumption|].
  apply (isOccupied_true_In _ _ _ k); assumption.
Qed.

Lemma kingSteps_near (x y : Z) (to : pos) :
  In to (kingSteps x y) ->
  (x - fst to =? 2) = false /\ (fst to - x =? 2) = false.
Proof.
  unfold kingSteps. simpl. rewrite !Z.eqb_neq.
  intros H. repeat (destruct H as [<-|H]); try contradiction; simpl; lia.
Qed.

(** The piece that moves is not a king or a pawn. *)
Lemma valid_move_other (side : bool) (b b' : board) (fl : flags) (fro to : pos)
      (promote : ptype) (q : piece) :
  wf_board b -> isChecked (negb side) b = Some false ->
  countAt to (pieces b side) = 0%nat ->
  find (at_pos fro) (pieces b side) = Some q ->
  pt q <> kK -> pt q <> kP ->
  In to (rawMovesBase side b q (snd fl)) ->
  move side b fro to promote = Ok b' ->
  wf_board b' /\ move side b fro to kP = Ok b'.
Proof.
  intros Hwf Hc Hto Hq Hk Hp Hin Hm.
  rewrite (move_not_king side b fro to promote q Hq Hk) in Hm.
  rewrite (move_not_king side b fro to kP q Hq Hk).
  rewrite (proj2 (ptype_eqb_neq _ _) Hp) in *.
  inversion Hm; subst; clear Hm. split; [|reflexivity].
  fold (shift side b fro to).
  pose proof Hwf as Hwf'. apply (wf_board_side side) in Hwf'.
  destruct Hwf' as (_ & _ & Hko & _ & _).
  apply shift_wf; try assumption.
  apply (no_king_at_target side b q (snd fl)); try assumption.
  - apply Hwf.
  - apply (find_at_pos_Some _ _ _ Hq).
Qed.

(** The piece that moves is a pawn. *)
Lemma valid_move_pawn (side : bool) (b b' nbp : board) (fl : flags)
      (fro to : pos) (promote : ptype) (q : piece) :
  wf_board b -> isChecked (negb side) b = Some false ->
  countAt to (pieces b side) = 0%nat ->
  find (at_pos fro) (pieces b side) = Some q ->
  pt q = kP ->
  In to (rawMovesBase side b q (snd fl)) ->
  promotion_allowed side b fro to promote ->
  move side b fro to kP = Ok nbp ->
  move side b fro to promote = Ok b' ->
  wf_board b' /\ isChecked side b' = isChecked side nbp.
Proof.
  intros Hwf Hc Hto Hq Hp Hin Hpa Hmp Hm.
  assert (Hk : pt q <> kK) by (rewrite Hp; discriminate).
  rewrite (move_not_king side b fro to promote q Hq Hk) in Hm.
  rewrite (move_not_king side b fro to kP q Hq Hk) in Hmp.
  rewrite Hp in Hm, Hmp. change (ptype_eqb kP kP) with true in Hm, Hmp.
  cbv iota in Hm, Hmp. fold (shift side b fro to) in Hm, Hmp.
  assert (Hwf1 : wf_board (shift side b fro to)).
  { pose proof Hwf as Hwf'. apply (wf_board_side side) in Hwf'.
    destruct Hwf' as (_ & _ & Hko & _ & _).
    apply shift_wf; try assumption.
    apply (no_king_at_target side b q (snd fl)); try assumption.
    - apply Hwf.
    - apply (find_at_pos_Some _ _ _ Hq). }
  destruct (Z.eq_dec (snd to) (UP side)) as [Hu|Hu].
  - assert (Hgt : getType side b fro = kP) by (unfold getType; rewrite Hq; exact Hp).
    destruct (Hpa Hgt Hu) as [Hn Hnk].
    unfold promotion in Hm, Hmp. rewrite (proj2 (Z.eqb_eq _ _) Hu) in Hm, Hmp.
    destruct (list_remove _ _) as [l|e] eqn:Hl; cbn [bind] in Hm, Hmp;
      [|discriminate].
    assert (Hwfb : wf_board (setPieces (shift side b fro to) side
                      (l ++ [mkPiece (fst to) (UP side) promote]))).
    { apply (promotion_wf side (shift side b fro to) _ to promote Hwf1 Hn Hnk).
      unfold promotion. rewrite (proj2 (Z.eqb_eq _ _) Hu), Hl. reflexivity. }
    destruct (enPassant_wf _ _ _ _ _ _ Hwfb Hm) as [Hwf' _].
    split; [assumption|].
    unfold enPassant in Hm, Hmp. rewrite !pieces_set_other in Hm, Hmp.
    destruct (ALLOWENP side b fro to).
    + destruct (list_remove _ (pieces (shift side b fro to) (negb side)))
        as [l2|e2]; cbn [bind] in Hm, Hmp; [|discriminate].
      inversion Hm; inversion Hmp; subst.
      rewrite !setPieces_comm.
      apply isChecked_promoted; try assumption; try reflexivity; discriminate.
    + inversion Hm; inversion Hmp; subst.
      apply isChecked_promoted; try assumption; try reflexivity; discriminate.
  - unfold promotion in Hm, Hmp. rewrite (proj2 (Z.eqb_neq _ _) Hu) in Hm, Hmp.
    cbn [bind] in Hm, Hmp.
    destruct (enPassant_wf _ _ _ _ _ _ Hwf1 Hm) as [Hwf' _].
    split; [assumption|]. congruence.
Qed.

Lemma shift_wf_vacant (side : bool) (b : board) (fro to : pos) :
  wf_board b ->
  countAt to (pieces b side) = 0%nat ->
  countAt to (pieces b (negb side)) = 0%nat ->
  wf_board (shift side b fro to).
Proof.
  intros Hwf H1 H2. apply shift_wf; try assumption.
  intros k Hk Hpos. rewrite countAt_zero in H2. exfalso. eapply H2; eauto.
Qed.

Lemma shift_count_own (side : bool) (b : board) (fro to sq : pos) :
  countAt sq (pieces b side) = 0%nat -> sq <> to ->
  countAt sq (pieces (shift side b fro to) side) = 0%nat.
Proof.
  intros H Hne. rewrite shift_own.
  destruct (find (at_pos fro) (pieces b side)) as [q|] eqn:Hf.
  - pose proof (countAt_relocate fro to sq _ q Hf) as Hc.
    rewrite (proj2 (pos_eqb_neq to sq)) in Hc by congruence.
    destruct (pos_eqb fro sq); lia.
  - rewrite relocate_absent; assumption.
Qed.

Lemma shift_count_opp (side : bool) (b : board) (fro to sq : pos) :
  countAt sq (pieces b (negb side)) = 0%nat ->
  countAt sq (pieces (shift side b fro to) (negb side)) = 0%nat.
Proof.
  intros H. rewrite shift_opp.
  pose proof (countAt_removeAt_le to sq (pieces b (negb side))). lia.
Qed.

Lemma rawMovesBase_king_steps (side : bool) (b : board) (q : piece)
      (enp : option pos) :
  pt q = kK -> rawMovesBase side b q enp = kingSteps (px q) (py q).
Proof. intros H. unfold rawMovesBase. rewrite H. reflexivity. Qed.

Lemma homeKing_is_king (i : nat) : pt (homeKing i) = kK.
Proof. unfold homeKing. destruct (rightSide i); reflexivity. Qed.

Lemma homeKing_pos (i : nat) : ppos (homeKing i) = kingHome i.
Proof. unfold homeKing, kingHome. destruct (rightSide i); reflexivity. Qed.

(** The piece that moves is a king. *)
Lemma valid_move_king (side : bool) (b b' nbp : board) (fl : flags)
      (fro to : pos) (promote : ptype) (q : piece) :
  wf_board b -> rights_sound b fl ->
  isChecked (negb side) b = Some false ->
  countAt to (pieces b side) = 0%nat ->
  find (at_pos fro) (pieces b side) = Some q ->
  pt q = kK ->
  In to (fst (castlingMoves side b (fst fl)) ++ kingSteps (px q) (py q)) ->
  move side b fro to kP = Ok nbp ->
  isChecked side nbp <> Some true ->
  move side b fro to promote = Ok b' ->
  wf_board b' /\ b' = nbp.
Proof.
  intros Hwf Hrs Hc Hto Hq Hk Hin Hmp Hnc Hm.
  assert (Heq : b' = nbp).
  { rewrite (move_king_cases side b fro to promote q Hq Hk) in Hm.
    rewrite (move_king_cases side b fro to kP q Hq Hk) in Hmp. congruence. }
  split; [|exact Heq].
  pose proof Hwf as Hwf'. apply (wf_board_side side) in Hwf'.
  destruct Hwf' as (Hocc & Hks & Hko & Hts & Hto').
  assert (Htyped : typed b) by apply Hwf.
  destruct (find_at_pos_Some _ _ _ Hq) as [Hqin Hqpos].
  apply in_app_or in Hin. destruct Hin as [Hin|Hin].
  - (* a castling candidate *)
    apply castlingMoves_In in Hin.
    destruct Hin as (i & Hi & -> & _ & Hr & He & _ & _).
    destruct (Hrs i Hi Hr) as [HhK HhR].
    destruct (Bool.bool_dec (rightSide i) side) as [Hs|Hs].
    + (* the mover's own right *)
      rewrite Hs in HhK, HhR.
      assert (Eq : q = homeKing i).
      { apply (king_unique (pieces b side)); auto. apply homeKing_is_king. }
      assert (Efro : fro = kingHome i).
      { rewrite <- Hqpos, Eq. apply homeKing_pos. }
      assert (Hv : forall sq s, In sq (castleBetween i) ->
                                countAt sq (pieces b s) = 0%nat).
      { intros sq s Hsq. apply (isEmpty_no_piece b (castleBetween i)); assumption. }
      rewrite (move_king_cases side b fro (castleDest i) promote q Hq Hk) in Hm.
      inversion Hm; subst b'; clear Hm. cbv zeta.
      assert (Hwf1 : wf_board (shift side b fro (castleDest i))).
      { apply shift_wf_vacant; try assumption. apply Hv.
        destruct i as [|[|[|[|i]]]]; simpl; auto; lia. }
      assert (Hking1 : In (mkPiece (fst (castleDest i)) (snd (castleDest i)) kK)
                          (pieces (shift side b fro (castleDest i)) side)).
      { rewrite shift_own, <- Hk. apply relocate_present. assumption. }
      assert (Hhop : forall x x',
                 In (x', DOWN side) (castleBetween i) ->
                 (x', DOWN side) <> castleDest i ->
                 wf_board (shift side (shift side b fro (castleDest i))
                                 (x, DOWN side) (x', DOWN side))).
      { intros x x' Hb Hne. apply shift_wf_vacant; [assumption| |].
        - apply shift_count_own; [apply Hv; assumption|assumption].
        - apply shift_count_opp. apply Hv; assumption. }
      clear Hqpos Hq Hmp Hnc. subst q.
      destruct i as [|[|[|[|i]]]]; [| | | |lia];
        cbn [rightSide Nat.leb kingHome castleDest fst snd DOWN] in *;
        subst side fro; cbn [fst snd DOWN] in *.
      * change (5 - 3 =? 2) with true. cbv iota.
        apply (Hhop 1 4); [simpl; auto|discriminate].
      * change (5 - 7 =? 2) with false. change (7 - 5 =? 2) with true. cbv iota.
        destruct (find (at_pos (8, 8)) _) as [r|] eqn:Hr8;
          [|apply (Hhop 8 6); [simpl; auto|discriminate]].
        destruct (ptype_eqb (pt r) kK) eqn:Erk;
          [|apply (Hhop 8 6); [simpl; auto|discriminate]].
        exfalso. apply ptype_eqb_eq in Erk.
        destruct (find_at_pos_Some _ _ _ Hr8) as [Hrin Hrpos].
        assert (Er : r = mkPiece 7 8 kK).
        { apply (king_unique (pieces (shift false b (5, 8) (7, 8)) false));
            auto.
          change (kingsIn (pieces (shift false b (5, 8) (7, 8)) false))
            with (kings (shift false b (5, 8) (7, 8)) false).
          rewrite shift_kings_own. assumption. }
        subst r. discriminate.
      * change (5 - 3 =? 2) with true. cbv iota.
        apply (Hhop 1 4); [simpl; auto|discriminate].
      * change (5 - 7 =? 2) with false. change (7 - 5 =? 2) with true. cbv iota.
        destruct (find (at_pos (8, 1)) _) as [r|] eqn:Hr8;
          [|apply (Hhop 8 6); [simpl; auto|discriminate]].
        destruct (ptype_eqb (pt r) kK) eqn:Erk;
          [|apply (Hhop 8 6); [simpl; auto|discriminate]].
        exfalso. apply ptype_eqb_eq in Erk.
        destruct (find_at_pos_Some _ _ _ Hr8) as [Hrin Hrpos].
        assert (Er : r = mkPiece 7 1 kK).
        { apply (king_unique (pieces (shift true b (5, 1) (7, 1)) true));
            auto.
          change (kingsIn (pieces (shift true b (5, 1) (7, 1)) true))
            with (kings (shift true b (5, 1) (7, 1)) true).
          rewrite shift_kings_own. assumption. }
        subst r. discriminate.
    + (* a right of the other side: the move is not legal *)
      exfalso. apply Hnc.
      assert (Hs' : rightSide i = negb side)
        by (destruct (rightSide i), side; simpl; congruence).
      rewrite Hs' in HhR.
      apply (cross_side_castle_checked i side b nbp fro q kP); assumption.
  - (* a step to a neighbouring square *)
    pose proof (kingSteps_near _ _ _ Hin) as [Hn1 Hn2].
    assert (Efx : fst fro = px q) by (rewrite <- Hqpos; reflexivity).
    rewrite (move_king_cases side b fro to promote q Hq Hk) in Hm.
    cbv zeta in Hm. rewrite Efx, Hn1, Hn2 in Hm.
    inversion Hm; subst b'; clear Hm.
    apply shift_wf; try assumption.
    apply (no_king_at_target side b q None); try assumption.
    rewrite rawMovesBase_king_steps; assumption.
Qed.

(** ** The invariant along a game *)

Lemma isChecked_total (side : bool) (b : board) :
  kings b side = 1%nat -> isChecked side b <> None.
Proof.
  intros Hk. unfold isChecked.
  destruct (kingsIn_pos_find (pieces b side)) as [k Hf];
    [unfold kings in Hk; lia|].
  rewrite Hf. discriminate.
Qed.

Lemma not_checked (side : bool) (b : board) :
  kings b side = 1%nat -> isChecked side b <> Some true ->
  isChecked side b = Some false.
Proof.
  intros Hk Hn. pose proof (isChecked_total side b Hk).
  destruct (isChecked side b) as [[|]|]; congruence.
Qed.

(** A legal move leaves a well-formed board on which the mover is not in
    check. *)
Lemma valid_move_board (side : bool) (b b' : board) (fl : flags) (fro to : pos)
      (promote : ptype) :
  wf_board b -> rights_sound b fl ->
  isChecked (negb side) b = Some false ->
  isValidMove side b fl fro to = Ok (Some true) ->
  promotion_allowed side b fro to promote ->
  move side b fro to promote = Ok b' ->
  wf_board b' /\ isChecked side b' = Some false.
Proof.
  intros Hwf Hrs Hc Hv Hpa Hm.
  destruct (isValidMove_true _ _ _ _ _ Hv) as (_ & Ho & Hmt & q & Hq & Hqt & Hin).
  apply moveTest_true in Hmt. destruct Hmt as (nbp & Hmp & Hnc).
  rewrite copy_id in Hmp.
  assert (Hto : countAt to (pieces b side) = 0%nat)
    by (apply isOccupied_false_count; [apply Hwf|assumption]).
  rewrite rawMoves_eq in Hin. cbn [fst] in Hin.
  assert (Hgoal : wf_board b' /\ isChecked side b' <> Some true).
  { destruct (ptype_eqb (pt q) kK) eqn:Ek.
    - apply ptype_eqb_eq in Ek.
      rewrite (rawMovesBase_king_steps side b q (snd fl) Ek) in Hin.
      destruct (valid_move_king side b b' nbp fl fro to promote q)
        as [Hwf' ->]; auto.
    - apply ptype_eqb_neq in Ek. cbn [app] in Hin.
      destruct (ptype_eqb (pt q) kP) eqn:Ep.
      + apply ptype_eqb_eq in Ep.
        destruct (valid_move_pawn side b b' nbp fl fro to promote q)
          as [Hwf' E]; auto.
        rewrite E. auto.
      + apply ptype_eqb_neq in Ep.
        destruct (valid_move_other side b b' fl fro to promote q)
          as [Hwf' E]; auto.
        rewrite Hmp in E. inversion E; subst nbp. auto. }
  destruct Hgoal as [Hwf' Hn]. split; [assumption|].
  apply not_checked; [|assumption].
  apply (wf_board_side side) in Hwf'. apply Hwf'.
Qed.

Lemma Inv_step (side : bool) (b : board) (fl : flags) (fro to : pos)
      (promote : ptype) (st' : state) :
  Inv (side, b, fl) ->
  isValidMove side b fl fro to = Ok (Some true) ->
  promotion_allowed side b fro to promote ->
  makeMove side b fro to fl promote = Ok st' ->
  Inv st'.
Proof.
  intros (Hwf & Hfl & Hrs & Hc) Hv Hpa Hmk.
  pose proof (makeMove_rights _ _ _ _ _ _ _ Hmk) as Hfl'.
  destruct st' as [[side' b'] fl'].
  assert (Hflag : forall i, (i < 4)%nat ->
            right i fl' = right i fl && has_piece b' (rightSide i) (homeKing i)
                          && has_piece b' (rightSide i) (homeRook i))
    by (intros i Hi; apply (makeMove_flag i _ _ _ _ _ _ _ _ _ Hi Hmk)).
  unfold makeMove in Hmk. rewrite copy_id in Hmk.
  destruct (move side b fro to promote) as [nb|e] eqn:Hm; cbn [bind] in Hmk;
    [|discriminate].
  destruct (updateFlags side nb fro to fl) as [nf|e]; cbn [bind] in Hmk;
    [|discriminate].
  inversion Hmk; subst side' b' fl'; clear Hmk.
  destruct (valid_move_board side b nb fl fro to promote) as [Hwf' Hc'];
    try assumption.
  unfold Inv. rewrite Bool.negb_involutive.
  split; [assumption|]. split; [exact Hfl'|]. split; [|assumption].
  intros i Hi Hr. rewrite (Hflag i Hi) in Hr.
  apply andb_true_iff in Hr. destruct Hr as [Hr Hrook].
  apply andb_true_iff in Hr. destruct Hr as [_ Hking].
  split; apply has_piece_In; assumption.
Qed.

Lemma pos_dec (a b : pos) : {a = b} + {a <> b}.
Proof. repeat decide equality. Defined.

Lemma countAt_NoDup (sq : pos) (l : list piece) :
  NoDup (map ppos l) -> (countAt sq l <= 1)%nat.
Proof.
  induction l as [|p l IH]; [intros _; unfold countAt; simpl; lia|].
  simpl. intros H. inversion H as [|x xs Hnin Hnd]; subst.
  rewrite countAt_cons. specialize (IH Hnd).
  destruct (at_pos sq p) eqn:E; [|lia].
  assert (Hz : countAt sq l = 0%nat).
  { apply countAt_zero. intros k Hk Hpos. apply Hnin.
    apply at_pos_true in E. rewrite E, <- Hpos. apply in_map. assumption. }
  lia.
Qed.

Lemma initBoard_wf : wf_board initBoard.
Proof.
  split; [|split; [reflexivity|split; [reflexivity|]]].
  - intros sq. unfold occupancy. rewrite <- countAt_app.
    apply countAt_NoDup.
    match goal with
    | |- NoDup ?l =>
      replace l with (nodup pos_dec l)
        by (vm_compute; reflexivity)
    end.
    apply NoDup_nodup.
  - intros s p Hp. destruct s; cbn in Hp;
      repeat (destruct Hp as [<-|Hp]; [discriminate|]); destruct Hp.
Qed.

Lemma Inv_init : Inv initBoardVars.
Proof.
  split; [exact initBoard_wf|]. split; [discriminate|].
  split; [|reflexivity].
  intros i Hi _. destruct i as [|[|[|[|i]]]]; [| | | |lia];
    cbn; intuition.
Qed.

Lemma reachable_Inv (st : state) : reachable st -> Inv st.
Proof.
  induction 1 as [|side b fl fro to promote st' _ IH Hv Hpa Hm];
    [exact Inv_init|].
  exact (Inv_step side b fl fro to promote st' IH Hv Hpa Hm).
Qed.

(** C4, as the code has it: on every board reachable from the initial state
    by makeMove steps whose moves isValidMove accepted in their position, a
    pawn that reaches its last rank being given a promotion type that is
    neither None nor the king's, at most one piece stands on any square,
    both sides' lists counted together, and each side has exactly one
    king. *)
Theorem reachable_board_invariant (side : bool) (b : board) (fl : flags) :
  reachable (side, b, fl) ->
  (forall sq, (occupancy b sq <= 1)%nat)
  /\ kings b false = 1%nat /\ kings b true = 1%nat.
Proof.
  intros H. apply reachable_Inv in H.
  destruct H as ((Hocc & Hk0 & Hk1 & _) & _). auto.
Qed.

Lemma reachable_board_invariant_witness :
  (forall sq, (occupancy (snd (fst afterE4)) sq <= 1)%nat)
  /\ kings (snd (fst afterE4)) false = 1%nat
  /\ kings (snd (fst afterE4)) true = 1%nat.
Proof.
  apply (reachable_board_invariant (fst (fst afterE4)) (snd (fst afterE4))
                                   (snd afterE4)).
  change (reachable afterE4).
  apply (reach_move false initBoard initFlags (5, 7) (5, 5) None).
  - apply reach_init.
  - vm_compute. reflexivity.
  - intros _ H. vm_compute in H. discriminate.
  - vm_compute. reflexivity.
Defined.

Lemma playWith_validated (moves : list (pos * pos * ptype)) (st st' : state) :
  validated st -> playWith st moves = Some st' -> validated st'.
Proof.
  revert st. induction moves as [|[[fro to] promote] rest IH]; intros st Hv;
    simpl.
  - intros H; inversion H; subst; assumption.
  - destruct st as [[side b] fl].
    destruct (isValidMove side b fl fro to) as [[[|]|]|e] eqn:Hm;
      try discriminate.
    destruct (makeMove side b fro to fl promote) as [st1|e] eqn:Hk;
      [|discriminate].
    apply IH. apply (valid_move side b fl fro to promote); assumption.
Qed.

(** C4 as stated fails.  The legality filter does not see the promotion
    type, and [makeMove] stores the one it is handed.  In a game of
    validated moves from the initial state, a pawn promoted to a king
    leaves its side with two kings; and a pawn promoted with no type at all
    is a piece [isOccupied] does not see, so that a rook of its own side
    can step onto its square, which then holds two pieces. *)
Lemma validated_game_breaks_invariant :
  (exists side b fl,
      validated (side, b, fl) /\ kings b false = 2%nat)
  /\ (exists side b fl,
         validated (side, b, fl) /\ occupancy b (7, 1) = 2%nat).
Proof.
  split.
  - destruct (playWith initBoardVars kingPromotionGame)
      as [[[side b] fl]|] eqn:E; [|vm_compute in E; discriminate].
    exists side, b, fl. split.
    + apply (playWith_validated kingPromotionGame initBoardVars);
        [apply valid_init|exact E].
    + vm_compute in E. inversion E; subst. reflexivity.
  - destruct (playWith initBoardVars untypedPromotionGame)
      as [[[side b] fl]|] eqn:E; [|vm_compute in E; discriminate].
    exists side, b, fl. split.
    + apply (playWith_validated untypedPromotionGame initBoardVars);
        [apply valid_init|exact E].
    + vm_compute in E. inversion E; subst. reflexivity.
Qed.

(** The reachable states are among the validated ones. *)
Lemma reachable_validated (st : state) : reachable st -> validated st.
Proof.
  induction 1 as [|side b fl fro to promote st' _ IH Hv _ Hm];
    [apply valid_init|].
  apply (valid_move side b fl fro to promote); assumption.
Qed.

(** * Further properties of the rules engine *)

(** ** A validated move is applied *)

(** [move] raises for the same moves whatever the promotion type is, so a
    move that passed [moveTest] is applied by [move]. *)
Lemma move_after_valid (side : bool) (b : board) (fl : flags)
      (fro to : pos) (promote : ptype) :
  isValidMove side b fl fro to = Ok (Some true) ->
  exists nb, move side b fro to promote = Ok nb.
Proof.
  intros Hv.
  destruct (isValidMove_true _ _ _ _ _ Hv) as (_ & _ & Hmt & _).
  apply moveTest_true in Hmt. destruct Hmt as (nb & Hm & _).
  rewrite copy_id in Hm.
  destruct (move side b fro to promote) as [nb'|e] eqn:Hmk; [eauto|].
  exfalso. apply move_raises_iff in Hmk.
  assert (Hr : move side b fro to kP = Raise e)
    by (apply move_raises_iff; exact Hmk).
  congruence.
Qed.

(** X1: a move that [isValidMove] accepts is applied by [makeMove] without
    an exception, whatever promotion type comes with it, as long as the
    castling rights [flags[0]] are present; the state returned has the
    other side to move. *)
Theorem valid_move_applies (side : bool) (b : board) (fl : flags)
        (fro to : pos) (promote : ptype) :
  isValidMove side b fl fro to = Ok (Some true) ->
  fst fl <> None ->
  exists b' fl', makeMove side b fro to fl promote = Ok (negb side, b', fl').
Proof.
  intros Hv Hfl.
  destruct (move_after_valid side b fl fro to promote Hv) as [nb Hm].
  unfold makeMove. rewrite copy_id, Hm. cbn [bind].
  unfold updateFlags. destruct (fst fl) as [c|]; [|congruence].
  cbn [bind]. eauto.
Qed.

Lemma valid_move_applies_witness :
  exists b' fl',
    makeMove false initBoard (5, 7) (5, 5) initFlags kQ = Ok (negb false, b', fl').
Proof.
  apply (valid_move_applies false initBoard initFlags (5, 7) (5, 5) kQ).
  - vm_compute. reflexivity.
  - simpl. discriminate.
Defined.

(** ** The two legality filters agree *)

Lemma availableLoop_complete (side : bool) (b : board) (fro : pos)
      (dests : list pos) (ending : option exn) (dest : pos) :
  snd (availableLoop side b fro dests ending) = None ->
  In dest dests -> in_bounds dest = true -> isOccupied side b dest = false ->
  moveTest side b fro dest = Ok true ->
  In dest (fst (availableLoop side b fro dests ending)).
Proof.
  induction dests as [|d rest IH]; simpl; [tauto|].
  intros Hs Hin Hb Ho Hm.
  destruct (in_bounds d && negb (isOccupied side b d)) eqn:Hg.
  - destruct (moveTest side b fro d) as [[|]|e] eqn:Hmd; cbn [fst snd] in *.
    + destruct Hin as [->|Hin]; [left; reflexivity|right; apply IH; assumption].
    + destruct Hin as [->|Hin]; [congruence|apply IH; assumption].
    + discriminate.
  - destruct Hin as [->|Hin]; [|apply IH; assumption].
    rewrite Hb, Ho in Hg. discriminate.
Qed.

Lemma getType_found (side : bool) (b : board) (sq : pos) (q : piece) :
  find (at_pos sq) (pieces b side) = Some q ->
  mkPiece (fst sq) (snd sq) (getType side b sq) = q.
Proof.
  intros Hq. unfold getType. rewrite Hq.
  apply piece_eta. apply (find_at_pos_Some _ _ _ Hq).
Qed.

Lemma available_valid (side : bool) (b : board) (fl : flags) (q : piece)
      (fro to : pos) :
  find (at_pos fro) (pieces b side) = Some q ->
  In to (fst (availableMoves side b q fl)) ->
  isValidMove side b fl fro to = Ok (Some true).
Proof.
  intros Hq Hin. unfold availableMoves in Hin.
  apply availableLoop_sound in Hin. destruct Hin as (Hraw & Hb & Ho & Hm).
  destruct (find_at_pos_Some _ _ _ Hq) as [_ Hpos]. rewrite Hpos in Hm.
  unfold isValidMove. rewrite Hb, Ho. cbn [negb andb].
  rewrite (getType_found side b fro q Hq). unfold gen_in.
  rewrite (proj2 (pos_in_In to _) Hraw). cbn [bind]. rewrite Hm. reflexivity.
Qed.

Lemma valid_available (side : bool) (b : board) (fl : flags) (q : piece)
      (fro to : pos) :
  find (at_pos fro) (pieces b side) = Some q ->
  snd (availableMoves side b q fl) = None ->
  isValidMove side b fl fro to = Ok (Some true) ->
  In to (fst (availableMoves side b q fl)).
Proof.
  intros Hq Hs Hv.
  destruct (isValidMove_true _ _ _ _ _ Hv)
    as (Hb & Ho & Hm & q' & Hq' & _ & Hraw).
  rewrite Hq in Hq'. inversion Hq'; subst q'.
  destruct (find_at_pos_Some _ _ _ Hq) as [_ Hpos].
  unfold availableMoves in *. rewrite Hpos in *.
  apply availableLoop_complete; assumption.
Qed.

(** X2: for the piece that stands on [fro], every destination that
    [availableMoves] yields is a move that [isValidMove] accepts; and when
    [availableMoves] ends without an exception, it yields every destination
    that [isValidMove] accepts. *)
Theorem availableMoves_iff_valid (side : bool) (b : board) (fl : flags)
        (q : piece) (fro to : pos) :
  find (at_pos fro) (pieces b side) = Some q ->
  (In to (fst (availableMoves side b q fl)) ->
   isValidMove side b fl fro to = Ok (Some true))
  /\ (snd (availableMoves side b q fl) = None ->
      isValidMove side b fl fro to = Ok (Some true) ->
      In to (fst (availableMoves side b q fl))).
Proof.
  intros Hq. split.
  - apply available_valid; assumption.
  - apply valid_available; assumption.
Qed.

Lemma availableMoves_iff_valid_witness :
  (In (5, 5) (fst (availableMoves false initBoard (mkPiece 5 7 kP) initFlags)) ->
   isValidMove false initBoard initFlags (5, 7) (5, 5) = Ok (Some true))
  /\ (snd (availableMoves false initBoard (mkPiece 5 7 kP) initFlags) = None ->
      isValidMove false initBoard initFlags (5, 7) (5, 5) = Ok (Some true) ->
      In (5, 5) (fst (availableMoves false initBoard (mkPiece 5 7 kP) initFlags))).
Proof.
  apply (availableMoves_iff_valid false initBoard initFlags (mkPiece 5 7 kP)
                                  (5, 7) (5, 5)).
  reflexivity.
Defined.

(** ** An origin square without a piece of the mover *)

(** X3: when the mover has no piece on [fro] (an empty square, or a piece of
    the other side), [isValidMove] returns Python's None for every
    destination: neither True nor False, and no exception. *)
Theorem isValidMove_no_piece (side : bool) (b : board) (fl : flags)
        (fro to : pos) :
  getType side b fro = None ->
  isValidMove side b fl fro to = Ok None.
Proof.
  intros Hg. unfold isValidMove. rewrite Hg.
  destruct (in_bounds to && negb (isOccupied side b to)); [|reflexivity].
  rewrite rawMoves_eq. unfold gen_in. reflexivity.
Qed.

Lemma isValidMove_no_piece_witness :
  isValidMove false initBoard initFlags (5, 2) (5, 4) = Ok None.
Proof.
  apply (isValidMove_no_piece false initBoard initFlags (5, 2) (5, 4)).
  reflexivity.
Defined.

(** ** End of game *)

Lemma legalLoop_In (side : bool) (b : board) (fl : flags) (ps : list piece)
      (f d : pos) :
  In (f, d) (fst (legalLoop side b fl ps)) ->
  exists p, In p ps /\ f = ppos p /\ In d (fst (availableMoves side b p fl)).
Proof.
  induction ps as [|p rest IH]; simpl; [tauto|].
  unfold gen_seq. cbn [fst snd].
  destruct (snd (availableMoves side b p fl)) as [e|]; cbn [fst].
  - intros H. apply in_map_iff in H. destruct H as (x & E & Hx).
    inversion E; subst. exists p. auto.
  - intros H. apply in_app_or in H. destruct H as [H|H].
    + apply in_map_iff in H. destruct H as (x & E & Hx).
      inversion E; subst. exists p. auto.
    + destruct (IH H) as (p' & Hp' & E & Hd). exists p'. auto.
Qed.

Lemma legalLoop_complete (side : bool) (b : board) (fl : flags)
      (ps : list piece) (p : piece) (d : pos) :
  snd (legalLoop side b fl ps) = None ->
  In p ps -> In d (fst (availableMoves side b p fl)) ->
  In (ppos p, d) (fst (legalLoop side b fl ps)).
Proof.
  induction ps as [|p' rest IH]; simpl; [tauto|].
  unfold gen_seq. cbn [fst snd].
  destruct (snd (availableMoves side b p' fl)) as [e|]; cbn [fst snd];
    [discriminate|].
  intros Hs [->|Hp] Hd; apply in_or_app.
  - left. apply in_map_iff. exists d. auto.
  - right. apply IH; assumption.
Qed.

Lemma legalLoop_nil (side : bool) (b : board) (fl : flags) (ps : list piece) :
  legalLoop side b fl ps = ([], None) ->
  forall p, In p ps -> availableMoves side b p fl = ([], None).
Proof.
  induction ps as [|p' rest IH]; simpl; [tauto|].
  unfold gen_seq. cbn [fst snd].
  destruct (availableMoves side b p' fl) as [l [e|]] eqn:Ha; cbn [fst snd].
  - intros H; inversion H.
  - intros H. pose proof (f_equal fst H) as H1. pose proof (f_equal snd H) as H2.
    cbn [fst snd] in H1, H2. apply app_eq_nil in H1. destruct H1 as [H1 H3].
    apply map_eq_nil in H1. subst l.
    assert (Hrest : legalLoop side b fl rest = ([], None)).
    { destruct (legalLoop side b fl rest) as [l' e']. simpl in *. congruence. }
    intros p [<-|Hp]; [assumption|]. apply IH; assumption.
Qed.

Lemma find_unique (l : list piece) (p : piece) :
  In p l -> (countAt (ppos p) l <= 1)%nat ->
  find (at_pos (ppos p)) l = Some p.
Proof.
  induction l as [|q l IH]; simpl; [tauto|].
  rewrite countAt_cons. intros Hin Hc.
  destruct (at_pos (ppos p) q) eqn:E.
  - destruct Hin as [->|Hin]; [reflexivity|].
    pose proof (countAt_pos_In (ppos p) l p Hin eq_refl). lia.
  - destruct Hin as [->|Hin].
    + unfold at_pos in E. rewrite pos_eqb_refl in E. discriminate.
    + apply IH; [assumption|lia].
Qed.

(** X4: [isEnd] and [isValidMove] agree on whether a move is left.  On
    every board, when [isEnd] returns True, [isValidMove] accepts no move
    at all; and on a board where no two pieces of the mover share a square,
    when [isEnd] returns False there is a move that [isValidMove]
    accepts. *)
Theorem isEnd_iff_no_valid_move (side : bool) (b : board) (fl : flags) :
  (isEnd side b fl = Ok true ->
   forall fro to, isValidMove side b fl fro to <> Ok (Some true))
  /\ (own_distinct b side ->
      isEnd side b fl = Ok false ->
      exists fro to, isValidMove side b fl fro to = Ok (Some true)).
Proof.
  unfold isEnd, legalMoves. split.
  - destruct (legalLoop side b fl (pieces b side)) as [[|x l] [e|]] eqn:Hl;
      try discriminate.
    intros _ fro to Hv.
    destruct (isValidMove_true _ _ _ _ _ Hv) as (_ & _ & _ & q & Hq & _ & _).
    destruct (find_at_pos_Some _ _ _ Hq) as [Hqin _].
    pose proof (legalLoop_nil side b fl _ Hl q Hqin) as Ha.
    assert (Hin : In to (fst (availableMoves side b q fl))).
    { apply (valid_available side b fl q fro to); try assumption.
      rewrite Ha. reflexivity. }
    rewrite Ha in Hin. destruct Hin.
  - intros Hd.
    destruct (legalLoop side b fl (pieces b side)) as [[|[f d] l] [e|]] eqn:Hl;
      try discriminate.
    + intros _.
      destruct (legalLoop_In side b fl (pieces b side) f d) as (p & Hp & -> & Ha);
        [rewrite Hl; simpl; auto|].
      exists (ppos p), d. apply (available_valid side b fl p); [|assumption].
      apply find_unique; [assumption|apply Hd].
    + intros _.
      destruct (legalLoop_In side b fl (pieces b side) f d) as (p & Hp & -> & Ha);
        [rewrite Hl; simpl; auto|].
      exists (ppos p), d. apply (available_valid side b fl p); [|assumption].
      apply find_unique; [assumption|apply Hd].
Qed.

Lemma initBoard_distinct (side : bool) : own_distinct initBoard side.
Proof.
  intros sq. pose proof initBoard_wf as (Hocc & _).
  specialize (Hocc sq). unfold occupancy in Hocc. destruct side; lia.
Qed.

Lemma isEnd_iff_no_valid_move_witness :
  (forall fro to,
      isValidMove false
                  (mkBoard [mkPiece 1 8 kK] [mkPiece 2 6 kQ; mkPiece 8 1 kK])
                  (Some (mkCastle false false false false), None) fro to
      <> Ok (Some true))
  /\ exists fro to,
       isValidMove false initBoard initFlags fro to = Ok (Some true).
Proof.
  split.
  - apply (proj1 (isEnd_iff_no_valid_move
                    false
                    (mkBoard [mkPiece 1 8 kK] [mkPiece 2 6 kQ; mkPiece 8 1 kK])
                    (Some (mkCastle false false false false), None))).
    vm_compute. reflexivity.
  - apply (proj2 (isEnd_iff_no_valid_move false initBoard initFlags)).
    + apply initBoard_distinct.
    + vm_compute. reflexivity.
Defined.

(** ** Sliding pieces *)











(** ** The number of pieces *)

Lemma length_removeAt (sq : pos) (l : list piece) :
  (List.length (removeAt sq l) <= List.length l)%nat.
Proof.
  induction l as [|p l IH]; simpl; [lia|].
  destruct (at_pos sq p); simpl; lia.
Qed.

Lemma length_relocate (fro to : pos) (l : list piece) :
  List.length (relocate fro to l) = List.length l.
Proof.
  induction l as [|p l IH]; simpl; [reflexivity|].
  destruct (at_pos fro p); simpl; congruence.
Qed.

Lemma length_list_remove (x : piece) (l r : list piece) :
  list_remove x l = Ok r -> S (List.length r) = List.length l.
Proof.
  revert r. induction l as [|p l IH]; simpl; intros r; [discriminate|].
  destruct (piece_eqb p x).
  - intros H; inversion H; reflexivity.
  - destruct (list_remove x l) as [r'|e]; cbn [bind]; [|discriminate].
    intros H; inversion H; subst. simpl. rewrite (IH r' eq_refl). reflexivity.
Qed.

Lemma promotion_count (side : bool) (b b1 : board) (to : pos) (t promote : ptype) :
  promotion side b to t promote = Ok b1 ->
  List.length (pieces b1 side) = List.length (pieces b side)
  /\ pieces b1 (negb side) = pieces b (negb side).
Proof.
  unfold promotion. destruct (snd to =? UP side).
  - destruct (list_remove _ _) as [l|e] eqn:Hl; cbn [bind]; [|discriminate].
    intros H; inversion H; subst.
    rewrite pieces_set_same, pieces_set_other, length_app.
    apply length_list_remove in Hl. simpl. split; [lia|reflexivity].
  - intros H; inversion H; subst. auto.
Qed.

Lemma enPassant_count (side : bool) (b b1 : board) (fro to : pos) (allow : bool) :
  enPassant side b fro to allow = Ok b1 ->
  pieces b1 side = pieces b side
  /\ (List.length (pieces b1 (negb side)) <= List.length (pieces b (negb side)))%nat.
Proof.
  unfold enPassant. destruct allow.
  - destruct (list_remove _ _) as [l|e] eqn:Hl; cbn [bind]; [|discriminate].
    intros H; inversion H; subst.
    rewrite pieces_set_same, pieces_set_negb.
    apply length_list_remove in Hl. split; [reflexivity|lia].
  - intros H; inversion H; subst. auto.
Qed.

Lemma moveWith_count
      (again : bool -> board -> pos -> pos -> ptype -> res board) :
  (forall side b fro to promote b',
     again side b fro to promote = Ok b' ->
     List.length (pieces b' side) = List.length (pieces b side)
     /\ (List.length (pieces b' (negb side))
         <= List.length (pieces b (negb side)))%nat) ->
  forall side b fro to promote b',
    moveWith again side b fro to promote = Ok b' ->
    List.length (pieces b' side) = List.length (pieces b side)
    /\ (List.length (pieces b' (negb side))
        <= List.length (pieces b (negb side)))%nat.
Proof.
  intros Hag side b fro to promote b'. unfold moveWith.
  pose proof (length_removeAt to (pieces b (negb side))) as Hcap.
  destruct (find (at_pos fro) (pieces (capture side b to) side)) as [p|].
  2:{ intros H; inversion H; subst. rewrite capture_same, capture_other. auto. }
  assert (H1 : forall b2,
    (if ptype_eqb (pt p) kK then
       if fst fro - fst to =? 2 then
         again side (slide side (capture side b to) fro to)
               (1, DOWN side) (4, DOWN side) kP
       else if fst to - fst fro =? 2 then
         again side (slide side (capture side b to) fro to)
               (8, DOWN side) (6, DOWN side) kP
       else Ok (slide side (capture side b to) fro to)
     else Ok (slide side (capture side b to) fro to)) = Ok b2 ->
    List.length (pieces b2 side) = List.length (pieces b side)
    /\ (List.length (pieces b2 (negb side))
        <= List.length (pieces b (negb side)))%nat).
  { intros b2 H.
    assert (Hs : List.length (pieces (slide side (capture side b to) fro to) side)
                 = List.length (pieces b side)
                 /\ (List.length (pieces (slide side (capture side b to) fro to)
                                         (negb side))
                     <= List.length (pieces b (negb side)))%nat).
    { rewrite slide_same, slide_other, capture_same, capture_other,
        length_relocate. auto. }
    destruct (ptype_eqb (pt p) kK);
      [destruct (fst fro - fst to =? 2);
       [|destruct (fst to - fst fro =? 2)]|];
      try (inversion H; subst; exact Hs);
      apply Hag in H; lia. }
  destruct (if ptype_eqb (pt p) kK then _ else _) as [b2|e]; cbn [bind];
    [|discriminate].
  specialize (H1 b2 eq_refl).
  destruct (ptype_eqb (pt p) kP); [|intros H; inversion H; subst; exact H1].
  destruct (promotion side b2 to (pt p) promote) as [b3|e] eqn:Hp; cbn [bind];
    [|discriminate].
  intros He. apply promotion_count in Hp. apply enPassant_count in He.
  destruct Hp as [Hp1 Hp2], He as [He1 He2]. rewrite He1, Hp1.
  rewrite Hp2 in He2. lia.
Qed.

(** X6: [move] conserves the pieces of the mover and never adds one to the
    other side: when it returns, the mover's list has as many pieces as
    before (a promoted pawn is replaced, not added) and the other side's
    list has at most as many. *)
Theorem move_piece_count (side : bool) (b b' : board) (fro to : pos)
        (promote : ptype) :
  move side b fro to promote = Ok b' ->
  List.length (pieces b' side) = List.length (pieces b side)
  /\ (List.length (pieces b' (negb side))
      <= List.length (pieces b (negb side)))%nat.
Proof.
  unfold move. generalize 2%nat. intros depth.
  revert side b b' fro to promote.
  induction depth as [|d IH]; intros side b b' fro to promote; cbn [moveN].
  - apply moveWith_count. intros; discriminate.
  - apply moveWith_count. intros s b0 f t pr b1. apply IH.
Qed.

Lemma move_piece_count_witness :
  List.length (pieces afterE4_board false) = List.length (pieces initBoard false)
  /\ (List.length (pieces afterE4_board (negb false))
      <= List.length (pieces initBoard (negb false)))%nat.
Proof.
  apply (move_piece_count false initBoard afterE4_board (5, 7) (5, 5) kQ).
  vm_compute. reflexivity.
Defined.

(** ** Pawns *)



(** ** What holds in every reachable state *)

Lemma play_reachable (moves : list (pos * pos)) (st st' : state) :
  reachable st -> play st moves = Some st' -> reachable st'.
Proof.
  revert st. induction moves as [|[fro to] rest IH]; intros st Hr; simpl.
  - intros H; inversion H; subst; assumption.
  - destruct st as [[side b] fl].
    destruct (isValidMove side b fl fro to) as [[[|]|]|e] eqn:Hv;
      try discriminate.
    destruct (makeMove_default side b fro to fl) as [st1|e] eqn:Hm;
      [|discriminate].
    apply IH. apply (reach_move side b fl fro to kQ); try assumption.
    intros _ _. split; discriminate.
Qed.

Lemma castleReady_reachable : reachable castleReady.
Proof.
  apply (play_reachable
           [((5, 7), (5, 5)); ((5, 2), (5, 4)); ((7, 8), (6, 6));
            ((7, 1), (6, 3)); ((6, 8), (3, 5)); ((6, 1), (3, 4))]
           initBoardVars).
  - apply reach_init.
  - vm_compute. reflexivity.
Defined.

Lemma castled_reachable : reachable castled.
Proof.
  apply (play_reachable [((5, 8), (7, 8))] castleReady).
  - exact castleReady_reachable.
  - vm_compute. reflexivity.
Defined.

(** X7: in every reachable state the side that has just moved is not in
    check: no sequence of validated moves leaves a king attacked by the
    side that is to move. *)
Theorem reachable_mover_not_in_check (side : bool) (b : board) (fl : flags) :
  reachable (side, b, fl) -> isChecked (negb side) b = Some false.
Proof.
  intros H. apply reachable_Inv in H. destruct H as (_ & _ & _ & H). exact H.
Qed.

Lemma reachable_mover_not_in_check_witness :
  isChecked (negb true) (snd (fst castled)) = Some false.
Proof.
  apply (reachable_mover_not_in_check true (snd (fst castled)) (snd castled)).
  exact castled_reachable.
Defined.

(** X8: in every reachable state the castling rights are present, and a
    castling flag that is still set finds its king and its rook on their
    home squares. *)
Theorem reachable_rights_sound (side : bool) (b : board) (fl : flags) :
  reachable (side, b, fl) ->
  fst fl <> None
  /\ (forall i, (i < 4)%nat -> right i fl = true ->
                In (homeKing i) (pieces b (rightSide i))
                /\ In (homeRook i) (pieces b (rightSide i))).
Proof.
  intros H. apply reachable_Inv in H.
  destruct H as (_ & Hfl & Hrs & _). split; [exact Hfl|].
  intros i Hi Hr. apply (Hrs i Hi Hr).
Qed.

Lemma reachable_rights_sound_witness :
  fst (snd castled) <> None
  /\ (forall i, (i < 4)%nat -> right i (snd castled) = true ->
                In (homeKing i) (pieces (snd (fst castled)) (rightSide i))
                /\ In (homeRook i) (pieces (snd (fst castled)) (rightSide i))).
Proof.
  apply (reachable_rights_sound true (snd (fst castled)) (snd castled)).
  exact castled_reachable.
Defined.

(** ** The en-passant square *)

Lemma find_relocate_target (fro to : pos) (l : list piece) (q : piece) :
  find (at_pos fro) l = Some q -> countAt to l = 0%nat ->
  find (at_pos to) (relocate fro to l)
  = Some (mkPiece (fst to) (snd to) (pt q)).
Proof.
  induction l as [|p l IH]; simpl; [discriminate|].
  rewrite countAt_cons. intros Hf Hc.
  destruct (at_pos to p) eqn:Et; [lia|].
  destruct (at_pos fro p) eqn:Ef.
  - inversion Hf; subst. simpl. rewrite at_pos_mk, pos_eqb_refl. reflexivity.
  - simpl. rewrite Et. apply IH; [assumption|lia].
Qed.

Lemma kingSteps_rank (x y : Z) (to : pos) :
  In to (kingSteps x y) -> -1 <= snd to - y <= 1 /\ -1 <= fst to - x <= 1.
Proof.
  unfold kingSteps. simpl.
  intros H. repeat (destruct H as [<-|H]); try contradiction; simpl; lia.
Qed.

(** A validated king move is a castling of the mover's own right, from the
    king's home square, or a step to a neighbouring square. *)
Lemma valid_king_move (side : bool) (b nbp : board) (fl : flags)
      (fro to : pos) (q : piece) :
  wf_board b -> rights_sound b fl ->
  find (at_pos fro) (pieces b side) = Some q -> pt q = kK ->
  In to (fst (castlingMoves side b (fst fl)) ++ kingSteps (px q) (py q)) ->
  move side b fro to kP = Ok nbp ->
  isChecked side nbp <> Some true ->
  (exists i, (i < 4)%nat /\ rightSide i = side /\ right i fl = true
             /\ isEmpty b (castleBetween i) = true
             /\ fro = kingHome i /\ to = castleDest i)
  \/ (-1 <= snd to - snd fro <= 1 /\ -1 <= fst to - fst fro <= 1).
Proof.
  intros Hwf Hrs Hq Hk Hin Hmp Hnc.
  pose proof Hwf as Hwf'. apply (wf_board_side side) in Hwf'.
  destruct Hwf' as (_ & Hks & _ & _ & _).
  destruct (find_at_pos_Some _ _ _ Hq) as [Hqin Hqpos].
  apply in_app_or in Hin. destruct Hin as [Hin|Hin].
  - apply castlingMoves_In in Hin.
    destruct Hin as (i & Hi & -> & _ & Hr & He & _ & _).
    destruct (Hrs i Hi Hr) as [HhK HhR].
    destruct (Bool.bool_dec (rightSide i) side) as [Hs|Hs].
    + left. exists i. repeat (split; [assumption|]).
      split; [|reflexivity].
      rewrite Hs in HhK.
      assert (Eq : q = homeKing i).
      { apply (king_unique (pieces b side)); auto. apply homeKing_is_king. }
      rewrite <- Hqpos, Eq. apply homeKing_pos.
    + exfalso. apply Hnc.
      assert (Hs' : rightSide i = negb side)
        by (destruct (rightSide i), side; simpl; congruence).
      rewrite Hs' in HhR.
      apply (cross_side_castle_checked i side b nbp fro q kP); try assumption.
      apply Hwf.
  - right. apply kingSteps_rank in Hin.
    destruct q as [qx qy qt], fro as [fx fy]. unfold ppos in Hqpos.
    simpl in *. inversion Hqpos; subst. lia.
Qed.

Lemma pawn_double_step (side : bool) (b : board) (x y : Z) (enp : option pos)
      (to : pos) :
  In to (pawnMoves side b x y enp) ->
  (y - snd to = 2 -> side = false /\ snd to = 5)
  /\ (snd to - y = 2 -> side = true /\ snd to = 4).
Proof.
  unfold pawnMoves. destruct side; cbn [negb flat_map];
    rewrite !in_app_iff; intros [H|[H|[H|[H|H]]]];
    repeat match type of H with
    | In _ (if ?c then _ else _) =>
        let E := fresh "E" in destruct c eqn:E; [|destruct H]
    end;
    try (destruct H as [<-|[]]); try destruct H; cbn [fst snd];
    try (apply andb_true_iff in E; destruct E as [E _];
         apply Z.eqb_eq in E);
    split; intros; try lia; split; try reflexivity; lia.
Qed.

Lemma pawn_diagonal (side : bool) (b : board) (x y : Z) (enp : option pos)
      (to : pos) :
  In to (pawnMoves side b x y enp) -> fst to <> x ->
  snd to <> y
  /\ (isOccupied (negb side) b to = true \/ enp = Some to).
Proof.
  assert (Henp : forall d, enp_is enp d = true -> enp = Some d).
  { intros d. unfold enp_is. destruct enp as [e|]; [|discriminate].
    intros H. apply pos_eqb_eq in H. congruence. }
  unfold pawnMoves. destruct side; cbn [negb flat_map];
    rewrite !in_app_iff; intros [H|[H|[H|[H|H]]]] Hx;
    repeat match type of H with
    | In _ (if ?c then _ else _) =>
        let E := fresh "E" in destruct c eqn:E; [|destruct H]
    end;
    try (destruct H as [<-|[]]); try destruct H; cbn [fst snd] in *;
    try lia;
    (split; [lia|]);
    apply orb_true_iff in E; destruct E as [E|E]; auto.
Qed.

Lemma valid_sets_enp (side : bool) (b nb : board) (fl : flags) (fro to : pos)
      (promote : ptype) :
  Inv (side, b, fl) ->
  isValidMove side b fl fro to = Ok (Some true) ->
  move side b fro to promote = Ok nb ->
  getType side nb to = kP ->
  (snd fro - snd to = 2 -> side = false /\ snd to = 5)
  /\ (snd to - snd fro = 2 -> side = true /\ snd to = 4).
Proof.
  intros (Hwf & Hfl & Hrs & Hc) Hv Hm Hg.
  destruct (isValidMove_true _ _ _ _ _ Hv) as (_ & Ho & Hmt & q & Hq & Hqt & Hin).
  apply moveTest_true in Hmt. destruct Hmt as (nbp & Hmp & Hnc).
  rewrite copy_id in Hmp.
  assert (Hto : countAt to (pieces b side) = 0%nat)
    by (apply isOccupied_false_count; [apply Hwf|assumption]).
  destruct (find_at_pos_Some _ _ _ Hq) as [Hqin Hqpos].
  rewrite rawMoves_eq in Hin. cbn [fst] in Hin.
  destruct (ptype_eqb (pt q) kK) eqn:Ek.
  - apply ptype_eqb_eq in Ek.
    rewrite (rawMovesBase_king_steps side b q (snd fl) Ek) in Hin.
    destruct (valid_king_move side b nbp fl fro to q)
      as [(i & Hi & _ & _ & _ & -> & ->)|[Hr _]]; try assumption.
    + destruct i as [|[|[|[|i]]]]; [| | | |lia]; cbn; lia.
    + lia.
  - apply ptype_eqb_neq in Ek. cbn [app] in Hin.
    destruct (ptype_eqb (pt q) kP) eqn:Ep.
    + unfold rawMovesBase in Hin. rewrite Ep in Hin.
      apply pawn_double_step in Hin.
      assert (Ey : py q = snd fro) by (rewrite <- Hqpos; reflexivity).
      rewrite Ey in Hin. exact Hin.
    + exfalso. rewrite (move_not_king side b fro to promote q Hq Ek) in Hm.
      rewrite Ep in Hm. inversion Hm; subst nb; clear Hm.
      fold (shift side b fro to) in Hg. unfold getType in Hg.
      rewrite shift_own, (find_relocate_target fro to _ q Hq Hto) in Hg.
      simpl in Hg. apply ptype_eqb_neq in Ep. congruence.
Qed.

Lemma enp_step (side : bool) (b : board) (fl : flags) (fro to : pos)
      (promote : ptype) (st' : state) :
  Inv (side, b, fl) ->
  isValidMove side b fl fro to = Ok (Some true) ->
  makeMove side b fro to fl promote = Ok st' ->
  enp_sound st'.
Proof.
  intros HI Hv Hmk. unfold makeMove in Hmk. rewrite copy_id in Hmk.
  destruct (move side b fro to promote) as [nb|e] eqn:Hm; cbn [bind] in Hmk;
    [|discriminate].
  unfold updateFlags in Hmk.
  destruct (fst fl) as [c|] eqn:Hc; cbn [bind] in Hmk; [|discriminate].
  inversion Hmk; subst st'; clear Hmk.
  unfold enp_sound. cbn [snd]. intros sq Hsq.
  destruct (ptype_eqb (getType side nb to) kP) eqn:Eg; [|discriminate].
  apply ptype_eqb_eq in Eg.
  destruct (valid_sets_enp side b nb fl fro to promote HI Hv Hm Eg) as [H1 H2].
  destruct (getType_find _ _ _ _ Eg) as (r & Hr & Hrt).
  destruct (find_at_pos_Some _ _ _ Hr) as [Hrin Hrpos].
  assert (Er : r = mkPiece (fst to) (snd to) kP).
  { destruct r as [rx ry rt]. unfold ppos in Hrpos. simpl in *.
    rewrite <- Hrpos, Hrt. reflexivity. }
  subst r. rewrite Bool.negb_involutive.
  destruct (snd fro - snd to =? 2) eqn:E1.
  - apply Z.eqb_eq in E1. destruct (H1 E1) as [-> E5].
    inversion Hsq; subst sq. cbn [fst snd negb side_int].
    split; [reflexivity|]. rewrite E5 in Hrin. exact Hrin.
  - destruct (snd to - snd fro =? 2) eqn:E2; [|discriminate].
    apply Z.eqb_eq in E2. destruct (H2 E2) as [-> E4].
    inversion Hsq; subst sq. cbn [fst snd negb side_int].
    split; [reflexivity|]. rewrite E4 in Hrin. exact Hrin.
Qed.

Lemma reachable_enp (st : state) : reachable st -> enp_sound st.
Proof.
  induction 1 as [|side b fl fro to promote st' Hr _ Hv _ Hm].
  - intros sq H. discriminate.
  - apply (enp_step side b fl fro to promote); try assumption.
    apply reachable_Inv. assumption.
Qed.

(** X9: in every reachable state the en-passant square [flags[1]], when it
    is set, lies on the rank 6 (side 1 to move) or 3 (side 0 to move), and
    a pawn of the side that has just moved stands beside it on the same
    file, on the rank [4 + side] from which the side to move captures en
    passant. *)
Theorem reachable_enp_sound (side : bool) (b : board) (fl : flags) (sq : pos) :
  reachable (side, b, fl) ->
  snd fl = Some sq ->
  snd sq = (if side then 6 else 3)
  /\ In (mkPiece (fst sq) (4 + side_int side) kP) (pieces b (negb side)).
Proof.
  intros H. apply reachable_enp in H. apply H.
Qed.

Lemma afterE4_reachable : reachable afterE4.
Proof.
  apply (reach_move false initBoard initFlags (5, 7) (5, 5) None).
  - apply reach_init.
  - vm_compute. reflexivity.
  - intros _ H. vm_compute in H. discriminate.
  - vm_compute. reflexivity.
Defined.

Lemma reachable_enp_sound_witness :
  snd (5, 6) = (if true then 6 else 3)
  /\ In (mkPiece (fst (5, 6)) (4 + side_int true) kP)
        (pieces afterE4_board (negb true)).
Proof.
  apply (reachable_enp_sound true afterE4_board (snd afterE4) (5, 6)).
  - exact afterE4_reachable.
  - reflexivity.
Defined.

(** ** No exception in a legal game *)

Lemma moveTest_no_raise (side : bool) (b : board) (fl : flags) (q : piece)
      (fro to : pos) :
  enp_sound (side, b, fl) ->
  find (at_pos fro) (pieces b side) = Some q ->
  In to (fst (rawMoves side b q fl)) ->
  exists r, moveTest side b fro to = Ok r.
Proof.
  intros He Hq Hin. unfold moveTest. rewrite copy_id.
  destruct (move side b fro to kP) as [nb|e] eqn:Hm; cbn [bind].
  { destruct (isChecked side nb) as [[|]|]; eauto. }
  exfalso. apply move_raises_iff in Hm. destruct Hm as (_ & Hg & Ha & Hno).
  unfold getType in Hg. rewrite Hq in Hg.
  destruct (find_at_pos_Some _ _ _ Hq) as [_ Hqpos].
  rewrite rawMoves_eq in Hin. cbn [fst] in Hin. rewrite Hg in Hin.
  change (ptype_eqb kP kK) with false in Hin. cbn [app] in Hin.
  unfold rawMovesBase in Hin. rewrite Hg in Hin.
  change (ptype_eqb kP kP) with true in Hin. cbv iota in Hin.
  unfold ALLOWENP in Ha.
  apply andb_true_iff in Ha. destruct Ha as [Ha Hemp].
  apply andb_true_iff in Ha. destruct Ha as [Hrank Hfile].
  apply Z.eqb_eq in Hrank. apply negb_true_iff, Z.eqb_neq in Hfile.
  assert (Ex : px q = fst fro) by (rewrite <- Hqpos; reflexivity).
  assert (Ey : py q = snd fro) by (rewrite <- Hqpos; reflexivity).
  rewrite Ex, Ey in Hin.
  destruct (pawn_diagonal side b _ _ _ to Hin Hfile) as [Hy [Hocc|Henp]].
  - destruct (isEmpty_In b [to] to Hemp) as [H0 H1]; [simpl; auto|].
    destruct side; simpl in Hocc; congruence.
  - destruct (He to Henp) as [_ Hpawn]. apply Hno.
    apply In_removeAt_keep; [rewrite Hrank; exact Hpawn|].
    unfold ppos. simpl. destruct to as [tx ty]. simpl in *. congruence.
Qed.

Lemma isValidMove_absent (side : bool) (b : board) (fl : flags)
      (fro to : pos) :
  getType side b fro = None -> isValidMove side b fl fro to = Ok None.
Proof.
  intros Hg. unfold isValidMove. rewrite Hg.
  destruct (in_bounds to && negb (isOccupied side b to)); [|reflexivity].
  rewrite rawMoves_eq. unfold gen_in. reflexivity.
Qed.

Lemma isValidMove_total (side : bool) (b : board) (fl : flags) (fro to : pos) :
  enp_sound (side, b, fl) ->
  exists r, isValidMove side b fl fro to = Ok r.
Proof.
  intros He.
  destruct (find (at_pos fro) (pieces b side)) as [q|] eqn:Hq.
  2:{ exists None. apply isValidMove_absent. unfold getType. rewrite Hq.
      reflexivity. }
  unfold isValidMove.
  destruct (in_bounds to && negb (isOccupied side b to)); [|eauto].
  rewrite (getType_found side b fro q Hq). unfold gen_in.
  destruct (pos_in to (fst (rawMoves side b q fl))) eqn:Hp.
  - cbn [bind]. apply pos_in_In in Hp.
    destruct (moveTest_no_raise side b fl q fro to He Hq Hp) as [r ->].
    cbn [bind]. eauto.
  - rewrite rawMoves_eq. cbn [snd bind]. eauto.
Qed.

Lemma availableLoop_no_raise (side : bool) (b : board) (fro : pos)
      (dests : list pos) :
  (forall d, In d dests -> exists r, moveTest side b fro d = Ok r) ->
  snd (availableLoop side b fro dests None) = None.
Proof.
  induction dests as [|d rest IH]; simpl; [reflexivity|].
  intros H.
  assert (Hrest : snd (availableLoop side b fro rest None) = None)
    by (apply IH; intros d' Hd'; apply H; auto).
  destruct (in_bounds d && negb (isOccupied side b d)); [|assumption].
  destruct (H d (or_introl eq_refl)) as [r ->]. destruct r; assumption.
Qed.

Lemma availableMoves_no_raise (side : bool) (b : board) (fl : flags)
      (p : piece) :
  enp_sound (side, b, fl) ->
  find (at_pos (ppos p)) (pieces b side) = Some p ->
  snd (availableMoves side b p fl) = None.
Proof.
  intros He Hp. unfold availableMoves.
  replace (snd (rawMoves side b p fl)) with (@None exn)
    by (rewrite rawMoves_eq; reflexivity).
  apply availableLoop_no_raise. intros d Hd.
  apply (moveTest_no_raise side b fl p); assumption.
Qed.

Lemma legalLoop_no_raise (side : bool) (b : board) (fl : flags)
      (ps : list piece) :
  (forall p, In p ps -> snd (availableMoves side b p fl) = None) ->
  snd (legalLoop side b fl ps) = None.
Proof.
  induction ps as [|p rest IH]; simpl; [reflexivity|].
  intros H. unfold gen_seq. cbn [fst snd].
  rewrite (H p (or_introl eq_refl)). cbn [snd].
  apply IH. intros p' Hp'. apply H. auto.
Qed.

Lemma wf_own_distinct (b : board) (side : bool) :
  wf_board b -> own_distinct b side.
Proof.
  intros (Hocc & _) sq. specialize (Hocc sq). unfold occupancy in Hocc.
  destruct side; lia.
Qed.

Lemma reachable_legal_no_raise (side : bool) (b : board) (fl : flags) :
  reachable (side, b, fl) -> snd (legalMoves side b fl) = None.
Proof.
  intros H. pose proof (reachable_enp _ H) as He.
  apply reachable_Inv in H. destruct H as (Hwf & _).
  unfold legalMoves. apply legalLoop_no_raise. intros p Hp.
  apply availableMoves_no_raise; [assumption|].
  apply find_unique; [assumption|]. apply wf_own_distinct. assumption.
Qed.

(** X10: no exception escapes the legality filter in a reachable state:
    [isValidMove] returns for every origin and destination, [legalMoves]
    runs to its end without an exception, and [isEnd] returns a boolean. *)
Theorem reachable_no_exception (side : bool) (b : board) (fl : flags) :
  reachable (side, b, fl) ->
  (forall fro to, exists r, isValidMove side b fl fro to = Ok r)
  /\ snd (legalMoves side b fl) = None
  /\ exists r, isEnd side b fl = Ok r.
Proof.
  intros H. pose proof (reachable_legal_no_raise side b fl H) as Hl.
  split; [|split; [assumption|]].
  - intros fro to. apply isValidMove_total. apply reachable_enp. assumption.
  - unfold isEnd. destruct (legalMoves side b fl) as [[|x l] e]; simpl in Hl;
      subst; eauto.
Qed.

Lemma reachable_no_exception_witness :
  (forall fro to, exists r,
      isValidMove true afterE4_board (snd afterE4) fro to = Ok r)
  /\ snd (legalMoves true afterE4_board (snd afterE4)) = None
  /\ exists r, isEnd true afterE4_board (snd afterE4) = Ok r.
Proof.
  apply (reachable_no_exception true afterE4_board (snd afterE4)).
  exact afterE4_reachable.
Defined.

(** X11: in every reachable state [legalMoves] yields exactly the moves
    that [isValidMove] accepts: a pair [origin, destination] is yielded if
    and only if [isValidMove] returns True for it. *)
Theorem reachable_legalMoves_exact (side : bool) (b : board) (fl : flags)
        (fro to : pos) :
  reachable (side, b, fl) ->
  (In (fro, to) (fst (legalMoves side b fl))
   <-> isValidMove side b fl fro to = Ok (Some true)).
Proof.
  intros H. pose proof (reachable_enp _ H) as He.
  pose proof (reachable_legal_no_raise side b fl H) as Hl.
  apply reachable_Inv in H. destruct H as (Hwf & _).
  pose proof (wf_own_distinct b side Hwf) as Hd.
  unfold legalMoves in *. split.
  - intros Hin. apply legalLoop_In in Hin.
    destruct Hin as (p & Hp & -> & Ha).
    apply (available_valid side b fl p); [|assumption].
    apply find_unique; [assumption|apply Hd].
  - intros Hv.
    destruct (isValidMove_true _ _ _ _ _ Hv) as (_ & _ & _ & q & Hq & _ & _).
    destruct (find_at_pos_Some _ _ _ Hq) as [Hqin Hqpos].
    rewrite <- Hqpos. apply legalLoop_complete; try assumption.
    apply (valid_available side b fl q fro to); try assumption.
    apply availableMoves_no_raise; [assumption|].
    rewrite Hqpos. assumption.
Qed.

Lemma reachable_legalMoves_exact_witness :
  In ((5, 2), (5, 4)) (fst (legalMoves true afterE4_board (snd afterE4)))
  <-> isValidMove true afterE4_board (snd afterE4) (5, 2) (5, 4)
      = Ok (Some true).
Proof.
  apply (reachable_legalMoves_exact true afterE4_board (snd afterE4)
                                    (5, 2) (5, 4)).
  exact afterE4_reachable.
Defined.

(** ** What castling does *)

Lemma hop_rook (side : bool) (b1 : board) (x x' : Z) (r : piece) :
  own_distinct b1 side -> In r (pieces b1 side) -> ppos r = (x, DOWN side) ->
  In (mkPiece x' (DOWN side) (pt r))
     (pieces (shift side b1 (x, DOWN side) (x', DOWN side)) side).
Proof.
  intros Hd Hr Hpos. rewrite shift_own.
  apply (relocate_present (x, DOWN side) (x', DOWN side)).
  rewrite <- Hpos. apply find_unique; [assumption|apply Hd].
Qed.

Lemma hop_keeps (side : bool) (b1 : board) (fro to : pos) (k : piece) :
  In k (pieces b1 side) -> ppos k <> fro ->
  In k (pieces (shift side b1 fro to) side).
Proof.
  intros Hk Hpos. rewrite shift_own. apply In_relocate_keep; assumption.
Qed.

Lemma castled_flags (side : bool) (b' : board) (fl fl' : flags) (x : Z) :
  kings b' side = 1%nat ->
  In (mkPiece x (DOWN side) kK) (pieces b' side) -> x <> 5 ->
  (forall j, (j < 4)%nat ->
             right j fl' = right j fl
                           && has_piece b' (rightSide j) (homeKing j)
                           && has_piece b' (rightSide j) (homeRook j)) ->
  forall j, (j < 4)%nat -> rightSide j = side -> right j fl' = false.
Proof.
  intros Hk Hin Hx Hflag j Hj Hs. rewrite (Hflag j Hj).
  destruct (has_piece b' (rightSide j) (homeKing j)) eqn:E;
    [exfalso|destruct (right j fl); reflexivity].
  apply has_piece_In in E. rewrite Hs in E.
  assert (Eq : homeKing j = mkPiece x (DOWN side) kK).
  { apply (king_unique (pieces b' side)); auto. apply homeKing_is_king. }
  unfold homeKing in Eq. rewrite Hs in Eq.
  destruct side; inversion Eq; congruence.
Qed.

(** X12: castling in a reachable state.  When [isValidMove] accepts a king
    move of two files, the king started from its home square [5, DOWN],
    and after [makeMove] it stands on the destination, the rook of that
    wing stands on the square the king crossed, and both castling flags of
    the mover are cleared. *)
Theorem castling_relocates_rook (side : bool) (b b' : board) (fl fl' : flags)
        (fro to : pos) (promote : ptype) :
  reachable (side, b, fl) ->
  isValidMove side b fl fro to = Ok (Some true) ->
  getType side b fro = kK ->
  (fst fro - fst to = 2 \/ fst to - fst fro = 2) ->
  makeMove side b fro to fl promote = Ok (negb side, b', fl') ->
  fro = (5, DOWN side) /\ snd to = DOWN side
  /\ In (mkPiece (fst to) (DOWN side) kK) (pieces b' side)
  /\ In (mkPiece ((fst fro + fst to) / 2) (DOWN side) kR) (pieces b' side)
  /\ (forall i, (i < 4)%nat -> rightSide i = side -> right i fl' = false).
Proof.
  intros Hre Hv Hg Hd Hmk.
  pose proof (reachable_Inv _ Hre) as HI.
  assert (HI' : Inv (negb side, b', fl')).
  { apply (Inv_step side b fl fro to promote); try assumption.
    intros Hp. rewrite Hg in Hp. discriminate. }
  destruct HI' as (Hwf' & _).
  apply (wf_board_side side) in Hwf'. destruct Hwf' as (_ & Hks' & _).
  pose proof (fun j Hj => makeMove_flag j _ _ _ _ _ _ _ _ _ Hj Hmk) as Hflag.
  assert (Hm : move side b fro to promote = Ok b').
  { unfold makeMove in Hmk. rewrite copy_id in Hmk.
    destruct (move side b fro to promote); cbn [bind] in Hmk; [|discriminate].
    destruct (updateFlags _ _ _ _ _); cbn [bind] in Hmk; [|discriminate].
    inversion Hmk; reflexivity. }
  clear Hmk. destruct HI as (Hwf & Hfl & Hrs & Hc).
  destruct (isValidMove_true _ _ _ _ _ Hv) as (_ & Ho & Hmt & q & Hq & Hqt & Hin).
  assert (Hk : pt q = kK) by (unfold getType in Hg; rewrite Hq in Hg; exact Hg).
  apply moveTest_true in Hmt. destruct Hmt as (nbp & Hmp & Hnc).
  rewrite copy_id in Hmp.
  rewrite rawMoves_eq in Hin. cbn [fst] in Hin. rewrite Hk in Hin.
  change (ptype_eqb kK kK) with true in Hin. cbv iota in Hin.
  rewrite (rawMovesBase_king_steps side b q (snd fl) Hk) in Hin.
  destruct (valid_king_move side b nbp fl fro to q)
    as [(i & Hi & Hs & Hr & He & Efro & Eto)|[_ Hx]]; try assumption;
    [|lia].
  destruct (Hrs i Hi Hr) as [HhK HhR]. rewrite Hs in HhK, HhR.
  assert (Hv0 : forall sq s, In sq (castleBetween i) ->
                             countAt sq (pieces b s) = 0%nat).
  { intros sq s Hsq. apply (isEmpty_no_piece b (castleBetween i)); try assumption.
    apply Hwf. }
  assert (Hdest : In to (castleBetween i)).
  { rewrite Eto. destruct i as [|[|[|[|i]]]]; simpl; auto; lia. }
  assert (Hwf1 : wf_board (shift side b fro to))
    by (apply shift_wf_vacant; auto).
  pose proof (wf_own_distinct _ side Hwf1) as Hd1.
  assert (Hking1 : In (mkPiece (fst to) (snd to) kK)
                      (pieces (shift side b fro to) side)).
  { rewrite shift_own, <- Hk. apply relocate_present. assumption. }
  assert (Hrook1 : In (homeRook i) (pieces (shift side b fro to) side)).
  { apply hop_keeps; [assumption|]. rewrite Efro.
    destruct i as [|[|[|[|i]]]]; [| | | |lia]; cbn; discriminate. }
  rewrite (move_king_cases side b fro to promote q Hq Hk) in Hm.
  cbv zeta in Hm. injection Hm as Hb'.
  clear Hq Hmp Hnc Hin Hv Hg Hre.
  clear HhK HhR Hv0 Hdest Hr He.
  destruct i as [|[|[|[|i]]]]; [| | | |lia];
    cbn [rightSide Nat.leb kingHome castleDest homeRook] in Hs, Efro, Eto, Hrook1;
    subst side fro to; cbn [fst snd DOWN] in Hb', Hking1, Hrook1, Hd1.
  - change (5 - 3 =? 2) with true in Hb'. cbv iota in Hb'. subst b'.
    assert (HK : In (mkPiece 3 8 kK)
                    (pieces (shift false (shift false b (5, 8) (3, 8))
                                   (1, 8) (4, 8)) false))
      by (apply hop_keeps; [assumption|cbn; discriminate]).
    split; [reflexivity|]. split; [reflexivity|]. split; [exact HK|].
    split.
    + change (In (mkPiece 4 (DOWN false) (pt (mkPiece 1 8 kR)))
                 (pieces (shift false (shift false b (5, 8) (3, 8))
                                (1, DOWN false) (4, DOWN false)) false)).
      apply hop_rook; auto.
    + eapply (castled_flags false _ fl fl' 3);
        [exact Hks'|exact HK|lia|exact Hflag].
  - change (5 - 7 =? 2) with false in Hb'.
    change (7 - 5 =? 2) with true in Hb'. cbv iota in Hb'.
    pose proof (find_unique _ (mkPiece 8 8 kR) Hrook1 (Hd1 _)) as Hf.
    change (ppos (mkPiece 8 8 kR)) with (8, 8) in Hf. rewrite Hf in Hb'.
    change (ptype_eqb (pt (mkPiece 8 8 kR)) kK) with false in Hb'.
    cbv iota in Hb'. subst b'.
    assert (HK : In (mkPiece 7 8 kK)
                    (pieces (shift false (shift false b (5, 8) (7, 8))
                                   (8, 8) (6, 8)) false))
      by (apply hop_keeps; [assumption|cbn; discriminate]).
    split; [reflexivity|]. split; [reflexivity|]. split; [exact HK|].
    split.
    + change (In (mkPiece 6 (DOWN false) (pt (mkPiece 8 8 kR)))
                 (pieces (shift false (shift false b (5, 8) (7, 8))
                                (8, DOWN false) (6, DOWN false)) false)).
      apply hop_rook; auto.
    + eapply (castled_flags false _ fl fl' 7);
        [exact Hks'|exact HK|lia|exact Hflag].
  - change (5 - 3 =? 2) with true in Hb'. cbv iota in Hb'. subst b'.
    assert (HK : In (mkPiece 3 1 kK)
                    (pieces (shift true (shift true b (5, 1) (3, 1))
                                   (1, 1) (4, 1)) true))
      by (apply hop_keeps; [assumption|cbn; discriminate]).
    split; [reflexivity|]. split; [reflexivity|]. split; [exact HK|].
    split.
    + change (In (mkPiece 4 (DOWN true) (pt (mkPiece 1 1 kR)))
                 (pieces (shift true (shift true b (5, 1) (3, 1))
                                (1, DOWN true) (4, DOWN true)) true)).
      apply hop_rook; auto.
    + eapply (castled_flags true _ fl fl' 3);
        [exact Hks'|exact HK|lia|exact Hflag].
  - change (5 - 7 =? 2) with false in Hb'.
    change (7 - 5 =? 2) with true in Hb'. cbv iota in Hb'.
    pose proof (find_unique _ (mkPiece 8 1 kR) Hrook1 (Hd1 _)) as Hf.
    change (ppos (mkPiece 8 1 kR)) with (8, 1) in Hf. rewrite Hf in Hb'.
    change (ptype_eqb (pt (mkPiece 8 1 kR)) kK) with false in Hb'.
    cbv iota in Hb'. subst b'.
    assert (HK : In (mkPiece 7 1 kK)
                    (pieces (shift true (shift true b (5, 1) (7, 1))
                                   (8, 1) (6, 1)) true))
      by (apply hop_keeps; [assumption|cbn; discriminate]).
    split; [reflexivity|]. split; [reflexivity|]. split; [exact HK|].
    split.
    + change (In (mkPiece 6 (DOWN true) (pt (mkPiece 8 1 kR)))
                 (pieces (shift true (shift true b (5, 1) (7, 1))
                                (8, DOWN true) (6, DOWN true)) true)).
      apply hop_rook; auto.
    + eapply (castled_flags true _ fl fl' 7);
        [exact Hks'|exact HK|lia|exact Hflag].
Qed.

Lemma castling_relocates_rook_witness :
  (5, 8) = (5, DOWN false) /\ snd (7, 8) = DOWN false
  /\ In (mkPiece (fst (7, 8)) (DOWN false) kK) (pieces (snd (fst castled)) false)
  /\ In (mkPiece ((fst (5, 8) + fst (7, 8)) / 2) (DOWN false) kR)
        (pieces (snd (fst castled)) false)
  /\ (forall i, (i < 4)%nat -> rightSide i = false ->
                right i (snd castled) = false).
Proof.
  apply (castling_relocates_rook false (snd (fst castleReady))
           (snd (fst castled)) (snd castleReady) (snd castled)
           (5, 8) (7, 8) None).
  - exact castleReady_reachable.
  - vm_compute. reflexivity.
  - vm_compute. reflexivity.
  - right. reflexivity.
  - vm_compute. reflexivity.
Defined.

(** ** What a validated move leaves on the board *)

Lemma count_zero_unoccupied (s : bool) (b : board) (sq : pos) :
  countAt sq (pieces b s) = 0%nat -> isOccupied s b sq = false.
Proof.
  intros H. apply countAt_zero_find in H. unfold isOccupied, getType.
  rewrite H. reflexivity.
Qed.

Lemma shift_moved (side : bool) (b : board) (fro to : pos) (q : piece) :
  wf_board b ->
  find (at_pos fro) (pieces b side) = Some q ->
  countAt to (pieces b side) = 0%nat ->
  moved side fro to (pt q) (shift side b fro to).
Proof.
  intros Hwf Hq Hto. unfold moved. rewrite shift_own, shift_opp.
  pose proof (proj1 Hwf to) as Hocc. pose proof (proj1 Hwf fro) as Hocf.
  rewrite (countAt_occupancy side) in Hocc, Hocf.
  destruct (find_at_pos_Some _ _ _ Hq) as [Hqin Hqpos].
  pose proof (countAt_pos_In fro _ q Hqin Hqpos) as Hge.
  split; [|split; [|split]].
  - pose proof (countAt_relocate fro to fro _ q Hq) as Hc.
    rewrite pos_eqb_refl in Hc.
    destruct (pos_eqb to fro) eqn:E; [|lia].
    apply pos_eqb_eq in E. subst to. lia.
  - rewrite countAt_removeAt_same. lia.
  - apply relocate_present. assumption.
  - pose proof (countAt_relocate fro to to _ q Hq) as Hc.
    rewrite pos_eqb_refl in Hc. destruct (pos_eqb fro to); lia.
Qed.

Lemma hop_moved (side : bool) (b1 : board) (fro to s d : pos) (t : ptype) :
  moved side fro to t b1 -> s <> to -> d <> fro -> d <> to ->
  moved side fro to t (shift side b1 s d).
Proof.
  intros (H1 & H2 & H3 & H4) Hs Hd Hdt. split; [|split; [|split]].
  - apply shift_count_own; [assumption|congruence].
  - apply shift_count_opp. assumption.
  - apply hop_keeps; [assumption|]. unfold ppos. simpl.
    destruct to; simpl. congruence.
  - rewrite shift_own.
    destruct (find (at_pos s) (pieces b1 side)) as [r|] eqn:Hf.
    + pose proof (countAt_relocate s d to _ r Hf) as Hc.
      rewrite (proj2 (pos_eqb_neq d to)) in Hc by assumption.
      destruct (pos_eqb s to); lia.
    + rewrite relocate_absent; assumption.
Qed.

Lemma enPassant_moved (side : bool) (b1 b2 : board) (fro to : pos)
      (t : ptype) (allow : bool) :
  moved side fro to t b1 ->
  enPassant side b1 fro to allow = Ok b2 ->
  moved side fro to t b2.
Proof.
  intros (H1 & H2 & H3 & H4) He.
  pose proof (enPassant_same _ _ _ _ _ _ He) as Hs.
  unfold moved. rewrite Hs. split; [assumption|]. split; [|split; assumption].
  unfold enPassant in He. destruct allow.
  - destruct (list_remove _ _) as [l|e] eqn:Hl; cbn [bind] in He;
      [|discriminate].
    inversion He; subst. rewrite pieces_set_same.
    pose proof (countAt_list_remove_le _ _ _ to Hl). lia.
  - inversion He; subst. assumption.
Qed.

Lemma promotion_moved (side : bool) (b1 b2 : board) (fro to : pos)
      (promote : ptype) :
  moved side fro to kP b1 -> fro <> to ->
  promotion side b1 to kP promote = Ok b2 ->
  moved side fro to (if snd to =? UP side then promote else kP) b2.
Proof.
  intros (H1 & H2 & H3 & H4) Hne. unfold promotion.
  destruct (snd to =? UP side) eqn:Eu.
  - destruct (list_remove _ _) as [l|e] eqn:Hl; cbn [bind]; [|discriminate].
    intros H; inversion H; subst. unfold moved.
    rewrite pieces_set_same, pieces_set_other.
    apply Z.eqb_eq in Eu. split; [|split; [assumption|split]].
    + rewrite countAt_app.
      pose proof (countAt_list_remove_le _ _ _ fro Hl) as Hle.
      rewrite <- Eu, countAt_cons, at_pos_mk.
      replace (pos_eqb to fro) with false.
      * change (countAt fro []) with 0%nat. lia.
      * symmetry. apply pos_eqb_neq. congruence.
    + apply in_or_app. right. rewrite <- Eu. simpl. auto.
    + rewrite countAt_app.
      pose proof (countAt_list_remove _ _ _ to Hl) as Hc.
      rewrite at_pos_mk, pos_eqb_refl in Hc.
      rewrite <- Eu, countAt_cons, at_pos_mk, pos_eqb_refl.
      change (countAt to []) with 0%nat. lia.
  - intros H; inversion H; subst. repeat split; auto.
Qed.

Lemma moved_facts (side : bool) (b : board) (fro to : pos) (t : ptype) :
  moved side fro to t b ->
  isOccupied side b fro = false
  /\ isOccupied (negb side) b to = false
  /\ getType side b to = t.
Proof.
  intros (H1 & H2 & H3 & H4).
  split; [apply count_zero_unoccupied; assumption|].
  split; [apply count_zero_unoccupied; assumption|].
  unfold getType.
  assert (H4' : (countAt (ppos (mkPiece (fst to) (snd to) t))
                         (pieces b side) <= 1)%nat).
  { unfold ppos. cbn [px py].
    replace (fst to, snd to) with to by (destruct to; reflexivity).
    exact H4. }
  pose proof (find_unique _ _ H3 H4') as Hf.
  unfold ppos in Hf. simpl in Hf.
  replace (fst to, snd to) with to in Hf by (destruct to; reflexivity).
  rewrite Hf. reflexivity.
Qed.

Lemma valid_move_moved (side : bool) (b b' : board) (fl : flags)
      (fro to : pos) (promote : ptype) :
  Inv (side, b, fl) ->
  isValidMove side b fl fro to = Ok (Some true) ->
  move side b fro to promote = Ok b' ->
  moved side fro to
        (if ptype_eqb (getType side b fro) kP && (snd to =? UP side)
         then promote else getType side b fro)
        b'.
Proof.
  intros (Hwf & Hfl & Hrs & Hc) Hv Hm.
  destruct (isValidMove_true _ _ _ _ _ Hv) as (_ & Ho & Hmt & q & Hq & Hqt & Hin).
  apply moveTest_true in Hmt. destruct Hmt as (nbp & Hmp & Hnc).
  rewrite copy_id in Hmp.
  assert (Hto : countAt to (pieces b side) = 0%nat)
    by (apply isOccupied_false_count; [apply Hwf|assumption]).
  destruct (find_at_pos_Some _ _ _ Hq) as [Hqin Hqpos].
  pose proof (shift_moved side b fro to q Hwf Hq Hto) as H1.
  assert (Hne : fro <> to).
  { intros E. subst to. pose proof (countAt_pos_In fro _ q Hqin Hqpos). lia. }
  assert (Hg : getType side b fro = pt q) by (unfold getType; rewrite Hq; reflexivity).
  rewrite Hg. rewrite rawMoves_eq in Hin. cbn [fst] in Hin.
  destruct (ptype_eqb (pt q) kK) eqn:Ek.
  - apply ptype_eqb_eq in Ek.
    rewrite (rawMovesBase_king_steps side b q (snd fl) Ek) in Hin.
    rewrite (move_king_cases side b fro to promote q Hq Ek) in Hm.
    cbv zeta in Hm. injection Hm as Hb'. rewrite Ek in *.
    change (ptype_eqb kK kP) with false. cbn [andb].
    assert (Hcase : (fst fro = 5 /\ (fst to = 3 \/ fst to = 7))
                    \/ -1 <= fst to - fst fro <= 1).
    { destruct (valid_king_move side b nbp fl fro to q)
        as [(i & Hi & _ & _ & _ & Efro & Eto)|[_ Hx]]; try assumption;
        [left|right; exact Hx].
      rewrite Efro, Eto.
      destruct i as [|[|[|[|i]]]]; [| | | |lia]; cbn; lia. }
    assert (Hs : forall c, (c, DOWN side) = to -> fst to = c)
      by (intros c E; rewrite <- E; reflexivity).
    assert (Hd : forall c, (c, DOWN side) = fro -> fst fro = c)
      by (intros c E; rewrite <- E; reflexivity).
    destruct (fst fro - fst to =? 2) eqn:E1;
      [apply Z.eqb_eq in E1|apply Z.eqb_neq in E1;
       destruct (fst to - fst fro =? 2) eqn:E2;
       [apply Z.eqb_eq in E2|]];
      try (destruct (find _ _) as [r|] in Hb';
           [destruct (ptype_eqb (pt r) kK) in Hb'|]);
      subst b';
      repeat (apply hop_moved;
              [|intros E; apply Hs in E; lia|intros E; apply Hd in E; lia
               |intros E; apply Hs in E; lia]);
      exact H1.
  - pose proof Ek as Ek'. apply ptype_eqb_neq in Ek'.
    rewrite (move_not_king side b fro to promote q Hq Ek') in Hm.
    destruct (ptype_eqb (pt q) kP) eqn:Ep.
    + apply ptype_eqb_eq in Ep. rewrite Ep in *. cbn [andb].
      fold (shift side b fro to) in Hm.
      destruct (promotion side (shift side b fro to) to kP promote)
        as [b2|e] eqn:Hpr; cbn [bind] in Hm; [|discriminate].
      apply (enPassant_moved side b2 b' fro to _ _) with (2 := Hm).
      apply (promotion_moved side (shift side b fro to)); assumption.
    + cbn [andb]. inversion Hm; subst b'. exact H1.
Qed.

(** X25: what a validated move leaves on the board.  After [makeMove] has
    applied, in a reachable state, a move that [isValidMove] accepted, no
    piece of the mover stands on the origin, no piece of the other side
    stands on the destination, and the mover's piece on the destination has
    the type of the piece that moved, or the promotion type handed to
    [makeMove], whatever it is, when a pawn reached its last rank. *)
Theorem valid_move_effect (side : bool) (b b' : board) (fl fl' : flags)
        (fro to : pos) (promote : ptype) :
  reachable (side, b, fl) ->
  isValidMove side b fl fro to = Ok (Some true) ->
  makeMove side b fro to fl promote = Ok (negb side, b', fl') ->
  isOccupied side b' fro = false
  /\ isOccupied (negb side) b' to = false
  /\ getType side b' to
     = (if ptype_eqb (getType side b fro) kP && (snd to =? UP side)
        then promote else getType side b fro).
Proof.
  intros Hre Hv Hmk.
  pose proof (reachable_Inv _ Hre) as HI.
  assert (Hm : move side b fro to promote = Ok b').
  { unfold makeMove in Hmk. rewrite copy_id in Hmk.
    destruct (move side b fro to promote); cbn [bind] in Hmk; [|discriminate].
    destruct (updateFlags _ _ _ _ _); cbn [bind] in Hmk; [|discriminate].
    inversion Hmk; reflexivity. }
  apply (moved_facts side b' fro to).
  apply (valid_move_moved side b b' fl); assumption.
Qed.

Lemma valid_move_effect_witness :
  isOccupied false (snd (fst castled)) (5, 8) = false
  /\ isOccupied (negb false) (snd (fst castled)) (7, 8) = false
  /\ getType false (snd (fst castled)) (7, 8)
     = (if ptype_eqb (getType false (snd (fst castleReady)) (5, 8)) kP
           && (snd (7, 8) =? UP false)
        then kQ else getType false (snd (fst castleReady)) (5, 8)).
Proof.
  apply (valid_move_effect false (snd (fst castleReady)) (snd (fst castled))
           (snd castleReady) (snd castled) (5, 8) (7, 8) kQ).
  - exact castleReady_reachable.
  - vm_compute. reflexivity.
  - vm_compute. reflexivity.
Defined.

(** ** Capturing en passant *)

Lemma pawn_diagonal_rank (side : bool) (b : board) (x y : Z) (enp : option pos)
      (to : pos) :
  In to (pawnMoves side b x y enp) -> fst to <> x ->
  snd to = y + forward side.
Proof.
  unfold pawnMoves. destruct side; cbn [negb flat_map forward];
    rewrite !in_app_iff; intros [H|[H|[H|[H|H]]]] Hx;
    repeat match type of H with
    | In _ (if ?c then _ else _) =>
        let E := fresh "E" in destruct c eqn:E; [|destruct H]
    end;
    try (destruct H as [<-|[]]); try destruct H; cbn [fst snd] in *;
    lia.
Qed.

Lemma count_zero_removeAt (sq : pos) (l : list piece) :
  countAt sq l = 0%nat -> removeAt sq l = l.
Proof.
  intros H. apply removeAt_not_at. apply countAt_zero. assumption.
Qed.

(** X26: capturing en passant.  When, in a reachable state, a pawn makes a
    valid move to another file onto a square where no opposing piece stands,
    that square is the en-passant square of the flags, an opposing pawn
    stands beside the origin on the destination's file, and [makeMove]
    removes it: its square is free of the other side afterwards, and the
    other side has one piece less. *)
Theorem en_passant_capture (side : bool) (b b' : board) (fl fl' : flags)
        (fro to : pos) (promote : ptype) :
  reachable (side, b, fl) ->
  isValidMove side b fl fro to = Ok (Some true) ->
  getType side b fro = kP ->
  fst to <> fst fro ->
  isOccupied (negb side) b to = false ->
  makeMove side b fro to fl promote = Ok (negb side, b', fl') ->
  snd fl = Some to
  /\ In (mkPiece (fst to) (snd fro) kP) (pieces b (negb side))
  /\ isOccupied (negb side) b' (fst to, snd fro) = false
  /\ S (List.length (pieces b' (negb side)))
     = List.length (pieces b (negb side)).
Proof.
  intros Hre Hv Hg Hx Hopp Hmk.
  pose proof (reachable_Inv _ Hre) as HI.
  pose proof (reachable_enp _ Hre) as He.
  cbv beta iota delta [enp_sound] in He.
  destruct HI as (Hwf & Hfl & Hrs & Hc).
  assert (Hm : move side b fro to promote = Ok b').
  { unfold makeMove in Hmk. rewrite copy_id in Hmk.
    destruct (move side b fro to promote); cbn [bind] in Hmk; [|discriminate].
    destruct (updateFlags _ _ _ _ _); cbn [bind] in Hmk; [|discriminate].
    inversion Hmk; reflexivity. }
  clear Hmk.
  destruct (isValidMove_true _ _ _ _ _ Hv) as (_ & Ho & _ & q & Hq & _ & Hin).
  assert (Hp : pt q = kP) by (unfold getType in Hg; rewrite Hq in Hg; exact Hg).
  destruct (find_at_pos_Some _ _ _ Hq) as [Hqin Hqpos].
  assert (Exy : px q = fst fro /\ py q = snd fro)
    by (rewrite <- Hqpos; split; reflexivity).
  destruct Exy as [Ex Ey].
  (* the candidate is a diagonal pawn step, allowed by the en-passant flag *)
  rewrite rawMoves_eq in Hin. cbn [fst] in Hin. unfold rawMovesBase in Hin.
  rewrite Hp in Hin. change (ptype_eqb kP kK) with false in Hin.
  change (ptype_eqb kP kP) with true in Hin. cbn [app] in Hin.
  rewrite Ex, Ey in Hin.
  pose proof (pawn_diagonal_rank _ _ _ _ _ _ Hin Hx) as Hrank.
  destruct (pawn_diagonal _ _ _ _ _ _ Hin Hx) as [_ [Hocc|Henp]];
    [congruence|].
  destruct (He to Henp) as [Hsq Hpawn].
  assert (Erow : snd fro = 4 + side_int side)
    by (destruct side; cbn [forward side_int] in *; lia).
  rewrite <- Erow in Hpawn.
  assert (Hup : snd to <> UP side) by (destruct side; cbn [UP]; lia).
  (* the opposing list is untouched until the en-passant removal *)
  assert (Hto0 : countAt to (pieces b (negb side)) = 0%nat)
    by (apply isOccupied_false_count; [apply Hwf|assumption]).
  assert (Hallow : ALLOWENP side b fro to = true).
  { unfold ALLOWENP. rewrite isEmpty_single.
    replace (snd fro =? 4 + side_int side) with true
      by (symmetry; apply Z.eqb_eq; assumption).
    replace (fst to =? fst fro) with false
      by (symmetry; apply Z.eqb_neq; assumption).
    destruct side; cbn [negb] in Ho, Hopp; rewrite Ho, Hopp; reflexivity. }
  assert (Hkk : pt q <> kK) by (rewrite Hp; discriminate).
  rewrite (move_not_king side b fro to promote q Hq Hkk) in Hm.
  rewrite Hp, Hallow in Hm. change (ptype_eqb kP kP) with true in Hm.
  fold (shift side b fro to) in Hm. unfold promotion in Hm.
  replace (snd to =? UP side) with false in Hm
    by (symmetry; apply Z.eqb_neq; assumption).
  cbn [bind] in Hm. unfold enPassant in Hm.
  rewrite shift_opp, (count_zero_removeAt _ _ Hto0) in Hm.
  destruct (list_remove _ _) as [l|e] eqn:Hl; cbn [bind] in Hm;
    [|discriminate].
  injection Hm as Hb'. subst b'. rewrite pieces_set_same.
  split; [exact Henp|]. split; [exact Hpawn|]. split.
  - apply count_zero_unoccupied. rewrite pieces_set_same.
    pose proof (countAt_list_remove _ _ _ (fst to, snd fro) Hl) as Hc1.
    change (mkPiece (fst to) (snd fro) kP)
      with (mkPiece (fst (fst to, snd fro)) (snd (fst to, snd fro)) kP) in Hc1.
    rewrite at_pos_mk, pos_eqb_refl in Hc1.
    pose proof (wf_own_distinct _ (negb side) Hwf (fst to, snd fro)) as Hd.
    lia.
  - apply (length_list_remove _ _ _ Hl).
Qed.

Lemma enpReady_reachable : reachable enpReady.
Proof.
  apply (play_reachable
           [((5, 7), (5, 5)); ((1, 2), (1, 3)); ((5, 5), (5, 4));
            ((4, 2), (4, 4))]
           initBoardVars).
  - apply reach_init.
  - vm_compute. reflexivity.
Defined.

Lemma en_passant_capture_witness :
  snd (snd enpReady) = Some (4, 3)
  /\ In (mkPiece (fst (4, 3)) (snd (5, 4)) kP)
        (pieces (snd (fst enpReady)) (negb false))
  /\ isOccupied (negb false) (snd (fst enpTaken)) (fst (4, 3), snd (5, 4))
     = false
  /\ S (List.length (pieces (snd (fst enpTaken)) (negb false)))
     = List.length (pieces (snd (fst enpReady)) (negb false)).
Proof.
  apply (en_passant_capture false (snd (fst enpReady)) (snd (fst enpTaken))
           (snd enpReady) (snd enpTaken) (5, 4) (4, 3) None).
  - exact enpReady_reachable.
  - vm_compute. reflexivity.
  - vm_compute. reflexivity.
  - vm_compute. discriminate.
  - vm_compute. reflexivity.
  - vm_compute. reflexivity.
Defined.

(** ** The pieces stay on the board *)

Lemma shift_on_board (side : bool) (b : board) (fro to : pos) :
  on_board b -> in_bounds to = true -> on_board (shift side b fro to).
Proof.
  intros Hb Hto s p Hp.
  assert (Hs : s = side \/ s = negb side) by (destruct s, side; auto).
  destruct Hs as [->| ->].
  - rewrite shift_own in Hp. apply relocate_In in Hp.
    destruct Hp as [Hp|(q & _ & _ & ->)]; [apply (Hb side); assumption|].
    unfold ppos. cbn [px py].
    replace (fst to, snd to) with to by (destruct to; reflexivity).
    assumption.
  - rewrite shift_opp in Hp. apply removeAt_In in Hp.
    apply (Hb (negb side)). assumption.
Qed.

Lemma promotion_on_board (side : bool) (b b1 : board) (to : pos)
      (t promote : ptype) :
  on_board b -> in_bounds to = true ->
  promotion side b to t promote = Ok b1 -> on_board b1.
Proof.
  intros Hb Hto. unfold promotion. destruct (snd to =? UP side) eqn:Eu.
  - destruct (list_remove _ _) as [l|e] eqn:Hl; cbn [bind]; [|discriminate].
    intros H; inversion H; subst b1; clear H. intros s p Hp.
    assert (Hs : s = side \/ s = negb side) by (destruct s, side; auto).
    destruct Hs as [->| ->].
    + rewrite pieces_set_same in Hp. apply in_app_or in Hp.
      destruct Hp as [Hp|[<-|[]]].
      * apply (Hb side). apply (list_remove_In _ _ _ _ Hl Hp).
      * apply Z.eqb_eq in Eu. rewrite <- Eu. unfold ppos. cbn [px py].
        replace (fst to, snd to) with to by (destruct to; reflexivity).
        assumption.
    + rewrite pieces_set_other in Hp. apply (Hb (negb side)). assumption.
  - intros H; inversion H; subst; assumption.
Qed.

Lemma enPassant_on_board (side : bool) (b b1 : board) (fro to : pos)
      (allow : bool) :
  on_board b -> enPassant side b fro to allow = Ok b1 -> on_board b1.
Proof.
  intros Hb. unfold enPassant. destruct allow.
  - destruct (list_remove _ _) as [l|e] eqn:Hl; cbn [bind]; [|discriminate].
    intros H; inversion H; subst b1; clear H. intros s p Hp.
    assert (Hs : s = side \/ s = negb side) by (destruct s, side; auto).
    destruct Hs as [->| ->].
    + rewrite pieces_set_negb in Hp. apply (Hb side). assumption.
    + rewrite pieces_set_same in Hp. apply (Hb (negb side)).
      apply (list_remove_In _ _ _ _ Hl Hp).
  - intros H; inversion H; subst; assumption.
Qed.

Lemma valid_move_on_board (side : bool) (b b' : board) (fl : flags)
      (fro to : pos) (promote : ptype) :
  on_board b ->
  isValidMove side b fl fro to = Ok (Some true) ->
  move side b fro to promote = Ok b' ->
  on_board b'.
Proof.
  intros Hb Hv Hm.
  destruct (isValidMove_true _ _ _ _ _ Hv) as (Hto & _ & _ & q & Hq & _ & _).
  pose proof (shift_on_board side b fro to Hb Hto) as H1.
  assert (Hrow : forall c, 1 <= c <= 8 -> in_bounds (c, DOWN side) = true).
  { intros c Hc. apply in_bounds_iff. destruct side; cbn [fst snd DOWN]; lia. }
  destruct (ptype_eqb (pt q) kK) eqn:Ek.
  - apply ptype_eqb_eq in Ek.
    rewrite (move_king_cases side b fro to promote q Hq Ek) in Hm.
    cbv zeta in Hm. injection Hm as Hb'.
    destruct (fst fro - fst to =? 2);
      [|destruct (fst to - fst fro =? 2);
        [destruct (find _ _) as [r|] in Hb';
         [destruct (ptype_eqb (pt r) kK) in Hb'|]|]];
      subst b'; repeat (apply shift_on_board; [|apply Hrow; lia]);
      exact H1.
  - apply ptype_eqb_neq in Ek.
    rewrite (move_not_king side b fro to promote q Hq Ek) in Hm.
    fold (shift side b fro to) in Hm.
    destruct (ptype_eqb (pt q) kP).
    + destruct (promotion side (shift side b fro to) to (pt q) promote)
        as [b2|e] eqn:Hpr; cbn [bind] in Hm; [|discriminate].
      apply (enPassant_on_board side b2 b' fro to _) with (2 := Hm).
      apply (promotion_on_board side (shift side b fro to) b2 to (pt q) promote);
        assumption.
    + inversion Hm; subst b'. exact H1.
Qed.

(** X27: the pieces stay on the board.  In every state reached from the
    initial one by moves that [isValidMove] accepted and [makeMove] applied,
    whatever promotion type [makeMove] was handed, every piece of either
    side has its file and its rank between 1 and 8. *)
Theorem validated_on_board (side s : bool) (b : board) (fl : flags)
        (p : piece) :
  validated (side, b, fl) ->
  In p (pieces b s) ->
  1 <= px p <= 8 /\ 1 <= py p <= 8.
Proof.
  intros Hre Hp.
  assert (H : on_board (snd (fst (side, b, fl)))).
  { clear Hp. induction Hre as [|sd b0 fl0 fro to promote st' Hr IH Hv Hmk].
    - intros s0 q Hq. destruct s0; cbn in Hq;
        repeat (destruct Hq as [<-|Hq]; [reflexivity|]); destruct Hq.
    - unfold makeMove in Hmk. rewrite copy_id in Hmk.
      destruct (move sd b0 fro to promote) as [nb|e] eqn:Hm;
        cbn [bind] in Hmk; [|discriminate].
      destruct (updateFlags _ _ _ _ _); cbn [bind] in Hmk; [|discriminate].
      inversion Hmk; subst st'. cbn [fst snd] in *.
      apply (valid_move_on_board sd b0 nb fl0 fro to promote); assumption. }
  cbn [fst snd] in H. apply (in_bounds_iff (ppos p)). apply (H s). assumption.
Qed.

Lemma twoKings_validated : validated twoKings.
Proof.
  apply (playWith_validated kingPromotionGame initBoardVars).
  - apply valid_init.
  - vm_compute. reflexivity.
Defined.

Lemma validated_on_board_witness :
  1 <= px (mkPiece 8 1 kK) <= 8 /\ 1 <= py (mkPiece 8 1 kK) <= 8.
Proof.
  apply (validated_on_board true false (snd (fst twoKings)) (snd twoKings)
           (mkPiece 8 1 kK)).
  - exact twoKings_validated.
  - simpl. auto 20.
Defined.

(** ** What a move does to the other side *)

Lemma length_removeAt_find (sq : pos) (l : list piece) (q : piece) :
  find (at_pos sq) l = Some q ->
  S (List.length (removeAt sq l)) = List.length l.
Proof.
  induction l as [|p l IH]; simpl; [discriminate|].
  destruct (at_pos sq p); [reflexivity|].
  intros H. simpl. rewrite (IH H). reflexivity.
Qed.

Lemma length_removeAt_occupied (s : bool) (b : board) (sq : pos) :
  typed b ->
  (List.length (removeAt sq (pieces b s))
   + (if isOccupied s b sq then 1 else 0))%nat
  = List.length (pieces b s).
Proof.
  intros Ht. destruct (isOccupied s b sq) eqn:E.
  - unfold isOccupied, getType in E.
    destruct (find (at_pos sq) (pieces b s)) as [q|] eqn:Hf; [|discriminate].
    pose proof (length_removeAt_find _ _ _ Hf). lia.
  - rewrite count_zero_removeAt; [lia|].
    apply isOccupied_false_count; assumption.
Qed.

Lemma castle_other_side (side : bool) (b b' : board) (fro to : pos)
      (promote : ptype) (q : piece) (i : nat) :
  wf_board b ->
  find (at_pos fro) (pieces b side) = Some q -> pt q = kK ->
  (i < 4)%nat -> rightSide i = side ->
  In (homeRook i) (pieces b side) ->
  isEmpty b (castleBetween i) = true ->
  fro = kingHome i -> to = castleDest i ->
  move side b fro to promote = Ok b' ->
  pieces b' (negb side) = removeAt to (pieces b (negb side)).
Proof.
  intros Hwf Hq Hk Hi Hs HhR He Efro Eto Hm.
  assert (Hv0 : forall sq s, In sq (castleBetween i) ->
                             countAt sq (pieces b s) = 0%nat).
  { intros sq s Hsq. apply (isEmpty_no_piece b (castleBetween i)); try assumption.
    apply Hwf. }
  assert (Hdest : In to (castleBetween i)).
  { rewrite Eto. destruct i as [|[|[|[|i]]]]; simpl; auto; lia. }
  assert (Hwf1 : wf_board (shift side b fro to))
    by (apply shift_wf_vacant; auto).
  pose proof (wf_own_distinct _ side Hwf1) as Hd1.
  assert (Hrook1 : In (homeRook i) (pieces (shift side b fro to) side)).
  { apply hop_keeps; [assumption|]. rewrite Efro.
    destruct i as [|[|[|[|i]]]]; [| | | |lia]; cbn; discriminate. }
  rewrite (move_king_cases side b fro to promote q Hq Hk) in Hm.
  cbv zeta in Hm. injection Hm as Hb'.
  clear Hq Hdest He HhR.
  destruct i as [|[|[|[|i]]]]; [| | | |lia];
    cbn [rightSide Nat.leb kingHome castleDest homeRook castleBetween]
      in Hs, Efro, Eto, Hrook1, Hv0;
    subst side fro to; cbn [fst snd DOWN] in Hb', Hrook1, Hd1.
  - change (5 - 3 =? 2) with true in Hb'. cbv iota in Hb'. subst b'.
    rewrite !shift_opp.
    rewrite (count_zero_removeAt (3, 8)) by (apply Hv0; simpl; auto).
    apply count_zero_removeAt. apply Hv0; simpl; auto.
  - change (5 - 7 =? 2) with false in Hb'.
    change (7 - 5 =? 2) with true in Hb'. cbv iota in Hb'.
    pose proof (find_unique _ (mkPiece 8 8 kR) Hrook1 (Hd1 _)) as Hf.
    change (ppos (mkPiece 8 8 kR)) with (8, 8) in Hf. rewrite Hf in Hb'.
    change (ptype_eqb (pt (mkPiece 8 8 kR)) kK) with false in Hb'.
    cbv iota in Hb'. subst b'.
    rewrite !shift_opp.
    rewrite (count_zero_removeAt (7, 8)) by (apply Hv0; simpl; auto).
    apply count_zero_removeAt. apply Hv0; simpl; auto.
  - change (5 - 3 =? 2) with true in Hb'. cbv iota in Hb'. subst b'.
    rewrite !shift_opp.
    rewrite (count_zero_removeAt (3, 1)) by (apply Hv0; simpl; auto).
    apply count_zero_removeAt. apply Hv0; simpl; auto.
  - change (5 - 7 =? 2) with false in Hb'.
    change (7 - 5 =? 2) with true in Hb'. cbv iota in Hb'.
    pose proof (find_unique _ (mkPiece 8 1 kR) Hrook1 (Hd1 _)) as Hf.
    change (ppos (mkPiece 8 1 kR)) with (8, 1) in Hf. rewrite Hf in Hb'.
    change (ptype_eqb (pt (mkPiece 8 1 kR)) kK) with false in Hb'.
    cbv iota in Hb'. subst b'.
    rewrite !shift_opp.
    rewrite (count_zero_removeAt (7, 1)) by (apply Hv0; simpl; auto).
    apply count_zero_removeAt. apply Hv0; simpl; auto.
Qed.

(** X28: what a move does to the other side.  Apart from an en-passant
    capture (a pawn changing file onto a square the other side does not
    occupy), a valid move applied by [makeMove] in a reachable state changes
    the other side's list only by removing the piece that stood on the
    destination: the list has one piece less when the destination was
    occupied by the other side, and is unchanged otherwise, castling
    included. *)
Theorem other_side_after_move (side : bool) (b b' : board) (fl fl' : flags)
        (fro to : pos) (promote : ptype) :
  reachable (side, b, fl) ->
  isValidMove side b fl fro to = Ok (Some true) ->
  (isOccupied (negb side) b to = true
   \/ getType side b fro <> kP \/ fst to = fst fro) ->
  makeMove side b fro to fl promote = Ok (negb side, b', fl') ->
  pieces b' (negb side) = removeAt to (pieces b (negb side))
  /\ (List.length (pieces b' (negb side))
      + (if isOccupied (negb side) b to then 1 else 0))%nat
     = List.length (pieces b (negb side)).
Proof.
  intros Hre Hv Hno Hmk.
  destruct (reachable_Inv _ Hre) as (Hwf & Hfl & Hrs & Hc).
  assert (Hm : move side b fro to promote = Ok b').
  { unfold makeMove in Hmk. rewrite copy_id in Hmk.
    destruct (move side b fro to promote); cbn [bind] in Hmk; [|discriminate].
    destruct (updateFlags _ _ _ _ _); cbn [bind] in Hmk; [|discriminate].
    inversion Hmk; reflexivity. }
  clear Hmk.
  assert (Hlist : pieces b' (negb side) = removeAt to (pieces b (negb side))).
  { destruct (isValidMove_true _ _ _ _ _ Hv)
      as (_ & Ho & Hmt & q & Hq & Hqt & Hin).
    apply moveTest_true in Hmt. destruct Hmt as (nbp & Hmp & Hnc).
    rewrite copy_id in Hmp.
    assert (Hg : getType side b fro = pt q)
      by (unfold getType; rewrite Hq; reflexivity).
    rewrite rawMoves_eq in Hin. cbn [fst] in Hin.
    destruct (ptype_eqb (pt q) kK) eqn:Ek.
    - apply ptype_eqb_eq in Ek.
      rewrite (rawMovesBase_king_steps side b q (snd fl) Ek) in Hin.
      destruct (valid_king_move side b nbp fl fro to q)
        as [(i & Hi & Hs & Hr & He & Efro & Eto)|[_ Hx]]; try assumption.
      + destruct (Hrs i Hi Hr) as [_ HhR]. rewrite Hs in HhR.
        apply (castle_other_side side b b' fro to promote q i); assumption.
      + rewrite (move_king_cases side b fro to promote q Hq Ek) in Hm.
        cbv zeta in Hm. injection Hm as Hb'.
        replace (fst fro - fst to =? 2) with false in Hb'
          by (symmetry; apply Z.eqb_neq; lia).
        replace (fst to - fst fro =? 2) with false in Hb'
          by (symmetry; apply Z.eqb_neq; lia).
        subst b'. apply shift_opp.
    - apply ptype_eqb_neq in Ek.
      rewrite (move_not_king side b fro to promote q Hq Ek) in Hm.
      fold (shift side b fro to) in Hm.
      destruct (ptype_eqb (pt q) kP) eqn:Ep;
        [|inversion Hm; subst b'; apply shift_opp].
      apply ptype_eqb_eq in Ep.
      assert (Hallow : ALLOWENP side b fro to = false).
      { unfold ALLOWENP. destruct Hno as [Hocc|[Hnp|Hfile]].
        - rewrite isEmpty_single.
          destruct side; cbn [negb] in Hocc; rewrite Hocc;
            rewrite ?andb_false_r; reflexivity.
        - congruence.
        - replace (fst to =? fst fro) with true
            by (symmetry; apply Z.eqb_eq; assumption).
          rewrite andb_false_r. reflexivity. }
      rewrite Hallow in Hm.
      destruct (promotion side (shift side b fro to) to (pt q) promote)
        as [b2|e] eqn:Hpr; cbn [bind] in Hm; [|discriminate].
      unfold enPassant in Hm. injection Hm as Hb'. subst b2.
      destruct (promotion_count _ _ _ _ _ _ Hpr) as [_ Hopp].
      rewrite Hopp. apply shift_opp. }
  split; [exact Hlist|].
  rewrite Hlist. apply length_removeAt_occupied. apply Hwf.
Qed.

Lemma captureReady_reachable : reachable captureReady.
Proof.
  apply (play_reachable [((5, 7), (5, 5)); ((4, 2), (4, 4))] initBoardVars).
  - apply reach_init.
  - vm_compute. reflexivity.
Defined.

Lemma other_side_after_move_witness :
  pieces (snd (fst captured)) (negb false)
  = removeAt (4, 4) (pieces (snd (fst captureReady)) (negb false))
  /\ (List.length (pieces (snd (fst captured)) (negb false))
      + (if isOccupied (negb false) (snd (fst captureReady)) (4, 4)%Z
         then 1 else 0))%nat
     = List.length (pieces (snd (fst captureReady)) (negb false)).
Proof.
  apply (other_side_after_move false (snd (fst captureReady))
           (snd (fst captured)) (snd captureReady) (snd captured)
           (5, 5) (4, 4) kQ).
  - exact captureReady_reachable.
  - vm_compute. reflexivity.
  - left. vm_compute. reflexivity.
  - vm_compute. reflexivity.
Defined.
(** * Further properties of the notation codec *)

Lemma list_index_letter (a : N) (x : Z) :
  list_index LETTER (PyStr [a]) 0 = Ok x <->
  file_letter a /\ x = Z.of_N a - 96.
Proof.
  unfold file_letter, LETTER.
  cbn [list_index pystr_eqb codepoints codes_eqb andb].
  rewrite !andb_true_r.
  repeat match goal with
  | |- context [N.eqb ?k a] =>
      let E := fresh "E" in
      destruct (N.eqb_spec k a) as [E|E];
      [subst a; split;
       [intros H; inversion H; subst; split; [lia|reflexivity]
       |intros [_ ->]; reflexivity]|]
  end.
  split; [discriminate|]. intros [H _]. lia.
Qed.

Lemma file_letter_index (a : N) :
  file_letter a -> py_index LETTER (Z.of_N a - 96) = Ok (PyStr [a]).
Proof.
  unfold file_letter. intros H.
  assert (E : (a = 97 \/ a = 98 \/ a = 99 \/ a = 100 \/ a = 101
               \/ a = 102 \/ a = 103 \/ a = 104)%N) by lia.
  destruct E as [->|[->|[->|[->|[->|[->|[->| ->]]]]]]]; reflexivity.
Qed.

Lemma decimal_run (c : N) (r : Z) :
  decimal c = Some r ->
  0 <= r <= 9
  /\ exists z, In z DIGIT_ZEROS /\ (z <= c < z + 10)%N /\ r = Z.of_N (c - z).
Proof.
  unfold decimal.
  destruct (find _ DIGIT_ZEROS) as [z|] eqn:F; [|discriminate].
  apply find_some in F. destruct F as [Hin Hz].
  apply andb_true_iff in Hz. destruct Hz as [H1 H2].
  apply N.leb_le in H1. apply N.ltb_lt in H2.
  intros H; inversion H; subst r; clear H.
  split; [lia|]. exists z. auto.
Qed.

Lemma str_digit (r : Z) :
  0 <= r <= 9 -> str r = PyStr [(48 + Z.to_N r)%N].
Proof.
  intros H.
  assert (E : r = 0 \/ r = 1 \/ r = 2 \/ r = 3 \/ r = 4 \/ r = 5 \/ r = 6
              \/ r = 7 \/ r = 8 \/ r = 9) by lia.
  destruct E as [->|[->|[->|[->|[->|[->|[->|[->|[->| ->]]]]]]]]];
    reflexivity.
Qed.

Lemma int_of_char_digit (d : N) (r : Z) :
  int_of_char d = Ok r ->
  decimal d = Some r /\ 0 <= r <= 9 /\ str r = PyStr [ascii_digit d].
Proof.
  unfold int_of_char. destruct (decimal d) as [r'|] eqn:E; [|discriminate].
  intros H; inversion H; subst r'; clear H.
  destruct (decimal_run d r E) as [Hr _].
  split; [reflexivity|]. split; [exact Hr|].
  unfold ascii_digit. rewrite E. apply str_digit. exact Hr.
Qed.

Lemma ascii_digit_ascii (d : N) : (d < 128)%N -> ascii_digit d = d.
Proof.
  intros Hd. unfold ascii_digit. destruct (decimal d) as [r|] eqn:E;
    [|reflexivity].
  destruct (decimal_run d r E) as (_ & z & Hin & Hz & ->).
  assert (Ez : z = 48%N).
  { unfold DIGIT_ZEROS in Hin. cbn [In] in Hin.
    repeat (destruct Hin as [<-|Hin]; [lia|]). destruct Hin. }
  subst z. lia.
Qed.

Lemma decode_short (s : pystr) :
  (len s < 4)%nat -> exists e, decode s = Raise e.
Proof.
  intros Hl. unfold decode, char_at. destruct s as [l]. unfold len in Hl.
  cbn [codepoints] in *.
  destruct l as [|a [|d [|a2 [|d2 rest]]]]; simpl in Hl; try lia;
    cbn [nth_error bind];
    repeat match goal with
    | |- context [bind (list_index ?l ?s ?i) _] =>
        destruct (list_index l s i); cbn [bind nth_error]
    | |- context [bind (int_of_char ?c) _] =>
        destruct (int_of_char c); cbn [bind nth_error]
    end; eauto.
Qed.

Lemma decode_four (s : pystr) (r : pos * pos * option pystr) :
  decode s = Ok r ->
  exists a d a2 d2 rest, s = PyStr (a :: d :: a2 :: d2 :: rest).
Proof.
  intros H. destruct s as [l].
  destruct l as [|a [|d [|a2 [|d2 rest]]]];
    try (match type of H with
         | decode ?s = _ =>
             destruct (decode_short s) as [e He];
             [unfold len; simpl; lia|congruence]
         end).
  eauto 10.
Qed.

Lemma decode_parts (a d a2 d2 : N) (rest : list N) (fro to : pos)
      (p : option pystr) :
  decode (PyStr (a :: d :: a2 :: d2 :: rest)) = Ok (fro, to, p) ->
  exists r1 r2,
    file_letter a /\ int_of_char d = Ok r1
    /\ file_letter a2 /\ int_of_char d2 = Ok r2
    /\ fro = (Z.of_N a - 96, 9 - r1) /\ to = (Z.of_N a2 - 96, 9 - r2)
    /\ p = match rest with
           | [c] => Some (PyStr [c])
           | _ => None
           end.
Proof.
  rewrite decode_chars. intros H.
  destruct (list_index LETTER (PyStr [a]) 0) as [x1|] eqn:E1;
    cbn [bind] in H; [|discriminate].
  destruct (int_of_char d) as [r1|] eqn:E2; cbn [bind] in H; [|discriminate].
  destruct (list_index LETTER (PyStr [a2]) 0) as [x2|] eqn:E3;
    cbn [bind] in H; [|discriminate].
  destruct (int_of_char d2) as [r2|] eqn:E4; cbn [bind] in H; [|discriminate].
  apply list_index_letter in E1, E3.
  destruct E1 as [Ha ->], E3 as [Ha2 ->].
  exists r1, r2. repeat (split; [assumption || reflexivity || congruence|]).
  congruence.
Qed.

(** X13: what [decode] accepts.  [decode] returns exactly for the strs
    that start with a file letter a..h, a decimal digit, a file letter and
    a decimal digit, where a digit of any script counts, not only the ASCII
    ones.  When it returns, both files are in 1..8 and both ranks in 0..9
    (the rank digits 0 and 9 are accepted and give squares off the board);
    the promotion letter is the fifth character when the str has exactly
    five characters, and Python's None for every other length, so what
    follows a fifth character makes the promotion letter be dropped. *)
Theorem decode_accepts (s : pystr) :
  ((exists r, decode s = Ok r) <-> move_string s)
  /\ forall fro to p,
       decode s = Ok (fro, to, p) ->
       (4 <= len s)%nat
       /\ 1 <= fst fro <= 8 /\ 0 <= snd fro <= 9
       /\ 1 <= fst to <= 8 /\ 0 <= snd to <= 9
       /\ (len s = 5%nat ->
           exists c, nth_error (codepoints s) 4 = Some c
                     /\ p = Some (PyStr [c]))
       /\ (len s <> 5%nat -> p = None).
Proof.
  split.
  - split.
    + intros [[[fro to] p] H].
      destruct (decode_four s _ H) as (a & d & a2 & d2 & rest & ->).
      destruct (decode_parts _ _ _ _ _ _ _ _ H)
        as (r1 & r2 & Ha & E2 & Ha2 & E4 & _).
      apply int_of_char_digit in E2, E4.
      exists a, d, a2, d2, rest. cbn [codepoints].
      repeat (split; [reflexivity || assumption || (try (destruct E2 as [-> _]; discriminate)) |]).
      destruct E4 as [-> _]. discriminate.
    + intros (a & d & a2 & d2 & rest & Hs & Ha & Hd & Ha2 & Hd2).
      destruct s as [l]. cbn [codepoints] in Hs. subst l.
      rewrite decode_chars.
      rewrite (proj2 (list_index_letter a _) (conj Ha eq_refl)).
      rewrite (proj2 (list_index_letter a2 _) (conj Ha2 eq_refl)).
      unfold int_of_char.
      destruct (decimal d); [|congruence].
      destruct (decimal d2); [|congruence].
      cbn [bind]. eauto.
  - intros fro to p H.
    destruct (decode_four s _ H) as (a & d & a2 & d2 & rest & ->).
    destruct (decode_parts _ _ _ _ _ _ _ _ H)
      as (r1 & r2 & Ha & E2 & Ha2 & E4 & -> & -> & ->).
    apply int_of_char_digit in E2, E4.
    destruct E2 as (_ & Hr1 & _), E4 as (_ & Hr2 & _).
    unfold file_letter in Ha, Ha2. unfold len.
    cbn [fst snd codepoints List.length].
    split; [lia|]. split; [lia|]. split; [lia|]. split; [lia|]. split; [lia|].
    destruct rest as [|c [|c' rest]]; cbn [List.length nth_error]; split;
      intros Hl; try lia; try reflexivity.
    exists c. auto.
Qed.

Lemma decode_accepts_witness :
  (4 <= len e7e8q_arabic)%nat
  /\ 1 <= fst (5, 2) <= 8 /\ 0 <= snd (5, 2) <= 9
  /\ 1 <= fst (5, 1) <= 8 /\ 0 <= snd (5, 1) <= 9
  /\ (len e7e8q_arabic = 5%nat ->
      exists c, nth_error (codepoints e7e8q_arabic) 4 = Some c
                /\ Some "q" = Some (PyStr [c]))
  /\ (len e7e8q_arabic <> 5%nat -> Some "q" = None).
Proof.
  apply (proj2 (decode_accepts e7e8q_arabic) (5, 2) (5, 1) (Some "q")).
  reflexivity.
Defined.

(** X14: [encode] after [decode].  For every str of at most five
    characters that [decode] accepts, [encode] applied to the origin, the
    destination and the promotion letter that [decode] returned gives the
    str with its two rank digits replaced by the ASCII digits of the same
    value; a str of ASCII characters therefore comes back as it is. *)
Theorem encode_decode (s : pystr) (fro to : pos) (p : option pystr) :
  decode s = Ok (fro, to, p) ->
  (len s <= 5)%nat ->
  encode fro to p = Ok (ascii_ranks s)
  /\ ((forall c, In c (codepoints s) -> (c < 128)%N) -> ascii_ranks s = s).
Proof.
  intros H Hl. destruct (decode_four s _ H) as (a & d & a2 & d2 & rest & ->).
  destruct (decode_parts _ _ _ _ _ _ _ _ H)
    as (r1 & r2 & Ha & E2 & Ha2 & E4 & -> & -> & ->).
  apply int_of_char_digit in E2, E4.
  destruct E2 as (_ & _ & E2), E4 as (_ & _ & E4).
  split.
  - unfold encode. cbn [fst snd].
    rewrite (file_letter_index a Ha), (file_letter_index a2 Ha2). cbn [bind].
    replace (9 - (9 - r1)) with r1 by lia.
    replace (9 - (9 - r2)) with r2 by lia.
    rewrite E2, E4. unfold ascii_ranks, pystr_app. cbn [codepoints app].
    unfold len in Hl. cbn [codepoints List.length] in Hl.
    destruct rest as [|c [|c' rest]]; cbn [List.length] in Hl; try lia;
      reflexivity.
  - intros Hasc. unfold ascii_ranks. cbn [codepoints] in *.
    rewrite !ascii_digit_ascii by (apply Hasc; simpl; auto).
    reflexivity.
Qed.

Lemma encode_decode_witness :
  encode (5, 6) (5, 5) None = Ok (ascii_ranks e3e4_arabic)
  /\ ((forall c, In c (codepoints e3e4_arabic) -> (c < 128)%N) ->
      ascii_ranks e3e4_arabic = e3e4_arabic).
Proof.
  apply (encode_decode e3e4_arabic (5, 6) (5, 5) None).
  - reflexivity.
  - unfold len. simpl. lia.
Defined.

Lemma py_index_LETTER (x : Z) :
  (-9 <= x <= 8 -> exists s, py_index LETTER x = Ok s)
  /\ (~ -9 <= x <= 8 -> py_index LETTER x = Raise IndexError).
Proof.
  unfold py_index. change (Z.of_nat (List.length LETTER)) with 9.
  cbv zeta. split; intros H.
  - assert (Hj : 0 <= (if x <? 0 then x + 9 else x) < 9)
      by (destruct (x <? 0) eqn:E;
          [apply Z.ltb_lt in E|apply Z.ltb_ge in E]; lia).
    replace ((0 <=? (if x <? 0 then x + 9 else x))
             && ((if x <? 0 then x + 9 else x) <? 9)) with true
      by (symmetry; apply andb_true_iff; split;
          [apply Z.leb_le|apply Z.ltb_lt]; lia).
    destruct (nth_error LETTER (Z.to_nat (if x <? 0 then x + 9 else x)))
      as [s|] eqn:En; [eauto|].
    apply nth_error_None in En. simpl in En. lia.
  - replace ((0 <=? (if x <? 0 then x + 9 else x))
             && ((if x <? 0 then x + 9 else x) <? 9)) with false;
      [reflexivity|].
    symmetry. apply andb_false_iff.
    destruct (x <? 0) eqn:E; [apply Z.ltb_lt in E|apply Z.ltb_ge in E].
    + left. apply Z.leb_gt. lia.
    + right. apply Z.ltb_ge. lia.
Qed.

(** X24: the bounds of [encode].  It raises exactly when one of the two
    file indices lies outside -9..8, and then it raises IndexError; the
    ranks and the promotion letter never make it raise, and a negative
    file index in range wraps around instead of raising. *)
Theorem encode_raises (fro to : pos) (p : option pystr) :
  (forall e, encode fro to p = Raise e -> e = IndexError)
  /\ ((exists e, encode fro to p = Raise e)
      <-> ~ (-9 <= fst fro <= 8 /\ -9 <= fst to <= 8)).
Proof.
  unfold encode.
  destruct (py_index_LETTER (fst fro)) as [Hf1 Hf2].
  destruct (py_index_LETTER (fst to)) as [Ht1 Ht2].
  destruct (Z_le_dec (-9) (fst fro)) as [Hfa|Hfa];
    [destruct (Z_le_dec (fst fro) 8) as [Hfb|Hfb]|].
  2,3: rewrite Hf2 by lia; cbn [bind]; split;
       [intros e H; inversion H; reflexivity
       |split; [intros _; lia|intros _; eauto]].
  destruct Hf1 as [s1 ->]; [lia|]. cbn [bind].
  destruct (Z_le_dec (-9) (fst to)) as [Hta|Hta];
    [destruct (Z_le_dec (fst to) 8) as [Htb|Htb]|].
  2,3: rewrite Ht2 by lia; cbn [bind]; split;
       [intros e H; inversion H; reflexivity
       |split; [intros _; lia|intros _; eauto]].
  destruct Ht1 as [s2 ->]; [lia|]. cbn [bind].
  split.
  - intros e H. destruct p; discriminate.
  - split.
    + intros [e H]. destruct p; discriminate.
    + intros H. exfalso. apply H. lia.
Qed.

(** * The move history *)

Lemma slice_to_prefix {A : Type} (l : list A) (stop : Z) :
  exists tail, l = slice_to l stop ++ tail.
Proof.
  unfold slice_to. eexists. symmetry. apply firstn_skipn.
Qed.

Lemma undo_prefix {A : Type} (moves : list A) (num : Z) :
  exists tail, moves = undo moves num ++ tail.
Proof.
  unfold undo. destruct (in_range _ _).
  - exists []. rewrite app_nil_r. reflexivity.
  - apply slice_to_prefix.
Qed.

(** X15: for a number [num] between 1 and the length of the history,
    [undo] returns the history without its last [num] moves. *)
Theorem undo_drops_last {A : Type} (moves : list A) (num : Z) :
  1 <= num <= Z.of_nat (List.length moves) ->
  exists tail,
    moves = undo moves num ++ tail
    /\ Z.of_nat (List.length tail) = num.
Proof.
  intros Hn. unfold undo, in_range, slice_to.
  replace (Z.of_nat (List.length moves) <? num) with false
    by (symmetry; apply Z.ltb_ge; lia).
  rewrite andb_false_r.
  replace (- num <? 0) with true by (symmetry; apply Z.ltb_lt; lia).
  exists (skipn (Z.to_nat (Z.max (- num + Z.of_nat (List.length moves)) 0)) moves).
  split; [symmetry; apply firstn_skipn|].
  rewrite length_skipn. lia.
Qed.

Lemma undo_drops_last_witness :
  exists tail,
    ["e2e4"; "e7e5"; "g1f3"] = undo ["e2e4"; "e7e5"; "g1f3"] 2 ++ tail
    /\ Z.of_nat (List.length tail) = 2.
Proof.
  apply (undo_drops_last ["e2e4"; "e7e5"; "g1f3"] 2). simpl. lia.
Defined.

(** X16: the edges of [undo].  Asked to take back more moves than the
    history holds, it returns the history unchanged; asked to take back 0
    moves, it returns the empty history; and for a negative [num] it keeps
    the first [-num] moves. *)
Theorem undo_edges {A : Type} (moves : list A) (num : Z) :
  (Z.of_nat (List.length moves) < num -> undo moves num = moves)
  /\ (num = 0 -> undo moves num = [])
  /\ (num < 0 -> undo moves num = firstn (Z.to_nat (- num)) moves).
Proof.
  unfold undo, in_range, slice_to. split; [|split].
  - intros H.
    replace (0 <=? Z.of_nat (List.length moves)) with true
      by (symmetry; apply Z.leb_le; lia).
    replace (Z.of_nat (List.length moves) <? num) with true
      by (symmetry; apply Z.ltb_lt; lia).
    reflexivity.
  - intros ->.
    replace (Z.of_nat (List.length moves) <? 0) with false
      by (symmetry; apply Z.ltb_ge; lia).
    rewrite andb_false_r. change (- 0 <? 0) with false. cbv iota.
    change (- 0) with 0. rewrite Z.min_l by lia. reflexivity.
  - intros H.
    replace (Z.of_nat (List.length moves) <? num) with false
      by (symmetry; apply Z.ltb_ge; lia).
    rewrite andb_false_r.
    replace (- num <? 0) with false by (symmetry; apply Z.ltb_ge; lia).
    destruct (Z.min_spec (- num) (Z.of_nat (List.length moves)))
      as [[_ ->]|[Hle ->]]; [reflexivity|].
    rewrite Nat2Z.id, firstn_all. symmetry. apply firstn_all2. lia.
Qed.

(** X17: taking moves back never breaks replay.  When [convertMoves]
    replays a history, it also replays what [undo] returns for it, for
    every [num]; and replaying the moves that were taken back from the
    state so obtained leads to the state of the full history. *)
Theorem undo_replays (moves : list pystr) (num : Z) (st : state) :
  convertMoves moves = Ok st ->
  exists st' tail,
    moves = undo moves num ++ tail
    /\ convertMoves (undo moves num) = Ok st'
    /\ replay st' tail = Ok st.
Proof.
  unfold convertMoves. intros H.
  destruct (undo_prefix moves num) as [tail Ht].
  remember (undo moves num) as pre eqn:Hpre. clear Hpre.
  subst moves. rewrite replay_app in H.
  destruct (replay initBoardVars pre) as [st'|e]; cbn [bind] in H;
    [|discriminate].
  exists st', tail. auto.
Qed.

Lemma undo_replays_witness :
  exists st' tail,
    ["e2e4"; "e7e5"] = undo ["e2e4"; "e7e5"] 1 ++ tail
    /\ convertMoves (undo ["e2e4"; "e7e5"] 1) = Ok st'
    /\ replay st' tail
       = Ok (match convertMoves ["e2e4"; "e7e5"] with
             | Ok st => st
             | Raise _ => initBoardVars
             end).
Proof.
  apply (undo_replays ["e2e4"; "e7e5"] 1). vm_compute. reflexivity.
Defined.

(** * The clocks *)

Lemma side_int_nonneg (side : bool) : 0 <= side_int side.
Proof. destruct side; simpl; lia. Qed.

Lemma py_index_nth {A : Type} (l : list A) (i : Z) :
  0 <= i ->
  py_index l i = match nth_error l (Z.to_nat i) with
                 | Some a => Ok a
                 | None => Raise IndexError
                 end.
Proof.
  intros Hi. unfold py_index.
  replace (i <? 0) with false by (symmetry; apply Z.ltb_ge; lia).
  destruct ((0 <=? i) && (i <? Z.of_nat (List.length l))) eqn:E; [reflexivity|].
  destruct (nth_error l (Z.to_nat i)) eqn:En; [|reflexivity].
  exfalso.
  assert (Hlt : (Z.to_nat i < List.length l)%nat)
    by (apply nth_error_Some; congruence).
  apply andb_false_iff in E.
  destruct E as [E|E]; [apply Z.leb_gt in E|apply Z.ltb_ge in E]; lia.
Qed.

Lemma py_store_nth {A : Type} (l : list A) (i : Z) (a : A) :
  0 <= i -> (Z.to_nat i < List.length l)%nat ->
  exists l',
    py_store l i a = Ok l'
    /\ List.length l' = List.length l
    /\ nth_error l' (Z.to_nat i) = Some a
    /\ forall j, j <> Z.to_nat i -> nth_error l' j = nth_error l j.
Proof.
  intros Hi Hlt. unfold py_store.
  replace (i <? 0) with false by (symmetry; apply Z.ltb_ge; lia).
  replace ((0 <=? i) && (i <? Z.of_nat (List.length l))) with true
    by (symmetry; apply andb_true_iff; split;
        [apply Z.leb_le|apply Z.ltb_lt]; lia).
  set (k := Z.to_nat i) in *.
  assert (Hf : List.length (firstn k l) = k)
    by (apply firstn_length_le; lia).
  eexists. split; [reflexivity|]. split; [|split].
  - rewrite length_app, Hf. cbn [List.length]. rewrite length_skipn. lia.
  - rewrite nth_error_app2 by lia. rewrite Hf, Nat.sub_diag. reflexivity.
  - intros j Hj. destruct (Nat.lt_ge_cases j k) as [Hjk|Hjk].
    + rewrite nth_error_app1 by lia. rewrite nth_error_firstn.
      replace (j <? k)%nat with true by (symmetry; apply Nat.ltb_lt; lia).
      reflexivity.
    + rewrite nth_error_app2 by lia. rewrite Hf.
      destruct (j - k)%nat as [|m] eqn:Em; [lia|]. cbn [nth_error].
      rewrite nth_error_skipn. f_equal. lia.
Qed.

Lemma py_add_at_ok (l : list Z) (i d v : Z) :
  0 <= i -> nth_error l (Z.to_nat i) = Some v ->
  exists l',
    py_add_at l i d = Ok l'
    /\ List.length l' = List.length l
    /\ nth_error l' (Z.to_nat i) = Some (v + d)
    /\ forall j, j <> Z.to_nat i -> nth_error l' j = nth_error l j.
Proof.
  intros Hi Hn. unfold py_add_at. rewrite (py_index_nth l i Hi), Hn.
  cbn [bind]. apply py_store_nth; [assumption|].
  apply nth_error_Some. congruence.
Qed.

Lemma py_add_at_raise (l : list Z) (i d : Z) :
  0 <= i -> nth_error l (Z.to_nat i) = None ->
  py_add_at l i d = Raise IndexError.
Proof.
  intros Hi Hn. unfold py_add_at. rewrite (py_index_nth l i Hi), Hn.
  reflexivity.
Qed.

(** X18: [updateTimer] credits the increment to the side that moved, and
    to nothing else.  Without a timer it returns None; with [mode = -1] it
    returns the timer unchanged; otherwise it raises IndexError when the
    timer has no entry for the side, and else returns a timer of the same
    length in which the side's entry has grown by exactly [mode * 1000]
    and every other entry is unchanged. *)
Theorem updateTimer_credits_mover (side : bool) (mode : Z) (t : list Z) :
  updateTimer side mode None = Ok None
  /\ (mode = -1 -> updateTimer side mode (Some t) = Ok (Some t))
  /\ (mode <> -1 ->
      nth_error t (Z.to_nat (side_int side)) = None ->
      updateTimer side mode (Some t) = Raise IndexError)
  /\ (mode <> -1 ->
      forall v, nth_error t (Z.to_nat (side_int side)) = Some v ->
      exists t',
        updateTimer side mode (Some t) = Ok (Some t')
        /\ List.length t' = List.length t
        /\ nth_error t' (Z.to_nat (side_int side)) = Some (v + mode * 1000)
        /\ forall j, j <> Z.to_nat (side_int side) ->
                     nth_error t' j = nth_error t j).
Proof.
  pose proof (side_int_nonneg side) as Hs.
  split; [reflexivity|]. split; [|split].
  - intros ->. reflexivity.
  - intros Hm Hn. unfold updateTimer.
    rewrite (proj2 (Z.eqb_neq _ _) Hm). cbn [negb].
    rewrite py_add_at_raise by assumption. reflexivity.
  - intros Hm v Hn. unfold updateTimer.
    rewrite (proj2 (Z.eqb_neq _ _) Hm). cbn [negb].
    destruct (py_add_at_ok t (side_int side) (mode * 1000) v Hs Hn)
      as (t' & -> & H1 & H2 & H3).
    exists t'. cbn [bind]. auto.
Qed.

(** X19: the clock that [showClock] returns.  When it returns a timer, the
    timer was handed to [putClock], has the length of the old one, differs
    from it at most in the entry of [side], and that entry is below one
    hour (3600000 ms) in the mode -1, which counts up, and is not negative
    in the other modes, which count down.  When it returns None for a
    timer that was given, the mode counts down, [showTimeOver] was called
    for [side], and the time elapsed exceeds what the side had left. *)
Theorem showClock_bounds (now : Z) (side : bool) (mode : Z) (t : list Z)
        (start_time timedelta : Z) :
  (forall t' calls,
     showClock now side mode (Some t) start_time timedelta
     = Ok (Some t', calls) ->
     calls = [PutClock t']
     /\ List.length t' = List.length t
     /\ (forall j, j <> Z.to_nat (side_int side) ->
                   nth_error t' j = nth_error t j)
     /\ exists v, nth_error t' (Z.to_nat (side_int side)) = Some v
                  /\ (mode = -1 -> v < 3600000)
                  /\ (mode <> -1 -> 0 <= v))
  /\ (forall calls,
        showClock now side mode (Some t) start_time timedelta
        = Ok (None, calls) ->
        mode <> -1 /\ calls = [ShowTimeOver side]
        /\ exists v, nth_error t (Z.to_nat (side_int side)) = Some v
                     /\ v < now - (start_time + timedelta)).
Proof.
  pose proof (side_int_nonneg side) as Hs. unfold showClock. cbv zeta.
  set (elapsed := now - (start_time + timedelta)).
  set (k := Z.to_nat (side_int side)).
  destruct (nth_error t k) as [v|] eqn:Hn.
  2:{ rewrite !py_add_at_raise by assumption.
      destruct (mode =? -1); split; intros; discriminate. }
  destruct (mode =? -1) eqn:Em.
  - apply Z.eqb_eq in Em.
    destruct (py_add_at_ok t (side_int side) elapsed v Hs Hn)
      as (r & -> & H1 & H2 & H3).
    cbn [bind]. fold k in H2, H3.
    rewrite (py_index_nth r _ Hs). fold k. rewrite H2. cbn [bind].
    destruct (3600000 <=? v + elapsed) eqn:Ec.
    + destruct (py_store_nth r (side_int side) 3599000 Hs)
        as (r2 & -> & G1 & G2 & G3);
        [apply nth_error_Some; fold k; congruence|].
      cbn [bind]. fold k in G2, G3. split.
      * intros t' calls H. inversion H; subst.
        split; [reflexivity|]. split; [congruence|].
        split; [intros j Hj; rewrite G3, H3 by assumption; reflexivity|].
        exists 3599000. split; [assumption|]. split; intros; lia.
      * intros calls H. discriminate.
    + apply Z.leb_gt in Ec. cbn [bind]. split.
      * intros t' calls H. inversion H; subst.
        split; [reflexivity|]. split; [assumption|]. split; [assumption|].
        exists (v + elapsed). split; [assumption|]. split; intros; lia.
      * intros calls H. discriminate.
  - apply Z.eqb_neq in Em.
    destruct (py_add_at_ok t (side_int side) (- elapsed) v Hs Hn)
      as (r & -> & H1 & H2 & H3).
    cbn [bind]. fold k in H2, H3.
    rewrite (py_index_nth r _ Hs). fold k. rewrite H2. cbn [bind].
    destruct (v + - elapsed <? 0) eqn:Ec.
    + apply Z.ltb_lt in Ec. split.
      * intros t' calls H. discriminate.
      * intros calls H. inversion H; subst.
        split; [assumption|]. split; [reflexivity|].
        exists v. split; [reflexivity|]. lia.
    + apply Z.ltb_ge in Ec. split.
      * intros t' calls H. inversion H; subst.
        split; [reflexivity|]. split; [assumption|]. split; [assumption|].
        exists (v + - elapsed). split; [assumption|]. split; intros; lia.
      * intros calls H. discriminate.
Qed.

(** * The promotion dialog and the destination markers *)

Lemma getChoice_kind (events : list event) (c : pystr) :
  getChoice events = Some c ->
  c = "q" \/ c = "b" \/ c = "r" \/ c = "n".
Proof.
  induction events as [|[x y|] rest IH]; simpl; [discriminate| |assumption].
  destruct ((0 <? y) && (y <? 50)); [|assumption].
  repeat match goal with
         | |- context [if ?c then _ else _] => destruct c
         end;
    try assumption; intros H; inversion H; auto.
Qed.

Lemma getPromote_kind (events : list event) (side : bool) (b : board)
      (fro to : pos) (single : bool) (promote : ptype) :
  getPromote events side b fro to single = Some promote ->
  promotion_kind promote
  /\ promotion_allowed side b fro to promote
  /\ (promote <> None <-> getType side b fro = kP /\ snd to = UP side).
Proof.
  unfold getPromote, promotion_allowed.
  assert (Hc : (negb side && (snd to =? 1)) || (side && (snd to =? 8))
               = (snd to =? UP side))
    by (destruct side; simpl; rewrite ?orb_false_r; reflexivity).
  rewrite Hc.
  destruct (ptype_eqb (getType side b fro) kP) eqn:Eg;
    [apply ptype_eqb_eq in Eg|apply ptype_eqb_neq in Eg];
    (destruct (snd to =? UP side) eqn:Et;
     [apply Z.eqb_eq in Et|apply Z.eqb_neq in Et]); cbn [andb].
  - assert (Hk : forall c, c = "q" \/ c = "b" \/ c = "r" \/ c = "n" ->
                           promotion_kind (Some c)
                           /\ (getType side b fro = kP -> snd to = UP side ->
                               Some c <> None /\ Some c <> kK)
                           /\ (Some c <> None <->
                               getType side b fro = kP /\ snd to = UP side)).
    { intros c Hcs. unfold promotion_kind.
      split; [destruct Hcs as [->|[->|[->| ->]]]; auto 6|].
      split; [intros _ _; split;
              [discriminate
              |destruct Hcs as [->|[->|[->| ->]]]; discriminate]|].
      split; [auto|discriminate]. }
    destruct single.
    + intros H; inversion H; subst. apply Hk. auto.
    + destruct (getChoice events) as [c|] eqn:Hg; [|discriminate].
      intros H; inversion H; subst. apply Hk.
      apply (getChoice_kind events). assumption.
  - intros H; inversion H; subst. split; [left; reflexivity|].
    split; [intros _ Hu; contradiction|]. split; [congruence|tauto].
  - intros H; inversion H; subst. split; [left; reflexivity|].
    split; [intros Hp; contradiction|]. split; [congruence|tauto].
  - intros H; inversion H; subst. split; [left; reflexivity|].
    split; [intros Hp; contradiction|]. split; [congruence|tauto].
Qed.



(** X21: a game played through the dialog stays among the reachable
    states.  From a reachable state, a move that [isValidMove] accepts,
    given the promotion type that [getPromote] returned for it, is applied
    by [makeMove] without an exception, and the state obtained is
    reachable again. *)
Theorem dialog_move_reachable (events : list event) (side : bool) (b : board)
        (fl : flags) (fro to : pos) (single : bool) (promote : ptype) :
  reachable (side, b, fl) ->
  isValidMove side b fl fro to = Ok (Some true) ->
  getPromote events side b fro to single = Some promote ->
  exists b' fl',
    makeMove side b fro to fl promote = Ok (negb side, b', fl')
    /\ reachable (negb side, b', fl').
Proof.
  intros Hr Hv Hp.
  destruct (getPromote_kind _ _ _ _ _ _ _ Hp) as (_ & Hpa & _).
  pose proof (reachable_Inv _ Hr) as (_ & Hfl & _).
  destruct (move_after_valid side b fl fro to promote Hv) as [nb Hm].
  assert (Hmk : exists fl', makeMove side b fro to fl promote
                            = Ok (negb side, nb, fl')).
  { unfold makeMove. rewrite copy_id, Hm. cbn [bind].
    unfold updateFlags. destruct (fst fl) as [c|]; [|congruence].
    cbn [bind]. eauto. }
  destruct Hmk as [fl' Hmk]. exists nb, fl'. split; [assumption|].
  apply (reach_move side b fl fro to promote); assumption.
Qed.

Lemma dialog_move_reachable_witness :
  exists b' fl',
    makeMove false initBoard (5, 7) (5, 5) initFlags None
    = Ok (negb false, b', fl')
    /\ reachable (negb false, b', fl').
Proof.
  apply (dialog_move_reachable [] false initBoard initFlags (5, 7) (5, 5)
                               false None).
  - apply reach_init.
  - vm_compute. reflexivity.
  - reflexivity.
Defined.

(** X22: every marker that [showAvailMoves] draws marks a move that
    [isValidMove] accepts from the selected square: the rectangle is 10 by
    10, and its corner lies 20 pixels inside the 50-pixel square of a
    destination on the board, seen through the flip. *)
Theorem markers_mark_valid_moves (side : bool) (b : board) (sq : pos)
        (fl : flags) (flip : bool) (x y w h : Z) :
  In (x, y, w, h) (fst (showAvailMoves side b sq fl flip)) ->
  exists dest,
    isValidMove side b fl sq dest = Ok (Some true)
    /\ x = 50 * (if flip then 9 - fst dest else fst dest) + 20
    /\ y = 50 * (if flip then 9 - snd dest else snd dest) + 20
    /\ w = 10 /\ h = 10
    /\ 70 <= x <= 420 /\ 70 <= y <= 420.
Proof.
  unfold showAvailMoves. cbn [fst]. intros H.
  apply in_map_iff in H. destruct H as (dest & E & Hin).
  exists dest.
  destruct (find (at_pos sq) (pieces b side)) as [q|] eqn:Hq.
  - rewrite (getType_found side b sq q Hq) in Hin.
    split; [apply (available_valid side b fl q); assumption|].
    unfold availableMoves in Hin. apply availableLoop_sound in Hin.
    destruct Hin as (_ & Hb & _). apply in_bounds_iff in Hb.
    assert (Ex : x = if flip then 470 - fst dest * 50 else fst dest * 50 + 20)
      by congruence.
    assert (Ey : y = if flip then 470 - snd dest * 50 else snd dest * 50 + 20)
      by congruence.
    assert (Ew : w = 10) by congruence.
    assert (Eh : h = 10) by congruence.
    clear E. subst x y w h. destruct flip; repeat split; lia.
  - exfalso. unfold getType in Hin. rewrite Hq in Hin.
    unfold availableMoves in Hin. rewrite rawMoves_eq in Hin.
    simpl in Hin. exact Hin.
Qed.

Lemma markers_mark_valid_moves_witness :
  exists dest,
    isValidMove false initBoard initFlags (5, 7) dest = Ok (Some true)
    /\ 270 = 50 * (if false then 9 - fst dest else fst dest) + 20
    /\ 270 = 50 * (if false then 9 - snd dest else snd dest) + 20
    /\ 10 = 10 /\ 10 = 10
    /\ 70 <= 270 <= 420 /\ 70 <= 270 <= 420.
Proof.
  apply (markers_mark_valid_moves false initBoard (5, 7) initFlags false
                                  270 270 10 10).
  vm_compute. auto.
Defined.
